(** * Slack-to-Zulip message conversion: the markdown rewrite

    A shallow embedding of the message conversion of
    [zerver/lib/slack_data_to_zulip_data.py]:
    [get_user_full_name], and, inside [channel_message_to_zerver_message],
    the five regular expressions, [convert_markdown_syntax],
    [get_user_mentions], [convert_to_zulip_markdown] and the loop over the
    messages of a channel.

    Python strings are sequences of code points; they are modelled as lists
    of [N].  The functions of the [re] module that the code calls
    ([match], [search], [finditer], [sub]) are modelled by a backtracking
    matcher over the abstract syntax of the patterns.

    After the vocabulary of the claims come the functions that build the
    tables of the realm, [get_model_id], [users_to_zerver_userprofile] and
    [channels_to_zerver_stream], and the loop of [do_convert_data] over the
    channels; their properties follow the claims.

    Where the code depends on the character tables of Unicode (the group
    names of a replacement template, the digits and the white space that
    [float] accepts), the tables are those of Unicode 14.0. *)

From Stdlib Require Import NArith ZArith List Bool Lia String Ascii.
From Stdlib Require Import Floats.SpecFloat.
From stdpp Require Import base gmap list.

Local Open Scope N_scope.

(** ** Strings *)

Definition char := N.
Definition str := list char.

Definition chr (a : ascii) : char := N_of_ascii a.

(** A Python string literal (ASCII only). *)
Definition py (s : string) : str := map N_of_ascii (list_ascii_of_string s).

Definition NEWLINE : char := 10.
Definition SPACE : char := chr " ".
Definition BACKSLASH : char := 92.
(** U+2014, the em dash of the inner character classes. *)
Definition EM_DASH : char := 8212.

(** ** Exceptions and results *)

(** The exceptions the conversion can raise: a local variable read
    before assignment, a missing dictionary key, [None] where a string is
    needed, a method of [None], a list index out of range or a name in a
    replacement template that is the name of no group, the errors of [re]
    for a replacement template it cannot compile, a text that [float]
    cannot convert, and an integer that is too large for it. *)
Inductive exn :=
| UnboundLocalError
| KeyError
| TypeError
| AttributeError
| IndexError
| ReError
| ValueError
| OverflowError.

Inductive result (A : Type) :=
| Ok (a : A)
| Err (e : exn).
Arguments Ok {A} a.
Arguments Err {A} e.

(** ** Regular expressions

    The abstract syntax of the patterns, as [re] parses them in [VERBOSE]
    mode (white space and comments outside character classes dropped). *)

Inductive regex :=
| Eps
| Bol                                   (* ^ *)
| Eol                                   (* $ *)
| Lit (c : char)
| Any                                   (* . : any character but a newline *)
| OneOf (rs : list (char * char))       (* [...] as a list of ranges *)
| NoneOf (rs : list (char * char))      (* [^...] *)
| Seq (r1 r2 : regex)
| Alt (r1 r2 : regex)
| Rep (lo : nat) (hi : option nat) (r : regex)   (* greedy {lo,hi} *)
| Grp (i : nat) (r : regex).            (* capturing group number i *)

(** Concatenation and alternation of several patterns. *)
Fixpoint cat (rs : list regex) : regex :=
  match rs with
  | [] => Eps
  | [r] => r
  | r :: rs' => Seq r (cat rs')
  end.

Fixpoint alt (r : regex) (rs : list regex) : regex :=
  match rs with
  | [] => r
  | r' :: rs' => Alt r (alt r' rs')
  end.

Definition Star (r : regex) : regex := Rep 0 None r.
Definition Plus (r : regex) : regex := Rep 1 None r.
Definition Opt (r : regex) : regex := Rep 0 (Some 1%nat) r.

Definition range (a b : ascii) : char * char := (chr a, chr b).
Definition single (a : ascii) : char * char := (chr a, chr a).

(** A literal run of characters. *)
Definition word (s : string) : regex :=
  cat (map (fun a => Lit (chr a)) (list_ascii_of_string s)).

Definition in_ranges (rs : list (char * char)) (c : char) : bool :=
  existsb (fun r => (fst r <=? c) && (c <=? snd r)) rs.

(** The state of a match attempt: the position in the subject, what is
    left of the subject from there, and the groups captured so far (the most
    recent capture of a group comes first). *)
Record mstate := MState {
  m_pos : nat;
  m_rest : str;
  m_groups : list (nat * str)
}.

Definition advance (st : mstate) : mstate :=
  MState (S (m_pos st)) (tail (m_rest st)) (m_groups st).

Definition eat (p : char -> bool) (k : mstate -> option mstate) (st : mstate)
  : option mstate :=
  match m_rest st with
  | c :: _ => if p c then k (advance st) else None
  | [] => None
  end.

Definition capture (i : nat) (st0 st1 : mstate) : mstate :=
  MState (m_pos st1) (m_rest st1)
         ((i, take (m_pos st1 - m_pos st0) (m_rest st0)) :: m_groups st1).

Definition may_iterate (hi : option nat) : bool :=
  match hi with Some O => false | _ => true end.

(** A greedy repetition of [body]: one more iteration first, as long as
    [hi] allows; stopping is possible once [lo] iterations are done.  An
    iteration of a repetition consumes at least one character in every
    pattern of this file ([patterns_consume]), so the number of characters
    left bounds the number of iterations: it is all the [fuel] a repetition
    needs ([iterate_fuel_enough]). *)
Fixpoint iterate (body : (mstate -> option mstate) -> mstate -> option mstate)
    (k : mstate -> option mstate) (fuel : nat) (lo : nat) (hi : option nat)
    (st : mstate) {struct fuel} : option mstate :=
  let stop := match lo with O => k st | S _ => None end in
  match fuel with
  | O => stop
  | S fuel' =>
      if may_iterate hi then
        match body (iterate body k fuel' (pred lo) (pred <$> hi)) st with
        | Some res => Some res
        | None => stop
        end
      else stop
  end.

(** The backtracking matcher, in continuation-passing style: [exec r k st]
    tries the ways [r] can match at [st] in the order of priority of [re]
    (left alternative first, more iterations first) and returns the first
    one that the continuation [k] accepts. *)
Fixpoint exec (r : regex) (k : mstate -> option mstate) (st : mstate)
  : option mstate :=
  match r with
  | Eps => k st
  | Bol => match m_pos st with O => k st | S _ => None end
  | Eol => match m_rest st with
           | [] => k st
           | [c] => if c =? NEWLINE then k st else None
           | _ => None
           end
  | Lit c => eat (N.eqb c) k st
  | Any => eat (fun x => negb (x =? NEWLINE)) k st
  | OneOf rs => eat (in_ranges rs) k st
  | NoneOf rs => eat (fun x => negb (in_ranges rs x)) k st
  | Seq r1 r2 => exec r1 (exec r2 k) st
  | Alt r1 r2 => match exec r1 k st with
                 | Some res => Some res
                 | None => exec r2 k st
                 end
  | Grp i r1 => exec r1 (fun st1 => k (capture i st st1)) st
  | Rep lo hi r1 => iterate (exec r1) k (length (m_rest st)) lo hi st
  end.

(** A match object: where the match starts and ends in the subject, and
    the captured groups. *)
Record rmatch := RMatch {
  rm_start : nat;
  rm_end : nat;
  rm_groups : list (nat * str)
}.

(** One attempt of the pattern at position [pos], where [rest] is the
    subject from [pos] on. *)
Definition attempt (r : regex) (pos : nat) (rest : str) : option rmatch :=
  match exec r Some (MState pos rest []) with
  | Some st => Some (RMatch pos (m_pos st) (m_groups st))
  | None => None
  end.

(** [pattern.match(s)]: the pattern at the start of [s]. *)
Definition re_match (r : regex) (s : str) : option rmatch := attempt r 0 s.

(** [re.search] from position [pos]: the leftmost position with a match. *)
Fixpoint search_from (r : regex) (pos : nat) (rest : str) : option rmatch :=
  match attempt r pos rest with
  | Some m => Some m
  | None => match rest with
            | [] => None
            | _ :: rest' => search_from r (S pos) rest'
            end
  end.
Definition re_search (r : regex) (s : str) : option rmatch := search_from r 0 s.

(** [re.finditer]: the matches from left to right, each search starting
    where the previous match ended ([skip] characters are inside the
    previous match).  No pattern of this file matches the empty string
    ([patterns_consume]). *)
Fixpoint scan (r : regex) (pos skip : nat) (rest : str) {struct rest}
  : list rmatch :=
  match skip with
  | S skip' => match rest with
               | [] => []
               | _ :: rest' => scan r (S pos) skip' rest'
               end
  | O => match attempt r pos rest with
         | Some m => m :: match rest with
                          | [] => []
                          | _ :: rest' =>
                              scan r (S pos) (rm_end m - pos - 1) rest'
                          end
         | None => match rest with
                   | [] => []
                   | _ :: rest' => scan r (S pos) 0 rest'
                   end
         end
  end.
Definition re_finditer (r : regex) (s : str) : list rmatch := scan r 0 0 s.

(** [match.group(i)]: [None] for a group that took no part in the match. *)
Definition group (s : str) (m : rmatch) (i : nat) : option str :=
  match i with
  | O => Some (take (rm_end m - rm_start m) (drop (rm_start m) s))
  | _ => snd <$> find (fun g => Nat.eqb (fst g) i) (rm_groups m)
  end.

(** The number of capturing groups of a pattern. *)
Fixpoint ngroups (r : regex) : nat :=
  match r with
  | Seq r1 r2 | Alt r1 r2 => Nat.max (ngroups r1) (ngroups r2)
  | Rep _ _ r1 => ngroups r1
  | Grp i r1 => Nat.max i (ngroups r1)
  | _ => O
  end.

(** ** Replacement templates

    [re.sub] with a string as replacement compiles it as a template: a
    backslash introduces a group reference or an escape.  The compilation
    happens before the search and can fail; it follows
    [parse_template] of CPython's regular-expression parser (as of
    CPython 3.12, where a group is referred to by a decimal number of ASCII
    digits or by its name; a name that is an identifier but the name of no
    group is an [IndexError], any other name an error of [re]). *)

Inductive titem :=
| TLit (c : char)
| TGrp (i : nat).

Definition is_digit (c : char) : bool := (chr "0" <=? c) && (c <=? chr "9").
Definition is_octdigit (c : char) : bool := (chr "0" <=? c) && (c <=? chr "7").
Definition is_ascii_letter (c : char) : bool :=
  ((chr "a" <=? c) && (c <=? chr "z")) || ((chr "A" <=? c) && (c <=? chr "Z")).
Definition digit_val (c : char) : N := c - chr "0".

Definition number (base : N) (ds : str) : N :=
  fold_left (fun acc d => base * acc + digit_val d) ds 0.

(** The escapes of a template that stand for one character. *)
Definition escape_char (c : char) : option char :=
  if c =? chr "a" then Some 7
  else if c =? chr "b" then Some 8
  else if c =? chr "f" then Some 12
  else if c =? chr "n" then Some 10
  else if c =? chr "r" then Some 13
  else if c =? chr "t" then Some 9
  else if c =? chr "v" then Some 11
  else if c =? BACKSLASH then Some BACKSLASH
  else None.

(** The text up to the first [stop], and what follows it. *)
Fixpoint getuntil (stop : char) (s : str) : option (str * str) :=
  match s with
  | [] => None
  | c :: t => if c =? stop then Some ([], t)
              else match getuntil stop t with
                   | Some (name, rest) => Some (c :: name, rest)
                   | None => None
                   end
  end.

(** The characters an identifier can start with: the underscore and the
    characters with the property [XID_Start] of Unicode 14.0. *)
Definition XID_START : list (char * char) :=
  [(65, 90); (95, 95); (97, 122); (170, 170); (181, 181);
   (186, 186); (192, 214); (216, 246); (248, 705); (710, 721);
   (736, 740); (748, 748); (750, 750); (880, 884); (886, 887);
   (891, 893); (895, 895); (902, 902); (904, 906); (908, 908);
   (910, 929); (931, 1013); (1015, 1153); (1162, 1327); (1329, 1366);
   (1369, 1369); (1376, 1416); (1488, 1514); (1519, 1522); (1568, 1610);
   (1646, 1647); (1649, 1747); (1749, 1749); (1765, 1766); (1774, 1775);
   (1786, 1788); (1791, 1791); (1808, 1808); (1810, 1839); (1869, 1957);
   (1969, 1969); (1994, 2026); (2036, 2037); (2042, 2042); (2048, 2069);
   (2074, 2074); (2084, 2084); (2088, 2088); (2112, 2136); (2144, 2154);
   (2160, 2183); (2185, 2190); (2208, 2249); (2308, 2361); (2365, 2365);
   (2384, 2384); (2392, 2401); (2417, 2432); (2437, 2444); (2447, 2448);
   (2451, 2472); (2474, 2480); (2482, 2482); (2486, 2489); (2493, 2493);
   (2510, 2510); (2524, 2525); (2527, 2529); (2544, 2545); (2556, 2556);
   (2565, 2570); (2575, 2576); (2579, 2600); (2602, 2608); (2610, 2611);
   (2613, 2614); (2616, 2617); (2649, 2652); (2654, 2654); (2674, 2676);
   (2693, 2701); (2703, 2705); (2707, 2728); (2730, 2736); (2738, 2739);
   (2741, 2745); (2749, 2749); (2768, 2768); (2784, 2785); (2809, 2809);
   (2821, 2828); (2831, 2832); (2835, 2856); (2858, 2864); (2866, 2867);
   (2869, 2873); (2877, 2877); (2908, 2909); (2911, 2913); (2929, 2929);
   (2947, 2947); (2949, 2954); (2958, 2960); (2962, 2965); (2969, 2970);
   (2972, 2972); (2974, 2975); (2979, 2980); (2984, 2986); (2990, 3001);
   (3024, 3024); (3077, 3084); (3086, 3088); (3090, 3112); (3114, 3129);
   (3133, 3133); (3160, 3162); (3165, 3165); (3168, 3169); (3200, 3200);
   (3205, 3212); (3214, 3216); (3218, 3240); (3242, 3251); (3253, 3257);
   (3261, 3261); (3293, 3294); (3296, 3297); (3313, 3314); (3332, 3340);
   (3342, 3344); (3346, 3386); (3389, 3389); (3406, 3406); (3412, 3414);
   (3423, 3425); (3450, 3455); (3461, 3478); (3482, 3505); (3507, 3515);
   (3517, 3517); (3520, 3526); (3585, 3632); (3634, 3634); (3648, 3654);
   (3713, 3714); (3716, 3716); (3718, 3722); (3724, 3747); (3749, 3749);
   (3751, 3760); (3762, 3762); (3773, 3773); (3776, 3780); (3782, 3782);
   (3804, 3807); (3840, 3840); (3904, 3911); (3913, 3948); (3976, 3980);
   (4096, 4138); (4159, 4159); (4176, 4181); (4186, 4189); (4193, 4193);
   (4197, 4198); (4206, 4208); (4213, 4225); (4238, 4238); (4256, 4293);
   (4295, 4295); (4301, 4301); (4304, 4346); (4348, 4680); (4682, 4685);
   (4688, 4694); (4696, 4696); (4698, 4701); (4704, 4744); (4746, 4749);
   (4752, 4784); (4786, 4789); (4792, 4798); (4800, 4800); (4802, 4805);
   (4808, 4822); (4824, 4880); (4882, 4885); (4888, 4954); (4992, 5007);
   (5024, 5109); (5112, 5117); (5121, 5740); (5743, 5759); (5761, 5786);
   (5792, 5866); (5870, 5880); (5888, 5905); (5919, 5937); (5952, 5969);
   (5984, 5996); (5998, 6000); (6016, 6067); (6103, 6103); (6108, 6108);
   (6176, 6264); (6272, 6312); (6314, 6314); (6320, 6389); (6400, 6430);
   (6480, 6509); (6512, 6516); (6528, 6571); (6576, 6601); (6656, 6678);
   (6688, 6740); (6823, 6823); (6917, 6963); (6981, 6988); (7043, 7072);
   (7086, 7087); (7098, 7141); (7168, 7203); (7245, 7247); (7258, 7293);
   (7296, 7304); (7312, 7354); (7357, 7359); (7401, 7404); (7406, 7411);
   (7413, 7414); (7418, 7418); (7424, 7615); (7680, 7957); (7960, 7965);
   (7968, 8005); (8008, 8013); (8016, 8023); (8025, 8025); (8027, 8027);
   (8029, 8029); (8031, 8061); (8064, 8116); (8118, 8124); (8126, 8126);
   (8130, 8132); (8134, 8140); (8144, 8147); (8150, 8155); (8160, 8172);
   (8178, 8180); (8182, 8188); (8305, 8305); (8319, 8319); (8336, 8348);
   (8450, 8450); (8455, 8455); (8458, 8467); (8469, 8469); (8472, 8477);
   (8484, 8484); (8486, 8486); (8488, 8488); (8490, 8505); (8508, 8511);
   (8517, 8521); (8526, 8526); (8544, 8584); (11264, 11492); (11499, 11502);
   (11506, 11507); (11520, 11557); (11559, 11559); (11565, 11565); (11568, 11623);
   (11631, 11631); (11648, 11670); (11680, 11686); (11688, 11694); (11696, 11702);
   (11704, 11710); (11712, 11718); (11720, 11726); (11728, 11734); (11736, 11742);
   (12293, 12295); (12321, 12329); (12337, 12341); (12344, 12348); (12353, 12438);
   (12445, 12447); (12449, 12538); (12540, 12543); (12549, 12591); (12593, 12686);
   (12704, 12735); (12784, 12799); (13312, 19903); (19968, 42124); (42192, 42237);
   (42240, 42508); (42512, 42527); (42538, 42539); (42560, 42606); (42623, 42653);
   (42656, 42735); (42775, 42783); (42786, 42888); (42891, 42954); (42960, 42961);
   (42963, 42963); (42965, 42969); (42994, 43009); (43011, 43013); (43015, 43018);
   (43020, 43042); (43072, 43123); (43138, 43187); (43250, 43255); (43259, 43259);
   (43261, 43262); (43274, 43301); (43312, 43334); (43360, 43388); (43396, 43442);
   (43471, 43471); (43488, 43492); (43494, 43503); (43514, 43518); (43520, 43560);
   (43584, 43586); (43588, 43595); (43616, 43638); (43642, 43642); (43646, 43695);
   (43697, 43697); (43701, 43702); (43705, 43709); (43712, 43712); (43714, 43714);
   (43739, 43741); (43744, 43754); (43762, 43764); (43777, 43782); (43785, 43790);
   (43793, 43798); (43808, 43814); (43816, 43822); (43824, 43866); (43868, 43881);
   (43888, 44002); (44032, 55203); (55216, 55238); (55243, 55291); (63744, 64109);
   (64112, 64217); (64256, 64262); (64275, 64279); (64285, 64285); (64287, 64296);
   (64298, 64310); (64312, 64316); (64318, 64318); (64320, 64321); (64323, 64324);
   (64326, 64433); (64467, 64605); (64612, 64829); (64848, 64911); (64914, 64967);
   (65008, 65017); (65137, 65137); (65139, 65139); (65143, 65143); (65145, 65145);
   (65147, 65147); (65149, 65149); (65151, 65276); (65313, 65338); (65345, 65370);
   (65382, 65437); (65440, 65470); (65474, 65479); (65482, 65487); (65490, 65495);
   (65498, 65500); (65536, 65547); (65549, 65574); (65576, 65594); (65596, 65597);
   (65599, 65613); (65616, 65629); (65664, 65786); (65856, 65908); (66176, 66204);
   (66208, 66256); (66304, 66335); (66349, 66378); (66384, 66421); (66432, 66461);
   (66464, 66499); (66504, 66511); (66513, 66517); (66560, 66717); (66736, 66771);
   (66776, 66811); (66816, 66855); (66864, 66915); (66928, 66938); (66940, 66954);
   (66956, 66962); (66964, 66965); (66967, 66977); (66979, 66993); (66995, 67001);
   (67003, 67004); (67072, 67382); (67392, 67413); (67424, 67431); (67456, 67461);
   (67463, 67504); (67506, 67514); (67584, 67589); (67592, 67592); (67594, 67637);
   (67639, 67640); (67644, 67644); (67647, 67669); (67680, 67702); (67712, 67742);
   (67808, 67826); (67828, 67829); (67840, 67861); (67872, 67897); (67968, 68023);
   (68030, 68031); (68096, 68096); (68112, 68115); (68117, 68119); (68121, 68149);
   (68192, 68220); (68224, 68252); (68288, 68295); (68297, 68324); (68352, 68405);
   (68416, 68437); (68448, 68466); (68480, 68497); (68608, 68680); (68736, 68786);
   (68800, 68850); (68864, 68899); (69248, 69289); (69296, 69297); (69376, 69404);
   (69415, 69415); (69424, 69445); (69488, 69505); (69552, 69572); (69600, 69622);
   (69635, 69687); (69745, 69746); (69749, 69749); (69763, 69807); (69840, 69864);
   (69891, 69926); (69956, 69956); (69959, 69959); (69968, 70002); (70006, 70006);
   (70019, 70066); (70081, 70084); (70106, 70106); (70108, 70108); (70144, 70161);
   (70163, 70187); (70272, 70278); (70280, 70280); (70282, 70285); (70287, 70301);
   (70303, 70312); (70320, 70366); (70405, 70412); (70415, 70416); (70419, 70440);
   (70442, 70448); (70450, 70451); (70453, 70457); (70461, 70461); (70480, 70480);
   (70493, 70497); (70656, 70708); (70727, 70730); (70751, 70753); (70784, 70831);
   (70852, 70853); (70855, 70855); (71040, 71086); (71128, 71131); (71168, 71215);
   (71236, 71236); (71296, 71338); (71352, 71352); (71424, 71450); (71488, 71494);
   (71680, 71723); (71840, 71903); (71935, 71942); (71945, 71945); (71948, 71955);
   (71957, 71958); (71960, 71983); (71999, 71999); (72001, 72001); (72096, 72103);
   (72106, 72144); (72161, 72161); (72163, 72163); (72192, 72192); (72203, 72242);
   (72250, 72250); (72272, 72272); (72284, 72329); (72349, 72349); (72368, 72440);
   (72704, 72712); (72714, 72750); (72768, 72768); (72818, 72847); (72960, 72966);
   (72968, 72969); (72971, 73008); (73030, 73030); (73056, 73061); (73063, 73064);
   (73066, 73097); (73112, 73112); (73440, 73458); (73648, 73648); (73728, 74649);
   (74752, 74862); (74880, 75075); (77712, 77808); (77824, 78894); (82944, 83526);
   (92160, 92728); (92736, 92766); (92784, 92862); (92880, 92909); (92928, 92975);
   (92992, 92995); (93027, 93047); (93053, 93071); (93760, 93823); (93952, 94026);
   (94032, 94032); (94099, 94111); (94176, 94177); (94179, 94179); (94208, 100343);
   (100352, 101589); (101632, 101640); (110576, 110579); (110581, 110587); (110589, 110590);
   (110592, 110882); (110928, 110930); (110948, 110951); (110960, 111355); (113664, 113770);
   (113776, 113788); (113792, 113800); (113808, 113817); (119808, 119892); (119894, 119964);
   (119966, 119967); (119970, 119970); (119973, 119974); (119977, 119980); (119982, 119993);
   (119995, 119995); (119997, 120003); (120005, 120069); (120071, 120074); (120077, 120084);
   (120086, 120092); (120094, 120121); (120123, 120126); (120128, 120132); (120134, 120134);
   (120138, 120144); (120146, 120485); (120488, 120512); (120514, 120538); (120540, 120570);
   (120572, 120596); (120598, 120628); (120630, 120654); (120656, 120686); (120688, 120712);
   (120714, 120744); (120746, 120770); (120772, 120779); (122624, 122654); (123136, 123180);
   (123191, 123197); (123214, 123214); (123536, 123565); (123584, 123627); (124896, 124902);
   (124904, 124907); (124909, 124910); (124912, 124926); (124928, 125124); (125184, 125251);
   (125259, 125259); (126464, 126467); (126469, 126495); (126497, 126498); (126500, 126500);
   (126503, 126503); (126505, 126514); (126516, 126519); (126521, 126521); (126523, 126523);
   (126530, 126530); (126535, 126535); (126537, 126537); (126539, 126539); (126541, 126543);
   (126545, 126546); (126548, 126548); (126551, 126551); (126553, 126553); (126555, 126555);
   (126557, 126557); (126559, 126559); (126561, 126562); (126564, 126564); (126567, 126570);
   (126572, 126578); (126580, 126583); (126585, 126588); (126590, 126590); (126592, 126601);
   (126603, 126619); (126625, 126627); (126629, 126633); (126635, 126651); (131072, 173791);
   (173824, 177976); (177984, 178205); (178208, 183969); (183984, 191456); (194560, 195101);
   (196608, 201546)].

(** The characters with the property [XID_Continue] that are not in
    [XID_START]. *)
Definition XID_CONTINUE_ONLY : list (char * char) :=
  [(48, 57); (183, 183); (768, 879); (903, 903); (1155, 1159);
   (1425, 1469); (1471, 1471); (1473, 1474); (1476, 1477); (1479, 1479);
   (1552, 1562); (1611, 1641); (1648, 1648); (1750, 1756); (1759, 1764);
   (1767, 1768); (1770, 1773); (1776, 1785); (1809, 1809); (1840, 1866);
   (1958, 1968); (1984, 1993); (2027, 2035); (2045, 2045); (2070, 2073);
   (2075, 2083); (2085, 2087); (2089, 2093); (2137, 2139); (2200, 2207);
   (2250, 2273); (2275, 2307); (2362, 2364); (2366, 2383); (2385, 2391);
   (2402, 2403); (2406, 2415); (2433, 2435); (2492, 2492); (2494, 2500);
   (2503, 2504); (2507, 2509); (2519, 2519); (2530, 2531); (2534, 2543);
   (2558, 2558); (2561, 2563); (2620, 2620); (2622, 2626); (2631, 2632);
   (2635, 2637); (2641, 2641); (2662, 2673); (2677, 2677); (2689, 2691);
   (2748, 2748); (2750, 2757); (2759, 2761); (2763, 2765); (2786, 2787);
   (2790, 2799); (2810, 2815); (2817, 2819); (2876, 2876); (2878, 2884);
   (2887, 2888); (2891, 2893); (2901, 2903); (2914, 2915); (2918, 2927);
   (2946, 2946); (3006, 3010); (3014, 3016); (3018, 3021); (3031, 3031);
   (3046, 3055); (3072, 3076); (3132, 3132); (3134, 3140); (3142, 3144);
   (3146, 3149); (3157, 3158); (3170, 3171); (3174, 3183); (3201, 3203);
   (3260, 3260); (3262, 3268); (3270, 3272); (3274, 3277); (3285, 3286);
   (3298, 3299); (3302, 3311); (3328, 3331); (3387, 3388); (3390, 3396);
   (3398, 3400); (3402, 3405); (3415, 3415); (3426, 3427); (3430, 3439);
   (3457, 3459); (3530, 3530); (3535, 3540); (3542, 3542); (3544, 3551);
   (3558, 3567); (3570, 3571); (3633, 3633); (3635, 3642); (3655, 3662);
   (3664, 3673); (3761, 3761); (3763, 3772); (3784, 3789); (3792, 3801);
   (3864, 3865); (3872, 3881); (3893, 3893); (3895, 3895); (3897, 3897);
   (3902, 3903); (3953, 3972); (3974, 3975); (3981, 3991); (3993, 4028);
   (4038, 4038); (4139, 4158); (4160, 4169); (4182, 4185); (4190, 4192);
   (4194, 4196); (4199, 4205); (4209, 4212); (4226, 4237); (4239, 4253);
   (4957, 4959); (4969, 4977); (5906, 5909); (5938, 5940); (5970, 5971);
   (6002, 6003); (6068, 6099); (6109, 6109); (6112, 6121); (6155, 6157);
   (6159, 6169); (6313, 6313); (6432, 6443); (6448, 6459); (6470, 6479);
   (6608, 6618); (6679, 6683); (6741, 6750); (6752, 6780); (6783, 6793);
   (6800, 6809); (6832, 6845); (6847, 6862); (6912, 6916); (6964, 6980);
   (6992, 7001); (7019, 7027); (7040, 7042); (7073, 7085); (7088, 7097);
   (7142, 7155); (7204, 7223); (7232, 7241); (7248, 7257); (7376, 7378);
   (7380, 7400); (7405, 7405); (7412, 7412); (7415, 7417); (7616, 7679);
   (8255, 8256); (8276, 8276); (8400, 8412); (8417, 8417); (8421, 8432);
   (11503, 11505); (11647, 11647); (11744, 11775); (12330, 12335); (12441, 12442);
   (42528, 42537); (42607, 42607); (42612, 42621); (42654, 42655); (42736, 42737);
   (43010, 43010); (43014, 43014); (43019, 43019); (43043, 43047); (43052, 43052);
   (43136, 43137); (43188, 43205); (43216, 43225); (43232, 43249); (43263, 43273);
   (43302, 43309); (43335, 43347); (43392, 43395); (43443, 43456); (43472, 43481);
   (43493, 43493); (43504, 43513); (43561, 43574); (43587, 43587); (43596, 43597);
   (43600, 43609); (43643, 43645); (43696, 43696); (43698, 43700); (43703, 43704);
   (43710, 43711); (43713, 43713); (43755, 43759); (43765, 43766); (44003, 44010);
   (44012, 44013); (44016, 44025); (64286, 64286); (65024, 65039); (65056, 65071);
   (65075, 65076); (65101, 65103); (65296, 65305); (65343, 65343); (65438, 65439);
   (66045, 66045); (66272, 66272); (66422, 66426); (66720, 66729); (68097, 68099);
   (68101, 68102); (68108, 68111); (68152, 68154); (68159, 68159); (68325, 68326);
   (68900, 68903); (68912, 68921); (69291, 69292); (69446, 69456); (69506, 69509);
   (69632, 69634); (69688, 69702); (69734, 69744); (69747, 69748); (69759, 69762);
   (69808, 69818); (69826, 69826); (69872, 69881); (69888, 69890); (69927, 69940);
   (69942, 69951); (69957, 69958); (70003, 70003); (70016, 70018); (70067, 70080);
   (70089, 70092); (70094, 70105); (70188, 70199); (70206, 70206); (70367, 70378);
   (70384, 70393); (70400, 70403); (70459, 70460); (70462, 70468); (70471, 70472);
   (70475, 70477); (70487, 70487); (70498, 70499); (70502, 70508); (70512, 70516);
   (70709, 70726); (70736, 70745); (70750, 70750); (70832, 70851); (70864, 70873);
   (71087, 71093); (71096, 71104); (71132, 71133); (71216, 71232); (71248, 71257);
   (71339, 71351); (71360, 71369); (71453, 71467); (71472, 71481); (71724, 71738);
   (71904, 71913); (71984, 71989); (71991, 71992); (71995, 71998); (72000, 72000);
   (72002, 72003); (72016, 72025); (72145, 72151); (72154, 72160); (72164, 72164);
   (72193, 72202); (72243, 72249); (72251, 72254); (72263, 72263); (72273, 72283);
   (72330, 72345); (72751, 72758); (72760, 72767); (72784, 72793); (72850, 72871);
   (72873, 72886); (73009, 73014); (73018, 73018); (73020, 73021); (73023, 73029);
   (73031, 73031); (73040, 73049); (73098, 73102); (73104, 73105); (73107, 73111);
   (73120, 73129); (73459, 73462); (92768, 92777); (92864, 92873); (92912, 92916);
   (92976, 92982); (93008, 93017); (94031, 94031); (94033, 94087); (94095, 94098);
   (94180, 94180); (94192, 94193); (113821, 113822); (118528, 118573); (118576, 118598);
   (119141, 119145); (119149, 119154); (119163, 119170); (119173, 119179); (119210, 119213);
   (119362, 119364); (120782, 120831); (121344, 121398); (121403, 121452); (121461, 121461);
   (121476, 121476); (121499, 121503); (121505, 121519); (122880, 122886); (122888, 122904);
   (122907, 122913); (122915, 122916); (122918, 122922); (123184, 123190); (123200, 123209);
   (123566, 123566); (123628, 123641); (125136, 125142); (125252, 125258); (125264, 125273);
   (130032, 130041); (917760, 917999)].

(** [name.isidentifier()] *)
Definition isidentifier (name : str) : bool :=
  match name with
  | [] => false
  | c :: t =>
      in_ranges XID_START c
      && forallb (fun x => in_ranges XID_START x || in_ranges XID_CONTINUE_ONLY x) t
  end.

Definition group_ref (n : N) (groups : nat) : result titem :=
  if n <=? N.of_nat groups then Ok (TGrp (N.to_nat n)) else Err ReError.

(** One item of the template at the head of [s] (which is not empty), and
    the rest of the template.  [groups] is the number of groups of the
    pattern; no pattern of this file has named groups.  The parser reads
    one character ahead, so that a backslash that ends the template right
    after a group name is an error before the name is looked at. *)
Definition template_item (groups : nat) (s : str) : result (list titem * str) :=
  match s with
  | [] => Ok ([], [])
  | c :: t =>
      if negb (c =? BACKSLASH) then Ok ([TLit c], t)
      else match t with
           | [] => Err ReError                       (* bad escape (end of pattern) *)
           | e :: t1 =>
               if e =? chr "g" then
                 match t1 with
                 | lt :: t2 =>
                     if lt =? chr "<" then
                       match getuntil (chr ">") t2 with
                       | Some (name, rest) =>
                           if bool_decide (rest = [BACKSLASH])
                           then Err ReError          (* bad escape (end of pattern) *)
                           else
                           if forallb is_digit name && negb (bool_decide (name = [])) then
                             match group_ref (number 10 name) groups with
                             | Ok g => Ok ([g], rest)
                             | Err x => Err x
                             end
                           else if isidentifier name
                           then Err IndexError       (* unknown group name *)
                           else Err ReError          (* bad character in group name *)
                       | None => Err ReError         (* missing >, unterminated name *)
                       end
                     else Err ReError                (* missing < *)
                 | [] => Err ReError
                 end
               else if e =? chr "0" then
                 match t1 with
                 | d1 :: t2 =>
                     if is_octdigit d1 then
                       match t2 with
                       | d2 :: t3 =>
                           if is_octdigit d2
                           then Ok ([TLit (N.land (number 8 [d1; d2]) 255)], t3)
                           else Ok ([TLit (number 8 [d1])], t2)
                       | [] => Ok ([TLit (number 8 [d1])], t2)
                       end
                     else Ok ([TLit 0], t1)
                 | [] => Ok ([TLit 0], t1)
                 end
               else if is_digit e then
                 match t1 with
                 | d1 :: t2 =>
                     if is_digit d1 then
                       match t2 with
                       | d2 :: t3 =>
                           if is_octdigit e && is_octdigit d1 && is_octdigit d2 then
                             if number 8 [e; d1; d2] <=? 255
                             then Ok ([TLit (number 8 [e; d1; d2])], t3)
                             else Err ReError        (* octal escape out of range *)
                           else match group_ref (number 10 [e; d1]) groups with
                                | Ok g => Ok ([g], t2)
                                | Err x => Err x
                                end
                       | [] => match group_ref (number 10 [e; d1]) groups with
                               | Ok g => Ok ([g], t2)
                               | Err x => Err x
                               end
                       end
                     else match group_ref (number 10 [e]) groups with
                          | Ok g => Ok ([g], t1)
                          | Err x => Err x
                          end
                 | [] => match group_ref (number 10 [e]) groups with
                         | Ok g => Ok ([g], t1)
                         | Err x => Err x
                         end
                 end
               else match escape_char e with
                    | Some x => Ok ([TLit x], t1)
                    | None => if is_ascii_letter e then Err ReError   (* bad escape *)
                              else Ok ([TLit BACKSLASH; TLit e], t1)
                    end
           end
  end.

(** Every item consumes at least one character of the template, so its
    length is enough [fuel]. *)
Fixpoint parse_template_from (fuel : nat) (groups : nat) (s : str)
  : result (list titem) :=
  match s, fuel with
  | [], _ => Ok []
  | _, O => Ok []
  | _, S fuel' =>
      match template_item groups s with
      | Err x => Err x
      | Ok (items, rest) =>
          match parse_template_from fuel' groups rest with
          | Err x => Err x
          | Ok more => Ok (items ++ more)
          end
      end
  end.

Definition parse_template (groups : nat) (repl : str) : result (list titem) :=
  parse_template_from (length repl) groups repl.

(** The text a match is replaced with; a group that took no part in the
    match stands for the empty string. *)
Definition expand (tpl : list titem) (s : str) (m : rmatch) : str :=
  flat_map (fun it => match it with
                      | TLit c => [c]
                      | TGrp i => default [] (group s m i)
                      end) tpl.

(** The subject [s] with every match replaced; [prev] is where the
    previous match ended. *)
Fixpoint splice (tpl : list titem) (s : str) (prev : nat) (ms : list rmatch)
  : str :=
  match ms with
  | [] => drop prev s
  | m :: ms' =>
      take (rm_start m - prev) (drop prev s) ++ expand tpl s m
        ++ splice tpl s (rm_end m) ms'
  end.

(** [re.sub(pattern, repl, s)] for a string [repl]. *)
Definition re_sub (r : regex) (repl : str) (s : str) : result str :=
  match parse_template (ngroups r) repl with
  | Err x => Err x
  | Ok tpl => Ok (splice tpl s 0 (re_finditer r s))
  end.

(** ** String methods *)

Fixpoint is_prefix (p s : str) : bool :=
  match p, s with
  | [], _ => true
  | a :: p', b :: s' => (a =? b) && is_prefix p' s'
  | _ :: _, [] => false
  end.

(** [s.replace(old, new)] for a non-empty [old]: the occurrences from left
    to right, without overlap ([skip] characters are inside the previous
    occurrence). *)
Fixpoint replace_from (old new : str) (skip : nat) (s : str) : str :=
  match s with
  | [] => []
  | c :: t =>
      match skip with
      | S skip' => replace_from old new skip' t
      | O => if is_prefix old s
             then new ++ replace_from old new (length old - 1) t
             else c :: replace_from old new 0 t
      end
  end.

Definition str_replace (old new s : str) : str :=
  match old with
  | [] => new ++ flat_map (fun c => c :: new) s
  | _ => replace_from old new 0 s
  end.

(** [s.split(sep)] for a separator of one character. *)
Fixpoint split (sep : char) (s : str) : list str :=
  match s with
  | [] => [[]]
  | c :: t =>
      if c =? sep then [] :: split sep t
      else match split sep t with
           | tok :: toks => (c :: tok) :: toks
           | [] => [[c]]
           end
  end.

(** [sep.join(tokens)]. *)
Fixpoint join (sep : char) (tokens : list str) : str :=
  match tokens with
  | [] => []
  | [tok] => tok
  | tok :: toks => tok ++ sep :: join sep toks
  end.

(** ** The patterns of [channel_message_to_zerver_message] *)

(** [^<(http:\/\/www\.|https:\/\/www\.|http:\/\/|https:\/\/)?
     [a-z0-9]+([\-\.]{1}[a-z0-9]+)*\.[a-z]{2,5}(:[0-9]{1,5})?
     (\/ .* )?(\|)?(?:\|([^>]+))?>$]
    (white space is of no account in [VERBOSE] mode). *)
Definition LINK_REGEX : regex :=
  cat [ Bol; Lit (chr "<");
        Opt (Grp 1 (alt (word "http://www.")
                        [word "https://www."; word "http://"; word "https://"]));
        Plus (OneOf [range "a" "z"; range "0" "9"]);
        Star (Grp 2 (cat [ Rep 1 (Some 1%nat) (OneOf [single "-"; single "."]);
                           Plus (OneOf [range "a" "z"; range "0" "9"]) ]));
        Lit (chr ".");
        Rep 2 (Some 5%nat) (OneOf [range "a" "z"]);
        Opt (Grp 3 (cat [ Lit (chr ":");
                          Rep 1 (Some 5%nat) (OneOf [range "0" "9"]) ]));
        Opt (Grp 4 (cat [ Lit (chr "/"); Star Any ]));
        Opt (Grp 5 (Lit (chr "|")));
        Opt (cat [ Lit (chr "|"); Grp 6 (Plus (NoneOf [single ">"])) ]);
        Lit (chr ">"); Eol ].

(** [[a-zA-Z0-9]] *)
Definition ALNUM_RANGES : list (char * char) :=
  [range "a" "z"; range "A" "Z"; range "0" "9"].
Definition ALNUM : regex := OneOf ALNUM_RANGES.

(** [(<@)([a-zA-Z0-9]+)(\|)?([a-zA-Z0-9]+)?(>)] *)
Definition SLACK_USERMENTION_REGEX : regex :=
  cat [ Grp 1 (word "<@");
        Grp 2 (Plus ALNUM);
        Opt (Grp 3 (Lit (chr "|")));
        Opt (Grp 4 (Plus ALNUM));
        Grp 5 (Lit (chr ">")) ].

(** [(^|[ -(]|[+-/]|[:-?]|\{|\[|\||\^)]: what a delimiter starts after. *)
Definition OPENING : regex :=
  alt Bol [ OneOf [range " " "("]; OneOf [range "+" "/"]; OneOf [range ":" "?"];
            Lit (chr "{"); Lit (chr "["); Lit (chr "|"); Lit (chr "^") ].

(** [($|[ -']|[+-/]|[:-?]|\}|\)|\]|\||\^)]: what a delimiter ends before. *)
Definition CLOSING : regex :=
  alt Eol [ OneOf [range " " "'"]; OneOf [range "+" "/"]; OneOf [range ":" "?"];
            Lit (chr "}"); Lit (chr ")"); Lit (chr "]"); Lit (chr "|");
            Lit (chr "^") ].

(** The shape the three formatting patterns share: group 1 the opening
    context, group 2 the delimiter, groups 3 and 4 the inner text (classes
    [inner] and [[!-}]]), group 5 the delimiter, group 6 the closing
    context. *)
Definition formatting (delim : char) (inner : list (char * char)) : regex :=
  cat [ Grp 1 OPENING;
        Grp 2 (Lit delim);
        Grp 3 (Star (OneOf inner));
        Grp 4 (Plus (OneOf [range "!" "}"]));
        Grp 5 (Lit delim);
        Grp 6 CLOSING ].

(** Inner classes [[ -)+-}—]] and [[ -~—]]. *)
Definition SLACK_STRIKETHROUGH_REGEX : regex :=
  formatting (chr "~") [range " " ")"; range "+" "}"; (EM_DASH, EM_DASH)].
Definition SLACK_ITALIC_REGEX : regex :=
  formatting (chr "_") [range " " "~"; (EM_DASH, EM_DASH)].
Definition SLACK_BOLD_REGEX : regex :=
  formatting (chr "*") [range " " "~"; (EM_DASH, EM_DASH)].

(** ** The user directory *)

(** An entry of [users.json], with the keys the conversion reads:
    [id], [name] (the short handle), [real_name] and [deleted]. *)
Record user := User {
  u_id : str;
  u_name : str;
  u_real_name : str;
  u_deleted : bool
}.

(** [user['deleted'] is False], then [user['real_name'] == '']. *)
Definition get_user_full_name (u : user) : str :=
  if negb (u_deleted u) then
    if bool_decide (u_real_name u = []) then u_name u else u_real_name u
  else u_name u.

(** ** The environment of the nested functions

    [get_user_mentions] and [convert_to_zulip_markdown] are closures: they
    read [users] (the list loaded from [users.json]) and [added_users] (the
    dictionary from Slack user ids to Zulip user ids) from the enclosing
    call.  Both are mutable Python objects, so a computation takes the
    environment and gives it back with its result or its exception. *)

Record env := Env {
  users : list user;
  added_users : gmap str Z
}.

Definition M (A : Type) : Type := env -> result A * env.

#[export] Instance M_ret : MRet M := fun A a e => (Ok a, e).
#[export] Instance M_bind : MBind M := fun A B f m e =>
  match m e with
  | (Ok a, e') => f a e'
  | (Err x, e') => (Err x, e')
  end.

Definition raise {A} (x : exn) : M A := fun e => (Err x, e).
Definition lift {A} (r : result A) : M A := fun e => (r, e).
Definition read_users : M (list user) := fun e => (Ok (users e), e).
(** [added_users[key]] *)
Definition added_users_at (key : option str) : M Z := fun e =>
  (match key with
   | Some k => match added_users e !! k with
               | Some v => Ok v
               | None => Err KeyError
               end
   | None => Err KeyError
   end, e).

(** ** [convert_markdown_syntax] *)

(** [match.group(1) + zulip_keyword + match.group(3) + match.group(4)
     + zulip_keyword + match.group(6)]; concatenating [None] is a
    [TypeError]. *)
Definition converted_token (s : str) (zulip_keyword : str) (m : rmatch)
  : result str :=
  match group s m 1, group s m 3, group s m 4, group s m 6 with
  | Some g1, Some g3, Some g4, Some g6 =>
      Ok (g1 ++ zulip_keyword ++ g3 ++ g4 ++ zulip_keyword ++ g6)
  | _, _, _, _ => Err TypeError
  end.

(** The body of the [for] loop: the matches [ms] are those of the text the
    function was called with ([s0]); every turn substitutes in the current
    [text]. *)
Fixpoint markdown_loop (regex_ : regex) (zulip_keyword : str) (s0 : str)
    (ms : list rmatch) (text : str) : result str :=
  match ms with
  | [] => Ok text
  | m :: ms' =>
      match converted_token s0 zulip_keyword m with
      | Err x => Err x
      | Ok tok =>
          match re_sub regex_ tok text with
          | Err x => Err x
          | Ok text' => markdown_loop regex_ zulip_keyword s0 ms' text'
          end
      end
  end.

Definition convert_markdown_syntax (text : str) (regex_ : regex)
    (zulip_keyword : str) : result str :=
  markdown_loop regex_ zulip_keyword text (re_finditer regex_ text) text.

(** ** [get_user_mentions] *)

(** The condition of the [if] inside the loop over [users]:
    [(user['id'] == slack_id and user['name'] == short_name and short_name)
     or (user['id'] == slack_id and short_name is None)]. *)
Definition mention_applies (slack_id short_name : option str) (u : user) : bool :=
  match short_name with
  | Some sn => bool_decide (Some (u_id u) = slack_id)
               && bool_decide (u_name u = sn)
               && negb (bool_decide (sn = []))
  | None => bool_decide (Some (u_id u) = slack_id)
  end.

(** The loop over [users].  [found] holds the local variables [mention] and
    [user_id], which are assigned together; [None] while they are unbound. *)
Fixpoint mentions_loop (slack_id short_name : option str) (us : list user)
    (found : option (str * Z)) : M (option (str * Z)) :=
  match us with
  | [] => mret found
  | u :: us' =>
      if mention_applies slack_id short_name u then
        let full_name := get_user_full_name u in
        user_id ← added_users_at slack_id;
        mentions_loop slack_id short_name us'
          (Some (py "@**" ++ full_name ++ py "** ", user_id))
      else mentions_loop slack_id short_name us' found
  end.

Definition get_user_mentions (token : str) : M (str * Z) :=
  match re_search SLACK_USERMENTION_REGEX token with
  | None => raise AttributeError
  | Some m =>
      let short_name := group token m 4 in
      let slack_id := group token m 2 in
      us ← read_users;
      found ← mentions_loop slack_id short_name us None;
      match found with
      | None => raise UnboundLocalError
      | Some (mention, user_id) =>
          token' ← lift (re_sub SLACK_USERMENTION_REGEX mention token);
          mret (token', user_id)
      end
  end.

(** ** [convert_to_zulip_markdown] *)

Definition EVERYONE : str := py "<!everyone>".
Definition ALL : str := py "@**all**".

(** [token.replace('<', '').replace('>', '')] *)
Definition strip_brackets (token : str) : str :=
  str_replace (py ">") [] (str_replace (py "<") [] token).

(** The loop [for iterator in range(len(tokens))], with [n] turns left and
    [iterator] the index of the turn; [tokens] is updated in place. *)
Fixpoint tokens_loop (n iterator : nat) (tokens : list str)
    (mentioned_users_id : list Z) (has_link : bool)
  : M (list str * list Z * bool) :=
  match n with
  | O => mret (tokens, mentioned_users_id, has_link)
  | S n' =>
      '(tokens, mentioned_users_id) ←
        match tokens !! iterator with
        | None => raise IndexError
        | Some token =>
            match re_match SLACK_USERMENTION_REGEX token with
            | Some _ =>
                '(token', user_id) ← get_user_mentions token;
                mret (<[iterator := token']> tokens, mentioned_users_id ++ [user_id])
            | None => mret (tokens, mentioned_users_id)
            end
        end;
      match tokens !! iterator with
      | None => raise IndexError
      | Some token =>
          match re_match LINK_REGEX token with
          | Some _ =>
              tokens_loop n' (S iterator)
                (<[iterator := strip_brackets token]> tokens)
                mentioned_users_id true
          | None =>
              tokens_loop n' (S iterator) tokens mentioned_users_id has_link
          end
      end
  end.

Definition convert_to_zulip_markdown (text : str) : M (str * list Z * bool) :=
  text ← lift (convert_markdown_syntax text SLACK_STRIKETHROUGH_REGEX (py "~~"));
  text ← lift (convert_markdown_syntax text SLACK_ITALIC_REGEX (py "*"));
  text ← lift (convert_markdown_syntax text SLACK_BOLD_REGEX (py "**"));
  let text := str_replace EVERYONE ALL text in
  let tokens := split SPACE text in
  '(tokens, mentioned_users_id, has_link) ←
    tokens_loop (length tokens) 0 tokens [] false;
  mret (join SPACE tokens, mentioned_users_id, has_link).

(** ** [float] of a string

    [float(s)] for a string [s], after [PyFloat_FromString] of CPython: the
    digits and the white space of Unicode are brought to ASCII, underscores
    between digits are dropped, white space at both ends is passed over, and
    what is left has to be a decimal number, an infinity or a NaN.  The
    value is the binary64 number nearest to the decimal number (ties to
    even), as a [spec_float] of the Standard Library. *)

(** The white space outside ASCII (Unicode 14.0). *)
Definition UNICODE_SPACES : list (char * char) :=
  [(133, 133); (160, 160); (5760, 5760); (8192, 8202); (8232, 8233);
   (8239, 8239); (8287, 8287); (12288, 12288)].

(** The decimal digits (category [Nd] of Unicode 14.0): every range is made
    of runs of the ten digits from 0 to 9. *)
Definition UNICODE_DIGITS : list (char * char) :=
  [(48, 57); (1632, 1641); (1776, 1785); (1984, 1993); (2406, 2415);
   (2534, 2543); (2662, 2671); (2790, 2799); (2918, 2927); (3046, 3055);
   (3174, 3183); (3302, 3311); (3430, 3439); (3558, 3567); (3664, 3673);
   (3792, 3801); (3872, 3881); (4160, 4169); (4240, 4249); (6112, 6121);
   (6160, 6169); (6470, 6479); (6608, 6617); (6784, 6793); (6800, 6809);
   (6992, 7001); (7088, 7097); (7232, 7241); (7248, 7257); (42528, 42537);
   (43216, 43225); (43264, 43273); (43472, 43481); (43504, 43513); (43600, 43609);
   (44016, 44025); (65296, 65305); (66720, 66729); (68912, 68921); (69734, 69743);
   (69872, 69881); (69942, 69951); (70096, 70105); (70384, 70393); (70736, 70745);
   (70864, 70873); (71248, 71257); (71360, 71369); (71472, 71481); (71904, 71913);
   (72016, 72025); (72784, 72793); (73040, 73049); (73120, 73129); (92768, 92777);
   (92864, 92873); (93008, 93017); (120782, 120831); (123200, 123209); (123632, 123641);
   (125264, 125273); (130032, 130041)].

(** [Py_UNICODE_TODECIMAL]: the digit that [c] stands for. *)
Definition unicode_decimal (c : char) : option N :=
  (fun r => (c - fst r) mod 10)
    <$> find (fun r => (fst r <=? c) && (c <=? snd r)) UNICODE_DIGITS.

(** What [_PyUnicode_TransformDecimalAndSpaceToASCII] does to a string
    that is not all ASCII: white space becomes a space and a decimal digit
    its ASCII digit; the string is cut after the first other character
    from 127 on, which becomes a question mark. *)
Fixpoint transform_decimal_and_space (s : str) : str :=
  match s with
  | [] => []
  | c :: t =>
      if c <? 127 then c :: transform_decimal_and_space t
      else if in_ranges UNICODE_SPACES c then SPACE :: transform_decimal_and_space t
      else match unicode_decimal c with
           | Some d => (chr "0" + d) :: transform_decimal_and_space t
           | None => [chr "?"]
           end
  end.

Definition decimal_and_space_to_ascii (s : str) : str :=
  if forallb (fun c => c <? 128) s then s else transform_decimal_and_space s.

(** The characters of a C string: those before the first NUL. *)
Fixpoint c_string (s : str) : str :=
  match s with
  | [] => []
  | c :: t => if c =? 0 then [] else c :: c_string t
  end.

(** The loop of [_Py_string_to_number_with_underscores]: an underscore is
    allowed after a digit and before a digit only; [prev] is the character
    before [s]. *)
Fixpoint drop_underscores (prev : char) (s : str) : option str :=
  match s with
  | [] => if prev =? chr "_" then None else Some []
  | c :: t =>
      if c =? chr "_" then
        if is_digit prev then drop_underscores c t else None
      else if (prev =? chr "_") && negb (is_digit c) then None
      else cons c <$> drop_underscores c t
  end.

(** [Py_ISSPACE] *)
Definition is_space (c : char) : bool := ((9 <=? c) && (c <=? 13)) || (c =? 32).

(** [Py_TOLOWER] *)
Definition to_lower (c : char) : char :=
  if (chr "A" <=? c) && (c <=? chr "Z") then c + 32 else c.

(** [case_insensitive_match]: what follows the word [t] at the head of
    [s], whatever the case of its letters. *)
Fixpoint case_insensitive_match (s t : str) : option str :=
  match t with
  | [] => Some s
  | a :: t' =>
      match s with
      | c :: s' => if to_lower c =? a then case_insensitive_match s' t' else None
      | [] => None
      end
  end.

(** An optional sign at the head of [s]: whether it is a minus, and what
    follows. *)
Definition sign_of (s : str) : bool * str :=
  match s with
  | c :: t => if c =? chr "-" then (true, t)
              else if c =? chr "+" then (false, t)
              else (false, s)
  | [] => (false, s)
  end.

(** The characters at the head of [s] for which [p] holds, and the rest. *)
Fixpoint span (p : char -> bool) (s : str) : str * str :=
  match s with
  | c :: t => if p c then let '(a, b) := span p t in (c :: a, b) else ([], s)
  | [] => ([], [])
  end.

(** [_Py_parse_inf_or_nan] *)
Definition parse_inf_or_nan (s : str) : option (spec_float * str) :=
  let '(negate, s1) := sign_of s in
  match case_insensitive_match s1 (py "inf") with
  | Some s2 =>
      match case_insensitive_match s2 (py "inity") with
      | Some s3 => Some (S754_infinity negate, s3)
      | None => Some (S754_infinity negate, s2)
      end
  | None =>
      match case_insensitive_match s1 (py "nan") with
      | Some s2 => Some (S754_nan, s2)
      | None => None
      end
  end.

Definition MAX_DIGITS : N := 1000000000.
Definition MAX_ABS_EXP : N := 1100000000.

(** The binary64 number nearest to [d * 10 ^ e], for a number [d] of
    [nd] decimal digits: ties go to the even mantissa, a number that is too
    large becomes an infinity and one that is too small a zero.  (A number
    of more than 400 digits before the point is too large, one with more
    than 400 zeros after it too small, whatever the digits.) *)
Definition decimal_to_double (sign : bool) (d : N) (nd : nat) (e : Z)
  : spec_float :=
  match d with
  | N0 => S754_zero sign
  | Npos p =>
      let magnitude := (Z.of_nat nd + e)%Z in
      if (400 <? magnitude)%Z then S754_infinity sign
      else if (magnitude <? -400)%Z then S754_zero sign
      else if (0 <=? e)%Z then
        binary_round 53 1024 sign (p * Z.to_pos (10 ^ e)) 0
      else
        SFdiv 53 1024 (S754_finite sign p 0)
              (S754_finite false (Z.to_pos (10 ^ (- e))) 0)
  end.

(** The exponent at the head of [s], if there is one with a digit, and
    what follows it. *)
Definition exponent_of (s : str) : Z * str :=
  match s with
  | c :: t =>
      if (c =? chr "e") || (c =? chr "E") then
        let '(esign, t1) := sign_of t in
        let '(zeros, t2) := span (N.eqb (chr "0")) t1 in
        let '(digits, t3) := span is_digit t2 in
        match zeros, digits with
        | [], [] => (0%Z, s)
        | _, _ =>
            let abs_exp :=
              if (9 <? length digits)%nat || (MAX_ABS_EXP <? number 10 digits)
              then MAX_ABS_EXP else number 10 digits in
            ((if esign then - Z.of_N abs_exp else Z.of_N abs_exp)%Z, t3)
        end
      else (0%Z, s)
  | [] => (0%Z, s)
  end.

(** [_Py_dg_strtod]: the number at the head of [s] and what follows it;
    [None] when there is no number there. *)
Definition dg_strtod (s : str) : option (spec_float * str) :=
  let '(sign, s1) := sign_of s in
  let '(zeros, s2) := span (N.eqb (chr "0")) s1 in
  let '(digits, s3) := span is_digit s2 in
  let '(zeros', digits', s4) :=
    match s3 with
    | c :: t =>
        if c =? chr "." then
          match digits with
          | [] => let '(z, t1) := span (N.eqb (chr "0")) t in
                  let '(d, t2) := span is_digit t1 in (z, d, t2)
          | _ => let '(d, t2) := span is_digit t in ([], d, t2)
          end
        else ([], [], s3)
    | [] => ([], [], s3)
    end in
  let lz := negb (bool_decide (zeros ++ zeros' = [])) in
  let ndigits := (length digits + length digits')%nat in
  let fraclen := (length zeros' + length digits')%nat in
  if (ndigits =? 0)%nat && negb lz then None
  else if (MAX_DIGITS <? N.of_nat ndigits) || (MAX_DIGITS <? N.of_nat fraclen)
  then None
  else
    let '(e, s5) := exponent_of s4 in
    Some (decimal_to_double sign (number 10 (digits ++ digits')) ndigits
                            (e - Z.of_nat fraclen), s5).

(** [_PyOS_ascii_strtod] *)
Definition ascii_strtod (s : str) : option (spec_float * str) :=
  match dg_strtod s with
  | Some r => Some r
  | None => parse_inf_or_nan s
  end.

(** [float_from_string_inner]: white space at both ends is passed over,
    and the number has to end where the white space at the end starts. *)
Definition float_from_string_inner (s : str) : result spec_float :=
  match snd (span is_space s) with
  | [] => Err ValueError
  | c :: t =>
      let trailing := length (fst (span is_space (rev (c :: t)))) in
      match ascii_strtod (c :: t) with
      | Some (x, rest) =>
          if (length rest =? trailing)%nat then Ok x else Err ValueError
      | None => Err ValueError
      end
  end.

(** [_Py_string_to_number_with_underscores] *)
Definition string_to_number_with_underscores (s : str) : result spec_float :=
  if negb (existsb (N.eqb (chr "_")) (c_string s)) then float_from_string_inner s
  else match drop_underscores 0 (c_string s) with
       | Some dup =>
           if (length (c_string s) =? length s)%nat
           then float_from_string_inner dup
           else Err ValueError
       | None => Err ValueError
       end.

(** [float(s)] *)
Definition float (s : str) : result spec_float :=
  string_to_number_with_underscores (decimal_and_space_to_ascii s).

(** [float(n)] for an integer [n]: the binary64 number nearest to [n]
    (ties to even); an [OverflowError] when that number is not finite. *)
Definition float_of_int (n : Z) : result spec_float :=
  match binary_normalize 53 1024 n 0 false with
  | S754_infinity _ => Err OverflowError
  | x => Ok x
  end.

(** ** The loop over the messages of a channel *)

(** A message of a channel's JSON files, with the keys the loop reads;
    ['text'] and ['ts'] are there in every message, and are strings. *)
Record slack_message := SlackMessage {
  msg_text : str;
  msg_subtype : option str;          (* [None]: no key ['subtype'] *)
  msg_user : option str;             (* [None]: no key ['user'] *)
  msg_file_user : option str;        (* [message['file']['user']], if there *)
  msg_ts : str;
  msg_has_image : option bool        (* [None]: no key ['has_image'] *)
}.

(** The record built for a message.  The keys whose value is always
    [None] ([edit_history], [rendered_content], [last_edit_time]) are left
    out. *)
Record zulip_message := ZulipMessage {
  zm_sending_client : Z;
  zm_rendered_content_version : Z;
  zm_has_image : bool;
  zm_subject : str;
  zm_pub_date : spec_float;
  zm_id : Z;
  zm_has_attachment : bool;
  zm_sender : Z;
  zm_content : str;
  zm_recipient : Z;
  zm_has_link : bool
}.

Record subscription := Subscription {
  sub_recipient : Z;
  sub_user_profile : Z
}.

Record usermessage := UserMessage {
  um_user_profile : Z;
  um_id : Z;
  um_flags_mask : Z;
  um_message : Z
}.

Definition SKIPPED_SUBTYPES : list str :=
  [py "channel_join"; py "channel_leave"; py "channel_name"].

(** [try: user = message.get('user', message['file']['user'])
     except KeyError: user = message['user']] *)
Definition sending_user (message : slack_message) : result str :=
  match msg_file_user message with
  | Some file_user => Ok (default file_user (msg_user message))
  | None => match msg_user message with
            | Some u => Ok u
            | None => Err KeyError
            end
  end.

(** The loop over [zerver_subscription] for one message. *)
Fixpoint usermessages_loop (subs : list subscription) (zulip_message : zulip_message)
    (mentioned_users_id : list Z) (usermessage_id : Z)
    (zerver_usermessage : list usermessage) : Z * list usermessage :=
  match subs with
  | [] => (usermessage_id, zerver_usermessage)
  | sub :: subs' =>
      if bool_decide (sub_recipient sub = zm_recipient zulip_message) then
        let flags_mask :=
          if bool_decide (sub_user_profile sub ∈ mentioned_users_id)
          then 9%Z else 1%Z in
        let um := UserMessage (sub_user_profile sub) usermessage_id flags_mask
                              (zm_id zulip_message) in
        usermessages_loop subs' zulip_message mentioned_users_id
          (usermessage_id + 1)%Z (zerver_usermessage ++ [um])
      else
        usermessages_loop subs' zulip_message mentioned_users_id
          usermessage_id zerver_usermessage
  end.

(** The loop state: [message_id], [usermessage_id], [zerver_message] and
    [zerver_usermessage]. *)
Definition loop_state : Type := Z * Z * list zulip_message * list usermessage.

(** One turn of [for message in messages].  The values of the record are
    computed in the order of the keyword arguments: [float(message['ts'])],
    then [added_users[user]], then [added_channels[channel]]. *)
Definition message_turn (channel : str) (added_channels : gmap str Z)
    (zerver_subscription : list subscription) (message : slack_message)
    (state : loop_state) : M loop_state :=
  let '(message_id, usermessage_id, zerver_message, zerver_usermessage) := state in
  '(content, mentioned_users_id, has_link) ←
    convert_to_zulip_markdown (msg_text message);
  if match msg_subtype message with
     | Some subtype => bool_decide (subtype ∈ SKIPPED_SUBTYPES)
     | None => false
     end
  then mret state                                      (* [continue] *)
  else
    user ← lift (sending_user message);
    pub_date ← lift (float (msg_ts message));
    sender ← added_users_at (Some user);
    match added_channels !! channel with
    | None => raise KeyError
    | Some recipient =>
        let zulip_message :=
          ZulipMessage 1 1 (default false (msg_has_image message)) channel
                       pub_date message_id false sender content
                       recipient has_link in
        let '(usermessage_id, zerver_usermessage) :=
          usermessages_loop zerver_subscription zulip_message
            mentioned_users_id usermessage_id zerver_usermessage in
        mret ((message_id + 1)%Z, usermessage_id,
              zerver_message ++ [zulip_message], zerver_usermessage)
    end.

Fixpoint messages_loop (channel : str) (added_channels : gmap str Z)
    (zerver_subscription : list subscription) (messages : list slack_message)
    (state : loop_state) : M loop_state :=
  match messages with
  | [] => mret state
  | message :: messages' =>
      state' ← message_turn channel added_channels zerver_subscription
                 message state;
      messages_loop channel added_channels zerver_subscription messages' state'
  end.

(** The loop [for json_name in json_names]: [files] are the contents of
    the channel's JSON files in the order of [os.listdir]. *)
Fixpoint files_loop (channel : str) (added_channels : gmap str Z)
    (zerver_subscription : list subscription) (files : list (list slack_message))
    (state : loop_state) : M loop_state :=
  match files with
  | [] => mret state
  | messages :: files' =>
      state' ← messages_loop channel added_channels zerver_subscription
                 messages state;
      files_loop channel added_channels zerver_subscription files' state'
  end.

(** [channel_message_to_zerver_message]; [users] of the environment is the
    content of [users.json]. *)
Definition channel_message_to_zerver_message (files : list (list slack_message))
    (channel : str) (added_channels : gmap str Z)
    (zerver_subscription : list subscription) (ids : Z * Z)
  : M (list zulip_message * list usermessage) :=
  let '(message_id, usermessage_id) := ids in
  '(_, _, zerver_message, zerver_usermessage) ←
    files_loop channel added_channels zerver_subscription files
      (message_id, usermessage_id, [], []);
  mret (zerver_message, zerver_usermessage).

(** * Vocabulary of the properties

    The definitions that the lemmas and theorems below are stated with. *)

(** The words a pattern can consume, whatever the context and the
    priorities: an over-approximation of what [exec] does, enough to tell
    which characters a match must contain. *)
Fixpoint lang (r : regex) (w : str) : Prop :=
  match r with
  | Eps | Bol | Eol => w = []
  | Lit c => w = [c]
  | Any => exists c, w = [c] /\ c <> NEWLINE
  | OneOf rs => exists c, w = [c] /\ in_ranges rs c = true
  | NoneOf rs => exists c, w = [c] /\ in_ranges rs c = false
  | Seq r1 r2 => exists u v, w = u ++ v /\ lang r1 u /\ lang r2 v
  | Alt r1 r2 => lang r1 w \/ lang r2 w
  | Rep _ _ r1 => exists ws, w = concat ws /\ Forall (lang r1) ws
  | Grp _ r1 => lang r1 w
  end.

(** [st'] is [st] after consuming [w]. *)
Definition consumed (st st' : mstate) (w : str) : Prop :=
  m_rest st = w ++ m_rest st' /\ m_pos st' = (m_pos st + length w)%nat.

(** What it means for a matcher to be sound for a set of words. *)
Definition sound_for (P : str -> Prop)
    (body : (mstate -> option mstate) -> mstate -> option mstate) : Prop :=
  forall k st res, body k st = Some res ->
    exists st' w, k st' = Some res /\ consumed st st' w /\ P w.

(** The pattern can match without consuming a character. *)
Fixpoint nullable (r : regex) : bool :=
  match r with
  | Eps | Bol | Eol => true
  | Lit _ | Any | OneOf _ | NoneOf _ => false
  | Seq r1 r2 => nullable r1 && nullable r2
  | Alt r1 r2 => nullable r1 || nullable r2
  | Rep lo _ r1 => match lo with O => true | S _ => nullable r1 end
  | Grp _ r1 => nullable r1
  end.

(** Every iteration of every repetition of the pattern consumes a
    character. *)
Fixpoint iterations_consume (r : regex) : bool :=
  match r with
  | Seq r1 r2 | Alt r1 r2 => iterations_consume r1 && iterations_consume r2
  | Rep _ _ r1 => negb (nullable r1) && iterations_consume r1
  | Grp _ r1 => iterations_consume r1
  | _ => true
  end.

(** Two continuations agree on the states with fewer than [n] characters
    left. *)
Definition agree (n : nat) (k1 k2 : mstate -> option mstate) : Prop :=
  forall st, (length (m_rest st) < n)%nat -> k1 st = k2 st.

(** The bound on what the continuation of a pattern gets when [n]
    characters are left. *)
Definition reach (null : bool) (n : nat) : nat := if null then S n else n.

(** The test [pattern.match(s)] of the loop over the tokens: whether the
    pattern matches at the start of [s]. *)
Definition matches (r : regex) (s : str) : bool :=
  match re_match r s with Some _ => true | None => false end.

(** [p] occurs in [s]. *)
Definition occurs (p s : str) : Prop := exists a b, s = a ++ p ++ b.

(** The same, as a test. *)
Fixpoint occursb (p s : str) : bool :=
  is_prefix p s || match s with
                   | [] => false
                   | _ :: t => occursb p t
                   end.

(** What the loop does to a token that is not a mention. *)
Definition unlink (token : str) : str :=
  if matches LINK_REGEX token then strip_brackets token else token.

(** The delimiters of the three formatting patterns. *)
Definition is_delimiter (c : char) : bool :=
  (c =? chr "~") || (c =? chr "_") || (c =? chr "*").

(** The text holds none of them. *)
Definition no_delimiters (text : str) : bool :=
  forallb (fun c => negb (is_delimiter c)) text.

(** A computation that gives the environment back as it got it. *)
Definition read_only {A} (m : M A) : Prop := forall e, snd (m e) = e.

(** No token of the text is a mention token or a link token. *)
Definition no_mention_tokens (text : str) : bool :=
  forallb (fun t => negb (matches SLACK_USERMENTION_REGEX t)) (split SPACE text).
Definition no_link_tokens (text : str) : bool :=
  forallb (fun t => negb (matches LINK_REGEX t)) (split SPACE text).

(** One turn of the loop on [token], in the environment [e]: the new
    token, the ids it adds, and whether it is a link. *)
Definition turn (e : env) (token : str) : result (str * list Z * bool) :=
  match re_match SLACK_USERMENTION_REGEX token with
  | Some _ =>
      match fst (get_user_mentions token e) with
      | Ok (token', user_id) =>
          Ok (unlink token', [user_id], matches LINK_REGEX token')
      | Err x => Err x
      end
  | None => Ok (unlink token, [], matches LINK_REGEX token)
  end.

(** The directory entry of the examples. *)
Definition BOB : user := User (py "U1") (py "bob") (py "Bob Smith") false.

(** The mention token of the examples. *)
Definition MENTION_BOB : str := py "<@U1|bob>".

(** The three formatting passes of [convert_to_zulip_markdown]. *)
Definition formatting_passes (text : str) : result str :=
  match convert_markdown_syntax text SLACK_STRIKETHROUGH_REGEX (py "~~") with
  | Err x => Err x
  | Ok text1 =>
      match convert_markdown_syntax text1 SLACK_ITALIC_REGEX (py "*") with
      | Err x => Err x
      | Ok text2 => convert_markdown_syntax text2 SLACK_BOLD_REGEX (py "**")
      end
  end.

(** What a turn gives for a token that is not a mention. *)
Definition plain_turn (token : str) : str * list Z * bool :=
  (unlink token, [], matches LINK_REGEX token).

(** The directory holds [BOB] and, after it, no entry with its id; the id
    dictionary maps its id to [user_id]. *)
Definition directory_with_bob (e : env) (user_id : Z) : Prop :=
  exists us1 us2,
    users e = us1 ++ BOB :: us2
    /\ forallb (fun u => negb (bool_decide (u_id u = py "U1"))) us2 = true
    /\ added_users e !! py "U1" = Some user_id.

(** Not empty, and letters and digits only. *)
Definition alnum (s : str) : bool :=
  negb (bool_decide (s = [])) && forallb (in_ranges ALNUM_RANGES) s.

(** The tokens [<@ID>] and [<@ID|handle>]. *)
Definition mention_token (slack_id : str) (handle : option str) : str :=
  py "<@" ++ slack_id
    ++ match handle with Some h => py "|" ++ h | None => [] end ++ py ">".

(** The pattern after the id: [(\|)?([a-zA-Z0-9]+)?(>)]. *)
Definition MENTION_TAIL : regex :=
  cat [ Opt (Grp 3 (Lit (chr "|"))); Opt (Grp 4 (Plus ALNUM)); Grp 5 (Lit (chr ">")) ].

(** The entry [u] is one that the mention [<@slack_id>] or
    [<@slack_id|handle>] resolves to. *)
Definition resolves (slack_id : str) (handle : option str) (u : user) : bool :=
  bool_decide (u_id u = slack_id)
  && match handle with
     | Some h => bool_decide (u_name u = h)
     | None => true
     end.

(** The values the list of mentioned users is compared with: Python
    integers (the Zulip ids of [added_users]) and Python strings (the Slack
    ids of the directory) are different values. *)
Inductive pyval :=
| PyInt (z : Z)
| PyStr (s : str).

(** The message Slack writes when a user joins a channel; the user it
    mentions is not in the directory of the example. *)
Definition JOIN_MESSAGE : slack_message :=
  SlackMessage (py "<@U9|ghost> has joined the channel")
               (Some (py "channel_join")) (Some (py "U9")) None
               (py "1512345678.000123") None.

(** The characters of [OPENING]. *)
Definition opening_char (c : char) : bool :=
  in_ranges [range " " "("; range "+" "/"; range ":" "?";
             single "{"; single "["; single "|"; single "^"] c.

(** [OPENING] without its first alternative. *)
Definition OPENING_CHAR : regex :=
  alt (OneOf [range " " "("])
      [ OneOf [range "+" "/"]; OneOf [range ":" "?"];
        Lit (chr "{"); Lit (chr "["); Lit (chr "|"); Lit (chr "^") ].

(** Some character of [s] other than the first is [delim] and follows a
    character of [OPENING]. *)
Fixpoint opens_after (delim : char) (s : str) : bool :=
  match s with
  | c :: ((x :: _) as t) => (opening_char c && (x =? delim)) || opens_after delim t
  | _ => false
  end.

(** The delimiter of the bold pattern. *)
Definition ASTERISK : char := chr "*".

(** The characters that come before an asterisk in [@**all**]. *)
Definition guard_char (c : char) : bool :=
  (c =? chr "@") || (c =? ASTERISK) || (c =? chr "l").

(** Every asterisk of [s] follows a guard character; [ok] tells whether
    the character before [s] is one. *)
Fixpoint guarded (ok : bool) (s : str) : bool :=
  match s with
  | [] => true
  | c :: t => (negb (c =? ASTERISK) || ok) && guarded (guard_char c) t
  end.

(** A directory entry whose display name ends with a full stop. *)
Definition BOB_JR : user := User (py "U1") (py "bobjr") (py "Bob Jr.") false.

(** * The import of users and channels

    The functions that build the tables of the Zulip realm from
    [users.json] and [channels.json], and the loop of [do_convert_data] over
    the channels. *)

(** ** [get_model_id] *)

(** A table of the Zulip database, as the list of the ids of its rows.
    [model.objects.all().last()] is the row with the greatest id (a query
    set without an ordering is ordered by the primary key), [None] for an
    empty table; a row is a true value. *)
Definition table := list Z.

Definition last_id (model : table) : option Z :=
  match model with
  | [] => None
  | id :: ids => Some (foldr Z.max id ids)
  end.

Definition get_model_id (model : table) : Z :=
  match last_id model with
  | Some id => (id + 1)%Z
  | None => 1%Z
  end.

(** The tables the conversion asks a fresh id of. *)
Record database := Database {
  db_userprofile : table;
  db_stream : table;
  db_subscription : table;
  db_defaultstream : table;
  db_realm : table
}.

(** ** [users_to_zerver_userprofile] *)

(** ['profile'] of an entry of [users.json]. *)
Record slack_profile := SlackProfile {
  p_email : option str;              (* [None]: no key ['email'] *)
  p_image_32 : str
}.

(** An entry of [users.json] with all the keys the import reads: those of
    the directory ([su_entry]), ['profile'], and the keys read with [get]. *)
Record slack_user := SlackUser {
  su_entry : user;
  su_profile : slack_profile;
  su_tz : option (option str);       (* [None]: no key; [Some None]: null *)
  su_is_admin : option bool;
  su_is_bot : option bool;
  su_is_owner : option bool
}.

(** A row of [zerver_userprofile].  The keys whose value is [None] for
    every user ([default_sending_stream], [default_events_register_stream],
    [tos_version], [bot_owner]) are left out. *)
Record userprofile := UserProfile {
  up_enable_desktop_notifications : bool;
  up_is_staff : bool;
  up_avatar_source : str;
  up_is_bot : bool;
  up_avatar_version : Z;
  up_default_desktop_notifications : bool;
  up_timezone : str;
  up_enable_offline_email_notifications : bool;
  up_user_permissions : list Z;
  up_is_mirror_dummy : bool;
  up_pointer : Z;
  up_is_realm_admin : bool;
  up_enter_sends : bool;
  up_bot_type : option Z;
  up_enable_stream_sounds : bool;
  up_is_api_super_user : bool;
  up_rate_limits : str;
  up_last_login : Z;
  up_default_all_public_streams : bool;
  up_full_name : str;
  up_twenty_four_hour_time : bool;
  up_groups : list Z;
  up_enable_online_push_notifications : bool;
  up_alert_words : str;
  up_short_name : str;
  up_enable_offline_push_notifications : bool;
  up_left_side_userlist : bool;
  up_enable_stream_desktop_notifications : bool;
  up_enable_digest_emails : bool;
  up_last_pointer_updater : str;
  up_email : str;
  up_date_joined : Z;
  up_last_reminder : Z;
  up_is_superuser : bool;
  up_tutorial_status : str;
  up_default_language : str;
  up_enable_sounds : bool;
  up_pm_content_in_desktop_notifications : bool;
  up_is_active : bool;
  up_onboarding_steps : str;
  up_emojiset : str;
  up_realm : Z;
  up_quota : Z;
  up_id : Z
}.

Definition DEFAULT_TIMEZONE : str := py "America/New_York".

(** [timezone = user.get("tz", _default_timezone)], then the default again
    if it [is None or '/' not in timezone]. *)
Definition timezone_of (user : slack_user) : str :=
  match default (Some DEFAULT_TIMEZONE) (su_tz user) with
  | None => DEFAULT_TIMEZONE
  | Some timezone =>
      if negb (bool_decide (chr "/" ∈ timezone)) then DEFAULT_TIMEZONE
      else timezone
  end.

Section Users.

(** [hashlib.sha256(s.encode()).hexdigest()], for a string that UTF-8 can
    encode. *)
Variable sha256_hexdigest : str -> str.

(** The email address: that of the profile, or one made of the digest of
    the real name and the domain. *)
Definition email_of (domain_name : str) (user : slack_user) : str :=
  match p_email (su_profile user) with
  | None => sha256_hexdigest (u_real_name (su_entry user))
              ++ py "@" ++ domain_name
  | Some email => email
  end.

(** The dictionary [userprofile] built for [user]. *)
Definition userprofile_of (realm_id timestamp : Z) (domain_name : str)
    (user : slack_user) (user_id_count : Z) : userprofile :=
  let profile := su_profile user in
  let DESKTOP_NOTIFICATION := true in
  let email := email_of domain_name user in
  let avatar_source :=
    if occursb (py "gravatar.com") (p_image_32 profile) then py "G" else py "U" in
  let timezone := timezone_of user in
  {| up_enable_desktop_notifications := DESKTOP_NOTIFICATION;
     up_is_staff := default false (su_is_admin user);
     up_avatar_source := avatar_source;
     up_is_bot := default false (su_is_bot user);
     up_avatar_version := 1;
     up_default_desktop_notifications := true;
     up_timezone := timezone;
     up_enable_offline_email_notifications := true;
     up_user_permissions := [];
     up_is_mirror_dummy := false;
     up_pointer := (-1);
     up_is_realm_admin := default false (su_is_owner user);
     up_enter_sends := true;
     up_bot_type := if default false (su_is_bot user) then Some 1%Z else None;
     up_enable_stream_sounds := false;
     up_is_api_super_user := false;
     up_rate_limits := [];
     up_last_login := timestamp;
     up_default_all_public_streams := false;
     up_full_name := get_user_full_name (su_entry user);
     up_twenty_four_hour_time := false;
     up_groups := [];
     up_enable_online_push_notifications := false;
     up_alert_words := py "[]";
     up_short_name := u_name (su_entry user);
     up_enable_offline_push_notifications := true;
     up_left_side_userlist := false;
     up_enable_stream_desktop_notifications := false;
     up_enable_digest_emails := true;
     up_last_pointer_updater := [];
     up_email := email;
     up_date_joined := timestamp;
     up_last_reminder := timestamp;
     up_is_superuser := false;
     up_tutorial_status := py "T";
     up_default_language := py "en";
     up_enable_sounds := true;
     up_pm_content_in_desktop_notifications := true;
     up_is_active := negb (u_deleted (su_entry user));
     up_onboarding_steps := py "[]";
     up_emojiset := py "google";
     up_realm := realm_id;
     up_quota := 1073741824;
     up_id := user_id_count |}.

(** The loop [for user in users], with its three variables. *)
Fixpoint users_loop (realm_id timestamp : Z) (domain_name : str)
    (users : list slack_user) (zerver_userprofile : list userprofile)
    (added_users : gmap str Z) (user_id_count : Z)
  : list userprofile * gmap str Z :=
  match users with
  | [] => (zerver_userprofile, added_users)
  | user :: users' =>
      let slack_user_id := u_id (su_entry user) in
      let userprofile :=
        userprofile_of realm_id timestamp domain_name user user_id_count in
      users_loop realm_id timestamp domain_name users'
        (zerver_userprofile ++ [userprofile])
        (<[slack_user_id := user_id_count]> added_users)
        (user_id_count + 1)%Z
  end.

(** [users] is the content of [users.json]. *)
Definition users_to_zerver_userprofile (db : database) (users : list slack_user)
    (realm_id timestamp : Z) (domain_name : str)
  : list userprofile * gmap str Z :=
  users_loop realm_id timestamp domain_name users [] ∅
    (get_model_id (db_userprofile db)).

End Users.

(** ** [channels_to_zerver_stream] *)

(** An entry of [channels.json]; [ch_topic] and [ch_purpose] are
    [channel["topic"]["value"]] and [channel["purpose"]["value"]],
    [ch_created] is an integer, a number of seconds. *)
Record slack_channel := SlackChannel {
  ch_name : str;
  ch_topic : str;
  ch_purpose : str;
  ch_is_archived : bool;
  ch_is_general : bool;
  ch_created : Z;
  ch_members : list str
}.

(** The rows of [zerver_stream], [zerver_defaultstream], [zerver_recipient]
    and [zerver_subscription]. *)
Record stream := Stream {
  st_realm : Z;
  st_name : str;
  st_deactivated : bool;
  st_description : str;
  st_invite_only : bool;
  st_date_created : spec_float;
  st_id : Z
}.

Record defaultstream := DefaultStream {
  ds_stream : Z;
  ds_realm : Z;
  ds_id : Z
}.

Record recipient := Recipient {
  rc_type_id : Z;
  rc_id : Z;
  rc_type : Z
}.

Record subscription_row := SubscriptionRow {
  sr_recipient : Z;
  sr_notifications : bool;
  sr_color : str;
  sr_desktop_notifications : bool;
  sr_pin_to_top : bool;
  sr_in_home_view : bool;
  sr_active : bool;
  sr_user_profile : Z;
  sr_id : Z
}.

(** The keys of a subscription that the loop over the messages reads. *)
Definition as_subscription (sub : subscription_row) : subscription :=
  Subscription (sr_recipient sub) (sr_user_profile sub).

Definition GENERAL : str := py "general".

(** The subscription rows share all but three keys. *)
Definition sub_row (recipient user_profile id : Z) : subscription_row :=
  SubscriptionRow recipient false (py "#c2c2c2") true false true true
                  user_profile id.

(** The loop [for member in channel['members']]; [added_users[member]]
    raises [KeyError] for a member that is not a key. *)
Fixpoint members_loop (added_users : gmap str Z) (stream_id_count : Z)
    (members : list str) (zerver_subscription : list subscription_row)
    (subscription_id_count : Z) : result (list subscription_row * Z) :=
  match members with
  | [] => Ok (zerver_subscription, subscription_id_count)
  | member :: members' =>
      match added_users !! member with
      | None => Err KeyError
      | Some user_profile =>
          let sub := sub_row stream_id_count user_profile subscription_id_count in
          members_loop added_users stream_id_count members'
            (zerver_subscription ++ [sub]) (subscription_id_count + 1)%Z
      end
  end.

(** The variables of the loop over the channels. *)
Record channels_state := ChannelsState {
  zerver_defaultstream : list defaultstream;
  zerver_stream : list stream;
  added_channels : gmap str Z;
  zerver_subscription : list subscription_row;
  zerver_recipient : list recipient;
  stream_id_count : Z;
  subscription_id_count : Z
}.

(** One turn of [for channel in channels]; [float(channel["created"])]
    raises [OverflowError] for an integer that is too large. *)
Definition channel_turn (db : database) (realm_id : Z) (added_users : gmap str Z)
    (channel : slack_channel) (s : channels_state) : result channels_state :=
  let description :=
    py "topic: " ++ ch_topic channel ++ [NEWLINE] ++ py "purpose: "
      ++ ch_purpose channel in
  match float_of_int (ch_created channel) with
  | Err x => Err x
  | Ok date_created =>
  let stream_ :=
    Stream realm_id (ch_name channel) (ch_is_archived channel) description
           (negb (ch_is_general channel)) date_created
           (stream_id_count s) in
  let zerver_defaultstream :=
    if bool_decide (ch_name channel = GENERAL) then
      zerver_defaultstream s
        ++ [DefaultStream (stream_id_count s) realm_id
                          (get_model_id (db_defaultstream db))]
    else zerver_defaultstream s in
  let zerver_stream := zerver_stream s ++ [stream_] in
  let added_channels := <[st_name stream_ := stream_id_count s]> (added_channels s) in
  let recipient_ := Recipient (stream_id_count s) (stream_id_count s) 2 in
  let zerver_recipient := zerver_recipient s ++ [recipient_] in
  match members_loop added_users (stream_id_count s) (ch_members channel)
          (zerver_subscription s) (subscription_id_count s) with
  | Err x => Err x
  | Ok (zerver_subscription, subscription_id_count) =>
      Ok (ChannelsState zerver_defaultstream zerver_stream added_channels
            zerver_subscription zerver_recipient
            (stream_id_count s + 1)%Z subscription_id_count)
  end
  end.

Fixpoint channels_loop (db : database) (realm_id : Z) (added_users : gmap str Z)
    (channels : list slack_channel) (s : channels_state) : result channels_state :=
  match channels with
  | [] => Ok s
  | channel :: channels' =>
      match channel_turn db realm_id added_users channel s with
      | Err x => Err x
      | Ok s' => channels_loop db realm_id added_users channels' s'
      end
  end.

(** The loop [for user in zerver_userprofile]: the recipient and the
    subscription of the private messages of every user. *)
Fixpoint personal_loop (zerver_userprofile : list userprofile)
    (zerver_subscription : list subscription_row)
    (zerver_recipient : list recipient)
    (recipient_id_count subscription_id_count : Z)
  : list subscription_row * list recipient :=
  match zerver_userprofile with
  | [] => (zerver_subscription, zerver_recipient)
  | user :: rest =>
      let zulip_user_id := up_id user in
      let recipient_ := Recipient zulip_user_id recipient_id_count 1 in
      let sub := sub_row recipient_id_count zulip_user_id subscription_id_count in
      personal_loop rest (zerver_subscription ++ [sub])
        (zerver_recipient ++ [recipient_])
        (recipient_id_count + 1)%Z (subscription_id_count + 1)%Z
  end.

(** What [channels_to_zerver_stream] returns. *)
Record channels_result := ChannelsResult {
  cr_defaultstream : list defaultstream;
  cr_stream : list stream;
  cr_added_channels : gmap str Z;
  cr_subscription : list subscription_row;
  cr_recipient : list recipient
}.

(** [channels] is the content of [channels.json]. *)
Definition channels_to_zerver_stream (db : database) (channels : list slack_channel)
    (realm_id : Z) (added_users : gmap str Z)
    (zerver_userprofile : list userprofile) : result channels_result :=
  match channels_loop db realm_id added_users channels
          (ChannelsState [] [] ∅ [] []
             (get_model_id (db_stream db)) (get_model_id (db_subscription db))) with
  | Err x => Err x
  | Ok s =>
      let recipient_id_count := (stream_id_count s + 1)%Z in
      let subscription_id_count := (subscription_id_count s + 1)%Z in
      let '(zerver_subscription, zerver_recipient) :=
        personal_loop zerver_userprofile (zerver_subscription s)
          (zerver_recipient s) recipient_id_count subscription_id_count in
      Ok (ChannelsResult (zerver_defaultstream s) (zerver_stream s)
            (added_channels s) zerver_subscription zerver_recipient)
  end.

(** ** The import of the messages in [do_convert_data] *)

(** The keys of a dictionary come in the order of their first insertion:
    the names of the channels, each once. *)
Fixpoint keys_in_order (seen names : list str) : list str :=
  match names with
  | [] => []
  | name :: names' =>
      if bool_decide (name ∈ seen) then keys_in_order seen names'
      else name :: keys_in_order (name :: seen) names'
  end.

(** The loop [for channel in added_channels.keys()].  [export] gives, for
    the name of a channel, the contents of the JSON files of its directory
    in the order of [os.listdir]. *)
Fixpoint import_loop (export : str -> list (list slack_message))
    (added_channels : gmap str Z) (zerver_subscription : list subscription)
    (channels : list str) (zerver_message : list zulip_message)
    (zerver_usermessage : list usermessage)
  : M (list zulip_message * list usermessage) :=
  match channels with
  | [] => mret (zerver_message, zerver_usermessage)
  | channel :: channels' =>
      let message_id := (Z.of_nat (length zerver_message) + 1)%Z in
      let usermessage_id := (Z.of_nat (length zerver_usermessage) + 1)%Z in
      '(zm, zum) ← channel_message_to_zerver_message (export channel) channel
                     added_channels zerver_subscription
                     (message_id, usermessage_id);
      import_loop export added_channels zerver_subscription channels'
        (zerver_message ++ zm) (zerver_usermessage ++ zum)
  end.

(** The tables that [do_convert_data] writes to [realm.json] and
    [messages-000001.json]. *)
Record converted_data := ConvertedData {
  cd_userprofile : list userprofile;
  cd_channels : channels_result;
  cd_message : list zulip_message;
  cd_usermessage : list usermessage
}.

Definition DOMAIN_NAME : str := py "zulipchat.com".

(** The conversion of the data in [do_convert_data], from the call of
    [users_to_zerver_userprofile] to the end of the loop over the channels:
    [users] and [channels] are the contents of [users.json] and
    [channels.json], [now] is [int(NOW)].  The files are read and written
    outside of this model (so are the check that the realm is new and the
    fixture of the realm). *)
Definition do_convert_data (sha256_hexdigest : str -> str) (db : database)
    (users : list slack_user) (channels : list slack_channel)
    (export : str -> list (list slack_message)) (now : Z)
  : result converted_data :=
  let REALM_ID := get_model_id (db_realm db) in
  let '(zerver_userprofile, added_users) :=
    users_to_zerver_userprofile sha256_hexdigest db users REALM_ID now
      DOMAIN_NAME in
  match channels_to_zerver_stream db channels REALM_ID added_users
          zerver_userprofile with
  | Err x => Err x
  | Ok fields =>
      let added_channels := cr_added_channels fields in
      match import_loop export added_channels
              (as_subscription <$> cr_subscription fields)
              (keys_in_order [] (ch_name <$> channels)) [] []
              (Env (su_entry <$> users) added_users) with
      | (Err x, _) => Err x
      | (Ok (zerver_message, zerver_usermessage), _) =>
          Ok (ConvertedData zerver_userprofile fields zerver_message
                zerver_usermessage)
      end
  end.

(** * Vocabulary of the further properties *)

(** ** Users and channels *)

(** The Zulip ids of the members of a channel, if all are known. *)
Definition member_ids (added_users : gmap str Z) (channel : slack_channel)
  : option (list Z) :=
  mapM (fun member => added_users !! member) (ch_members channel).

(** The subscribers of a recipient, in the order of the table. *)
Definition subscribers (recipient : Z) (subs : list subscription_row) : list Z :=
  sr_user_profile <$> filter (fun sub => sr_recipient sub = recipient) subs.



(** Two entries of [users.json]: an administrator with a gravatar and a
    time zone, and a user whose [tz] is null. *)
Definition ALICE_USER : slack_user :=
  SlackUser (User (py "U2") (py "alice") (py "Alice") false)
            (SlackProfile (Some (py "alice@example.com"))
                          (py "https://secure.gravatar.com/avatar/a.jpg"))
            (Some (Some (py "Europe/Paris"))) (Some true) None None.
Definition BOB_USER : slack_user :=
  SlackUser BOB (SlackProfile (Some (py "bob@example.com"))
                              (py "https://avatars.slack-edge.com/b.jpg"))
            (Some None) None None None.

(** Both entries have an email address, so that no digest is taken in the
    examples; this function stands for [hashlib.sha256] there. *)
Definition NO_DIGEST : str -> str := fun _ => [].

(** Tables that hold rows already, but for those of the default streams and
    of the realms. *)
Definition USED_DB : database := Database [4; 9; 2]%Z [3]%Z [10; 11]%Z [] [].

(** Two entries of [channels.json]. *)
Definition GENERAL_CHANNEL : slack_channel :=
  SlackChannel GENERAL (py "news") (py "everything") false true 1449252889
               [py "U2"; py "U1"].
Definition RANDOM_CHANNEL : slack_channel :=
  SlackChannel (py "random") [] (py "chat") false false 1449252890 [py "U1"].

(** The ids and the profiles of the two users. *)
Definition TWO_USERS : gmap str Z := {[ py "U2" := 10%Z; py "U1" := 11%Z ]}.
Definition TWO_PROFILES : list userprofile :=
  fst (users_to_zerver_userprofile NO_DIGEST USED_DB [ALICE_USER; BOB_USER] 1
         1512345678 DOMAIN_NAME).

(** The two channels, and what [channels_to_zerver_stream] makes of them
    (the dates are the floats 1449252889.0 and 1449252890.0). *)
Definition TWO_CHANNELS : list slack_channel := [GENERAL_CHANNEL; RANDOM_CHANNEL].

Definition TWO_CHANNELS_RESULT : channels_result :=
  ChannelsResult
    [DefaultStream 4 1 1]
    [Stream 1 GENERAL false (py "topic: news" ++ [NEWLINE] ++ py "purpose: everything")
            false (S754_finite false 6078607189344256 (-22)) 4;
     Stream 1 (py "random") false (py "topic: " ++ [NEWLINE] ++ py "purpose: chat")
            true (S754_finite false 6078607193538560 (-22)) 5]
    {[ GENERAL := 4%Z; py "random" := 5%Z ]}
    [sub_row 4 10 12; sub_row 4 11 13; sub_row 5 11 14;
     sub_row 7 10 16; sub_row 8 11 17]
    [Recipient 4 4 2; Recipient 5 5 2; Recipient 10 7 1; Recipient 11 8 1].

(** ** The messages of a channel *)

(** The message is one of those the loop passes over. *)
Definition skipped (message : slack_message) : bool :=
  match msg_subtype message with
  | Some subtype => bool_decide (subtype ∈ SKIPPED_SUBTYPES)
  | None => false
  end.

(** The message is not passed over. *)
Definition kept (message : slack_message) : Prop := skipped message = false.

#[export] Instance kept_dec message : Decision (kept message).
Proof. unfold kept. apply _. Defined.

(** The users that the text of the message mentions: the list that the
    conversion of the text returns. *)
Definition mentioned (e : env) (message : slack_message) : list Z :=
  match fst (convert_to_zulip_markdown (msg_text message) e) with
  | Ok (_, mentioned_users_id, _) => mentioned_users_id
  | Err _ => []
  end.

(** [z] is the row made for [message] of [channel]. *)
Definition imported (e : env) (channel : str) (added_channels : gmap str Z)
    (message : slack_message) (z : zulip_message) : Prop :=
  exists user,
    fst (convert_to_zulip_markdown (msg_text message) e)
    = Ok (zm_content z, mentioned e message, zm_has_link z)
    /\ sending_user message = Ok user
    /\ added_users e !! user = Some (zm_sender z)
    /\ added_channels !! channel = Some (zm_recipient z)
    /\ zm_subject z = channel
    /\ float (msg_ts message) = Ok (zm_pub_date z)
    /\ zm_has_image z = default false (msg_has_image message)
    /\ zm_has_attachment z = false.

(** The subscriptions to the recipient of a message. *)
Definition receivers (subs : list subscription) (z : zulip_message)
  : list subscription :=
  filter (fun sub => sub_recipient sub = zm_recipient z) subs.

(** Who gets a message: the id of the message with the id of every user
    subscribed to its recipient. *)
Definition deliveries (subs : list subscription) (z : zulip_message)
  : list (Z * Z) :=
  (fun sub => (zm_id z, sub_user_profile sub)) <$> receivers subs z.

(** [flags_mask]: read, or read and mentioned. *)
Definition flags_for (mentioned_users_id : list Z) (user_profile : Z) : Z :=
  if bool_decide (user_profile ∈ mentioned_users_id) then 9%Z else 1%Z.

(** The rows of [zerver_usermessage] made for a message. *)
Definition usermessages_for (subs : list subscription) (z : zulip_message)
    (mentioned_users_id : list Z) (usermessage_id : Z) : list usermessage :=
  imap (fun i sub =>
          UserMessage (sub_user_profile sub) (usermessage_id + Z.of_nat i)%Z
                      (flags_for mentioned_users_id (sub_user_profile sub))
                      (zm_id z))
       (receivers subs z).

(** What the loops add to their state for the messages [messages]. *)
Definition grows (e : env) (channel : str) (added_channels : gmap str Z)
    (subs : list subscription) (messages : list slack_message)
    (state state' : loop_state) : Prop :=
  let '(message_id, usermessage_id, zerver_message, zerver_usermessage) := state in
  exists zm zum,
    state' = ((message_id + Z.of_nat (length zm))%Z,
              (usermessage_id + Z.of_nat (length zum))%Z,
              zerver_message ++ zm, zerver_usermessage ++ zum)
    /\ zm_id <$> zm = seqZ message_id (Z.of_nat (length zm))
    /\ um_id <$> zum = seqZ usermessage_id (Z.of_nat (length zum))
    /\ Forall2 (imported e channel added_channels) (filter kept messages) zm
    /\ (fun um => (um_message um, um_user_profile um)) <$> zum
       = concat (deliveries subs <$> zm)
    /\ Forall (fun um =>
                 exists message z,
                   (message, z) ∈ zip (filter kept messages) zm
                   /\ um_message um = zm_id z
                   /\ um_flags_mask um
                      = flags_for (mentioned e message) (um_user_profile um)) zum.

(** The directory of the two users. *)
Definition TWO_USERS_ENV : env := Env [su_entry ALICE_USER; su_entry BOB_USER] TWO_USERS.

(** Three messages: one with a mention, one that is passed over, and an
    upload with a link. *)
Definition HELLO_MESSAGE : slack_message :=
  SlackMessage (py "hello <@U1|bob>") None (Some (py "U2")) None
               (py "1512345679.000200") None.
Definition LEAVE_MESSAGE : slack_message :=
  SlackMessage (py "bye") (Some (py "channel_leave")) (Some (py "U1")) None
               (py "1512345680.000300") None.
Definition PLAIN_MESSAGE : slack_message :=
  SlackMessage (py "see <https://zulip.org>") (Some (py "file_share")) None
               (Some (py "U1")) (py "1512345681.000400") (Some true).

(** The two files of the channel [general]. *)
Definition GENERAL_FILES : list (list slack_message) :=
  [[HELLO_MESSAGE; LEAVE_MESSAGE]; [PLAIN_MESSAGE]].

(** The subscriptions as [channel_message_to_zerver_message] reads them. *)
Definition TWO_CHANNELS_SUBSCRIPTIONS : list subscription :=
  as_subscription <$> cr_subscription TWO_CHANNELS_RESULT.

(** The rows of the channel [general] (the dates are the floats
    1512345679.0002 and 1512345681.0004). *)
Definition GENERAL_MESSAGES : list zulip_message :=
  [ZulipMessage 1 1 false GENERAL (S754_finite false 6343237530813255 (-22))
                1 false 10
                (py "hello @**Bob Smith** ") 4 false;
   ZulipMessage 1 1 true GENERAL (S754_finite false 6343237539202702 (-22))
                2 false 11
                (py "see https://zulip.org") 4 true].

Definition GENERAL_USERMESSAGES : list usermessage :=
  [UserMessage 10 1 1 1; UserMessage 11 2 9 1;
   UserMessage 10 3 1 2; UserMessage 11 4 1 2].

(** ** The converted data *)

(** What the loop over the channels adds to the two tables. *)
Definition imports (e : env) (export : str -> list (list slack_message))
    (ac : gmap str Z) (subs : list subscription) (channels : list str)
    (zm0 : list zulip_message) (zum0 : list usermessage)
    (zm : list zulip_message) (zum : list usermessage) : Prop :=
  exists zm1 zum1,
    zm = zm0 ++ zm1 /\ zum = zum0 ++ zum1
    /\ zm_id <$> zm1
       = seqZ (Z.of_nat (length zm0) + 1) (Z.of_nat (length zm1))
    /\ um_id <$> zum1
       = seqZ (Z.of_nat (length zum0) + 1) (Z.of_nat (length zum1))
    /\ Forall (fun z => zm_subject z ∈ channels
                        /\ ac !! zm_subject z = Some (zm_recipient z)) zm1
    /\ (fun um => (um_message um, um_user_profile um)) <$> zum1
       = concat (deliveries subs <$> zm1).

(** The channel that a name stands for: the last one of that name. *)
Definition channel_named (name : str) (channels : list slack_channel)
  : option slack_channel :=
  last (filter (fun channel => ch_name channel = name) channels).

(** The users a message of a channel is for: the members of the channel. *)
Definition audience (added_users : gmap str Z) (channels : list slack_channel)
    (z : zulip_message) : list Z :=
  default [] (channel_named (zm_subject z) channels ≫= member_ids added_users).

(** The example: the two users, the two channels and the messages of the
    channel [general]. *)
Definition EXPORT (channel : str) : list (list slack_message) :=
  if bool_decide (channel = GENERAL) then GENERAL_FILES else [].

(** What [do_convert_data] makes of the example. *)
Definition CONVERTED_DATA : converted_data :=
  ConvertedData TWO_PROFILES TWO_CHANNELS_RESULT GENERAL_MESSAGES
                GENERAL_USERMESSAGES.

(** ** The groups and the characters of a match *)

(** The groups that take part in every match of the pattern. *)
Fixpoint bound_groups (r : regex) : list nat :=
  match r with
  | Seq r1 r2 => bound_groups r1 ++ bound_groups r2
  | Grp i r1 => i :: bound_groups r1
  | _ => []
  end.

(** The numbers of the captured groups. *)
Definition captured (gs : list (nat * str)) : list nat := fst <$> gs.

(** Every character of what is left of the subject and of the captured
    groups satisfies [P]. *)
Definition clean (P : char -> bool) (st : mstate) : Prop :=
  forallb P (m_rest st) = true
  /\ Forall (fun g => forallb P (snd g) = true) (m_groups st).

(** No character of [s] is a backslash. *)
Definition no_backslash (s : str) : bool :=
  forallb (fun c => negb (c =? BACKSLASH)) s.

(** A match that has the four groups that a converted token is made of. *)
Definition convertible (s : str) (m : rmatch) : Prop :=
  is_Some (group s m 1) /\ is_Some (group s m 3)
  /\ is_Some (group s m 4) /\ is_Some (group s m 6).

(** ** The exceptions of the conversion *)

(** Some entry of the directory has no Zulip id. *)
Definition user_without_id (e : env) : Prop :=
  exists u, u ∈ users e /\ added_users e !! u_id u = None.

(** Some entry of the directory has a backslash in its display name. *)
Definition name_with_backslash (e : env) : Prop :=
  exists u, u ∈ users e /\ no_backslash (get_user_full_name u) = false.

(** The exceptions of a replacement template: an error of [re], or an
    [IndexError] for the name of a group that the pattern does not have. *)
Definition template_error (x : exn) : Prop := x = ReError \/ x = IndexError.

(** What an exception of the conversion tells. *)
Definition explained (text : str) (e : env) (x : exn) : Prop :=
  x = UnboundLocalError
  \/ (x = KeyError /\ user_without_id e)
  \/ (template_error x
      /\ (no_backslash text = false \/ name_with_backslash e)).

(** Any character but the backslash. *)
Definition plain_char (c : char) : bool := negb (c =? BACKSLASH).

(** A directory whose user has no Zulip id, a text with a bad escape
    between delimiters, one with a reference to a group by a name, and a
    mention of a user that is not in the directory. *)
Definition NO_IDS_ENV : env := Env [BOB] ∅.
Definition BAD_ESCAPE : str := py "_a" ++ [BACKSLASH] ++ py "q_".
Definition UNKNOWN_GROUP : str := py "_" ++ [BACKSLASH] ++ py "g<b>_".
Definition MENTION_GHOST : str := py "<@U9|ghost>".

(** Neither a backslash nor an opening angle bracket. *)
Definition prose_char (c : char) : bool :=
  negb (c =? BACKSLASH) && negb (c =? chr "<").

(** A text of such characters. *)
Definition prose (text : str) : bool := forallb prose_char text.

(** A text with words between delimiters and a closing angle bracket. *)
Definition A_PROSE : str := py "so ~this~ _is_ *it*, isn't it > that".

(** ** Links *)

(** The first character of [w], if there is one, is not an at sign. *)
Definition no_at_head (w : str) : Prop :=
  match w with
  | [] => True
  | c :: _ => c <> chr "@"
  end.

(** The link pattern after the opening angle bracket, up to the full stop
    before the top-level domain. *)
Definition LINK_HOST : regex :=
  cat [ Opt (Grp 1 (alt (word "http://www.")
                        [word "https://www."; word "http://"; word "https://"]));
        Plus (OneOf [range "a" "z"; range "0" "9"]);
        Star (Grp 2 (cat [ Rep 1 (Some 1%nat) (OneOf [single "-"; single "."]);
                           Plus (OneOf [range "a" "z"; range "0" "9"]) ]));
        Lit (chr ".") ].

(** A link with its text. *)
Definition A_LINK : str := py "<http://www.foo.com|www.foo.com>".

(** ** Words between delimiters *)

(** What a greedy repetition of a character class does on a run [w] of the
    class: the continuation gets the longest part of the run first, then
    the shorter ones, down to [lo] characters. *)
Fixpoint backtrack (k : mstate -> option mstate) (lo pos : nat) (w rest : str)
    (g : list (nat * str)) : option mstate :=
  let stop := match lo with
              | O => k (MState pos (w ++ rest) g)
              | S _ => None
              end in
  match w with
  | [] => stop
  | _ :: w' => match backtrack k (pred lo) (S pos) w' rest g with
               | Some res => Some res
               | None => stop
               end
  end.

(** [[!-}]], the class of group 4. *)
Definition VISIBLE : list (char * char) := [range "!" "}"].

(** The pattern from group 5 on, and from group 4 on. *)
Definition FORMATTING_END (delim : char) : regex :=
  cat [ Grp 5 (Lit delim); Grp 6 CLOSING ].
Definition FORMATTING_TAIL (delim : char) : regex :=
  Seq (Grp 4 (Plus (OneOf VISIBLE))) (FORMATTING_END delim).

(** The characters of group 4 in the strikethrough pattern, and in the
    italic and bold patterns. *)
Definition STRIKETHROUGH_INNER : list (char * char) :=
  [range " " ")"; range "+" "}"; (EM_DASH, EM_DASH)].
Definition ANY_INNER : list (char * char) := [range " " "~"; (EM_DASH, EM_DASH)].

(** [s] between two [delim]. *)
Definition between (delim : str) (s : str) : str := delim ++ s ++ delim.

(** A text with two struck words, and the two matches of the pattern. *)
Definition TWO_STRUCK : str := py "x ~a~ y ~b~ z".
Definition FIRST_STRUCK : rmatch :=
  RMatch 1 6 [(6%nat, py " "); (5%nat, py "~"); (4%nat, py "a");
              (3%nat, []); (2%nat, py "~"); (1%nat, py " ")].
Definition SECOND_STRUCK : rmatch :=
  RMatch 7 12 [(6%nat, py " "); (5%nat, py "~"); (4%nat, py "b");
               (3%nat, []); (2%nat, py "~"); (1%nat, py " ")].

(** ** The exceptions of the import *)



(** A channel with a member that is not in [users.json]. *)
Definition STRANGER_CHANNEL : slack_channel :=
  SlackChannel (py "dev") [] [] false false 1449252891 [py "U1"; py "U7"].


(** * Properties *)

(** ** What a match consumes *)

Lemma consumed_refl st : consumed st st [].
Proof. split; simpl; auto with arith. Qed.

Lemma consumed_trans st1 st2 st3 u v :
  consumed st1 st2 u -> consumed st2 st3 v -> consumed st1 st3 (u ++ v).
Proof.
  intros [H1 H2] [H3 H4]. split.
  - rewrite H1, H3. now rewrite <- app_assoc.
  - rewrite H4, H2, length_app. lia.
Qed.

(** One character of the class. *)
Lemma eat_sound p : sound_for (fun w => exists c, w = [c] /\ p c = true) (eat p).
Proof.
  intros k st res H. unfold eat in H.
  destruct (m_rest st) as [|c t] eqn:E; [discriminate|].
  destruct (p c) eqn:Hp; [|discriminate].
  exists (advance st), [c]. split; [exact H|]. split.
  - split; simpl; [now rewrite E | lia].
  - eauto.
Qed.

(** A repetition consumes a sequence of words of its body. *)
Lemma iterate_sound P body :
  sound_for P body ->
  forall fuel lo hi,
    sound_for (fun w => exists ws, w = concat ws /\ Forall P ws)
              (fun k => iterate body k fuel lo hi).
Proof.
  intros Hbody fuel. induction fuel as [|fuel IH]; intros lo hi k st res H.
  - simpl in H. destruct lo; [|discriminate].
    exists st, []. split; [exact H|]. split; [apply consumed_refl|].
    exists []. split; [reflexivity | constructor].
  - simpl in H.
    assert (Hstop : match lo with O => k st | S _ => None end = Some res ->
              exists st' w, k st' = Some res /\ consumed st st' w /\
                (exists ws, w = concat ws /\ Forall P ws)).
    { intros Hs. destruct lo; [|discriminate].
      exists st, []. split; [exact Hs|]. split; [apply consumed_refl|].
      exists []. split; [reflexivity | constructor]. }
    destruct (may_iterate hi); [|now apply Hstop].
    destruct (body (iterate body k fuel (pred lo) (pred <$> hi)) st) as [r1|] eqn:E;
      [|now apply Hstop].
    injection H as ->.
    apply Hbody in E as (st1 & u & E & Hc1 & Hu).
    apply IH in E as (st2 & v & E & Hc2 & (ws & -> & Hws)).
    exists st2, (u ++ concat ws). split; [exact E|]. split.
    + eapply consumed_trans; eauto.
    + exists (u :: ws). split; [reflexivity | now constructor].
Qed.

(** The matcher is sound: when [exec r k st] succeeds, the continuation
    accepted a state that [st] reaches by consuming a word of [r]. *)
Lemma exec_sound r : sound_for (lang r) (exec r).
Proof.
  induction r as [| | |c| |rs|rs|r1 IH1 r2 IH2|r1 IH1 r2 IH2|lo hi r1 IH1|i r1 IH1];
    intros k st res H; simpl in H.
  - exists st, []. split; [exact H|]. split; [apply consumed_refl | reflexivity].
  - destruct (m_pos st); [|discriminate].
    exists st, []. split; [exact H|]. split; [apply consumed_refl | reflexivity].
  - assert (k st = Some res) as Hk.
    { destruct (m_rest st) as [|c [|c' t]]; [exact H| |discriminate].
      destruct (c =? NEWLINE); [exact H | discriminate]. }
    exists st, []. split; [exact Hk|]. split; [apply consumed_refl | reflexivity].
  - apply eat_sound in H as (st' & w & Hk & Hc & (x & -> & Hx)).
    apply N.eqb_eq in Hx as <-. exists st', [c]. simpl. auto.
  - apply eat_sound in H as (st' & w & Hk & Hc & (x & -> & Hx)).
    exists st', [x]. split; [exact Hk|]. split; [exact Hc|].
    exists x. split; [reflexivity|].
    apply negb_true_iff, N.eqb_neq in Hx. exact Hx.
  - apply eat_sound in H as (st' & w & Hk & Hc & Hw). exists st', w. simpl. auto.
  - apply eat_sound in H as (st' & w & Hk & Hc & (x & -> & Hx)).
    exists st', [x]. split; [exact Hk|]. split; [exact Hc|].
    exists x. split; [reflexivity|]. now apply negb_true_iff in Hx.
  - apply IH1 in H as (st1 & u & H & Hc1 & Hu).
    apply IH2 in H as (st2 & v & H & Hc2 & Hv).
    exists st2, (u ++ v). split; [exact H|]. split.
    + eapply consumed_trans; eauto.
    + simpl. eauto.
  - destruct (exec r1 k st) as [res1|] eqn:E.
    + injection H as ->. apply IH1 in E as (st' & w & ? & ? & ?).
      exists st', w. simpl. auto.
    + apply IH2 in H as (st' & w & ? & ? & ?). exists st', w. simpl. auto.
  - apply (iterate_sound _ _ IH1) in H. exact H.
  - apply IH1 in H as (st1 & w & H & Hc & Hw).
    exists (capture i st st1), w. split; [exact H|]. split; [exact Hc | exact Hw].
Qed.

(** A successful attempt consumed a word of the pattern at the head of the
    subject. *)
Lemma attempt_sound r pos rest m :
  attempt r pos rest = Some m ->
  exists w rest', rest = w ++ rest' /\ lang r w /\
                  rm_start m = pos /\ rm_end m = (pos + length w)%nat.
Proof.
  unfold attempt. intros H.
  destruct (exec r Some (MState pos rest [])) as [st|] eqn:E; [|discriminate].
  injection H as <-.
  apply exec_sound in E as (st' & w & Hk & [Hc1 Hc2] & Hw).
  injection Hk as ->. simpl in *.
  exists w, (m_rest st). auto.
Qed.

(** ** The bound on the iterations *)

(** The five patterns: every iteration consumes a character, and no
    pattern matches the empty string. *)
Lemma patterns_consume :
  forallb (fun r => iterations_consume r && negb (nullable r))
          [LINK_REGEX; SLACK_USERMENTION_REGEX; SLACK_STRIKETHROUGH_REGEX;
           SLACK_ITALIC_REGEX; SLACK_BOLD_REGEX] = true.
Proof. reflexivity. Qed.

Lemma agree_le n m k1 k2 : (m <= n)%nat -> agree n k1 k2 -> agree m k1 k2.
Proof. intros Hle H st Hst. apply H. lia. Qed.

Lemma exec_fails r st : exec r (fun _ => None) st = None.
Proof.
  destruct (exec r (fun _ => None) st) as [res|] eqn:E; [|reflexivity].
  apply exec_sound in E as (st' & w & E & _). discriminate.
Qed.

Lemma eat_local p k1 k2 st :
  agree (length (m_rest st)) k1 k2 -> eat p k1 st = eat p k2 st.
Proof.
  intros H. unfold eat. destruct (m_rest st) as [|c rest] eqn:E; [reflexivity|].
  destruct (p c); [|reflexivity]. apply H. unfold advance. simpl. rewrite E. simpl. lia.
Qed.

(** A repetition whose body consumes a character: the continuation is
    only asked about states the body can reach, and any fuel that is at
    least the number of characters left gives the same result. *)
Lemma iterate_local body :
  (forall k1 k2 st, agree (length (m_rest st)) k1 k2 -> body k1 st = body k2 st) ->
  (forall k st, m_rest st = [] -> body k st = None) ->
  forall n st fuel1 fuel2 lo hi k1 k2,
    length (m_rest st) = n ->
    (n <= fuel1)%nat -> (n <= fuel2)%nat ->
    agree (reach (match lo with O => true | S _ => false end) n) k1 k2 ->
    iterate body k1 fuel1 lo hi st = iterate body k2 fuel2 lo hi st.
Proof.
  intros Hlocal Hempty n. induction n as [n IH] using lt_wf_ind.
  intros st fuel1 fuel2 lo hi k1 k2 Hn H1 H2 Hk.
  assert (Hstop : match lo with O => k1 st | S _ => None end
                  = match lo with O => k2 st | S _ => None end).
  { destruct lo; [|reflexivity]. apply Hk. simpl. lia. }
  assert (Hbody : forall f1 f2, (pred n <= f1)%nat -> (pred n <= f2)%nat ->
            body (iterate body k1 f1 (pred lo) (pred <$> hi)) st
            = body (iterate body k2 f2 (pred lo) (pred <$> hi)) st).
  { intros f1 f2 Hf1 Hf2. apply Hlocal. intros st' Hst'. rewrite Hn in Hst'.
    apply (IH (length (m_rest st'))); auto; try lia.
    eapply agree_le; [|exact Hk].
    unfold reach. destruct lo as [|[|lo]]; simpl; lia. }
  destruct fuel1 as [|f1], fuel2 as [|f2]; cbn [iterate].
  - exact Hstop.
  - assert (m_rest st = []) as Hnil by (destruct (m_rest st); [reflexivity | simpl in *; lia]).
    rewrite (Hempty _ st Hnil). destruct (may_iterate hi); exact Hstop.
  - assert (m_rest st = []) as Hnil by (destruct (m_rest st); [reflexivity | simpl in *; lia]).
    rewrite (Hempty _ st Hnil). destruct (may_iterate hi); exact Hstop.
  - destruct (may_iterate hi); [|exact Hstop].
    rewrite (Hbody f1 f2) by lia. now rewrite Hstop.
Qed.

(** The matcher asks the continuation only about states with at most as
    many characters left (fewer, unless the pattern is nullable), and a
    pattern that is not nullable fails at the end of the subject. *)
Lemma exec_local r :
  iterations_consume r = true ->
  (forall k1 k2 st,
      agree (reach (nullable r) (length (m_rest st))) k1 k2 ->
      exec r k1 st = exec r k2 st)
  /\ (nullable r = false -> forall k st, m_rest st = [] -> exec r k st = None).
Proof.
  induction r as [| | |c| |rs|rs|r1 IH1 r2 IH2|r1 IH1 r2 IH2|lo hi r1 IH1|i r1 IH1];
    cbn [iterations_consume nullable exec]; intros Hwf.
  - split; [|discriminate]. intros k1 k2 st H. apply H. simpl. lia.
  - split; [|discriminate]. intros k1 k2 st H. destruct (m_pos st); [|reflexivity].
    apply H. simpl. lia.
  - split; [|discriminate]. intros k1 k2 st H.
    assert (k1 st = k2 st) as -> by (apply H; simpl; lia). reflexivity.
  - split; [intros; now apply eat_local|]. intros _ k st E. unfold eat. now rewrite E.
  - split; [intros; now apply eat_local|]. intros _ k st E. unfold eat. now rewrite E.
  - split; [intros; now apply eat_local|]. intros _ k st E. unfold eat. now rewrite E.
  - split; [intros; now apply eat_local|]. intros _ k st E. unfold eat. now rewrite E.
  - apply andb_true_iff in Hwf as [Hwf1 Hwf2].
    destruct (IH1 Hwf1) as [L1 E1], (IH2 Hwf2) as [L2 E2]. split.
    + intros k1 k2 st H. apply L1. intros st' Hst'. apply L2.
      eapply agree_le; [|exact H]. unfold reach in *.
      destruct (nullable r1), (nullable r2); simpl in *; lia.
    + intros Hnull k st E. destruct (nullable r1) eqn:N1.
      * rewrite (L1 (exec r2 k) (fun _ => None) st); [apply exec_fails|].
        intros st' Hst'. unfold reach in Hst'. rewrite E in Hst'. simpl in Hst'.
        apply E2; [exact Hnull|]. destruct (m_rest st'); [reflexivity | simpl in *; lia].
      * now apply E1.
  - apply andb_true_iff in Hwf as [Hwf1 Hwf2].
    destruct (IH1 Hwf1) as [L1 E1], (IH2 Hwf2) as [L2 E2]. split.
    + intros k1 k2 st H.
      rewrite (L1 k1 k2 st), (L2 k1 k2 st); [reflexivity| |];
        (eapply agree_le; [|exact H]); unfold reach;
        destruct (nullable r1), (nullable r2); simpl; lia.
    + intros Hnull k st E. apply orb_false_iff in Hnull as [N1 N2].
      now rewrite (E1 N1 k st E), (E2 N2 k st E).
  - apply andb_true_iff in Hwf as [Hnull Hwf1]. apply negb_true_iff in Hnull.
    destruct (IH1 Hwf1) as [L1 E1]. rewrite Hnull in L1. split.
    + intros k1 k2 st H.
      apply (iterate_local (exec r1) L1 (E1 Hnull) (length (m_rest st))); auto.
      destruct lo; [exact H | now rewrite Hnull in H].
    + intros Hlo k st E. rewrite E. destruct lo; [discriminate | reflexivity].
  - destruct (IH1 Hwf) as [L1 E1]. split.
    + intros k1 k2 st H. apply L1. intros st' Hst'. apply H. exact Hst'.
    + intros Hnull k st E. now apply E1.
Qed.

(** The number of characters left is enough fuel for a repetition. *)
Lemma iterate_fuel_enough r lo hi k st fuel :
  iterations_consume (Rep lo hi r) = true ->
  (length (m_rest st) <= fuel)%nat ->
  iterate (exec r) k fuel lo hi st = exec (Rep lo hi r) k st.
Proof.
  cbn [iterations_consume exec]. intros Hwf Hfuel.
  apply andb_true_iff in Hwf as [Hnull Hwf]. apply negb_true_iff in Hnull.
  destruct (exec_local r Hwf) as [L E]. rewrite Hnull in L.
  apply (iterate_local (exec r) L (E Hnull) (length (m_rest st))); auto.
  intros st' _. reflexivity.
Qed.

(** ** What the patterns need *)

Lemma formatting_needs_delimiter delim inner w :
  lang (formatting delim inner) w -> In delim w.
Proof.
  unfold formatting. cbn [cat lang].
  intros (u & v & -> & _ & u2 & v2 & -> & -> & _).
  apply in_app_iff. right. now left.
Qed.

Lemma mention_starts_with_bracket w :
  lang SLACK_USERMENTION_REGEX w -> exists w', w = chr "<" :: w'.
Proof.
  unfold SLACK_USERMENTION_REGEX. cbn [cat lang word map list_ascii_of_string].
  intros (u & v & -> & (u1 & u2 & -> & -> & _) & _). simpl. eauto.
Qed.

Lemma link_starts_with_bracket w :
  lang LINK_REGEX w -> exists w', w = chr "<" :: w'.
Proof.
  unfold LINK_REGEX. cbn [cat lang].
  intros (u & v & -> & -> & u2 & v2 & -> & -> & _). simpl. eauto.
Qed.

(** A pattern that needs a character finds nothing in a subject without
    it. *)
Lemma attempt_needs r c pos rest :
  (forall w, lang r w -> In c w) -> ~ In c rest -> attempt r pos rest = None.
Proof.
  intros Hneeds Hnot. destruct (attempt r pos rest) as [m|] eqn:E; [|reflexivity].
  apply attempt_sound in E as (w & rest' & -> & Hw & _).
  exfalso. apply Hnot, in_app_iff. left. auto.
Qed.

Lemma scan_needs r c :
  (forall w, lang r w -> In c w) ->
  forall rest pos skip, ~ In c rest -> scan r pos skip rest = [].
Proof.
  intros Hneeds rest. induction rest as [|x rest IH]; intros pos skip Hnot.
  - simpl. destruct skip; [|reflexivity].
    now rewrite (attempt_needs r c pos [] Hneeds Hnot).
  - assert (~ In c rest) as Hnot' by (intros Hin; apply Hnot; now right).
    simpl. destruct skip.
    + rewrite (attempt_needs r c pos (x :: rest) Hneeds Hnot). now apply IH.
    + now apply IH.
Qed.

Lemma matches_mention_head tok :
  matches SLACK_USERMENTION_REGEX tok = true -> exists t, tok = chr "<" :: t.
Proof.
  unfold matches, re_match. intros H.
  destruct (attempt _ _ _) as [m|] eqn:E; [|discriminate].
  apply attempt_sound in E as (w & rest' & -> & Hw & _).
  apply mention_starts_with_bracket in Hw as (w' & ->). simpl. eauto.
Qed.

Lemma matches_link_head tok :
  matches LINK_REGEX tok = true -> exists t, tok = chr "<" :: t.
Proof.
  unfold matches, re_match. intros H.
  destruct (attempt _ _ _) as [m|] eqn:E; [|discriminate].
  apply attempt_sound in E as (w & rest' & -> & Hw & _).
  apply link_starts_with_bracket in Hw as (w' & ->). simpl. eauto.
Qed.

(** ** The formatting passes on a text without the delimiter *)

Lemma convert_markdown_syntax_without delim inner kw text :
  ~ In delim text ->
  convert_markdown_syntax text (formatting delim inner) kw = Ok text.
Proof.
  intros Hnot. unfold convert_markdown_syntax, re_finditer.
  rewrite (scan_needs _ delim (formatting_needs_delimiter delim inner) text 0 0 Hnot).
  reflexivity.
Qed.

(** ** [replace], [split] and [join] *)

Lemma is_prefix_spec p s : is_prefix p s = true <-> exists b, s = p ++ b.
Proof.
  revert s. induction p as [|a p IH]; intros s; simpl.
  - split; eauto.
  - destruct s as [|c s]; simpl.
    + split; [discriminate | intros (b & H); discriminate].
    + rewrite andb_true_iff, N.eqb_eq, IH. split.
      * intros (-> & b & ->). eauto.
      * intros (b & H). injection H as -> ->. eauto.
Qed.

Lemma occursb_spec p s : occursb p s = true <-> occurs p s.
Proof.
  induction s as [|c s IH]; simpl.
  - rewrite orb_false_r, is_prefix_spec. split.
    + intros (b & H). exists [], b. exact H.
    + intros (a & b & H). destruct a; [|discriminate]. eauto.
  - rewrite orb_true_iff, is_prefix_spec, IH. split.
    + intros [(b & H)|(a & b & H)].
      * exists [], b. exact H.
      * exists (c :: a), b. simpl. now rewrite H.
    + intros (a & b & H). destruct a as [|x a].
      * left. eauto.
      * right. injection H as -> ->. exists a, b. reflexivity.
Qed.

Lemma occursb_false p s : occursb p s = false <-> ~ occurs p s.
Proof. rewrite <- occursb_spec. destruct (occursb p s); intuition congruence. Qed.

Lemma replace_from_absent old new s :
  occursb old s = false -> replace_from old new 0 s = s.
Proof.
  induction s as [|c s IH]; [reflexivity|].
  cbn [occursb replace_from]. intros H. apply orb_false_iff in H as [H1 H2].
  rewrite H1. now rewrite IH.
Qed.

Lemma str_replace_absent old new s :
  old <> [] -> occursb old s = false -> str_replace old new s = s.
Proof.
  intros Hne H. destruct old; [congruence|]. now apply replace_from_absent.
Qed.

Lemma replace_from_skip old new w s :
  replace_from old new (length w) (w ++ s) = replace_from old new 0 s.
Proof.
  induction w as [|c w IH]; [reflexivity|]. simpl. exact IH.
Qed.

Lemma split_nonempty sep s : split sep s <> [].
Proof.
  destruct s as [|c s]; simpl; [discriminate|].
  destruct (c =? sep); [discriminate|]. destruct (split sep s); discriminate.
Qed.

Lemma join_cons sep tok toks :
  toks <> [] -> join sep (tok :: toks) = tok ++ sep :: join sep toks.
Proof. destruct toks; [congruence | reflexivity]. Qed.

(** Joining what was split gives the text back. *)
Lemma join_split sep s : join sep (split sep s) = s.
Proof.
  induction s as [|c s IH]; [reflexivity|].
  pose proof (split_nonempty sep s) as Hne.
  simpl. destruct (c =? sep) eqn:E.
  - apply N.eqb_eq in E as ->. rewrite join_cons by exact Hne. now rewrite IH.
  - destruct (split sep s) as [|tok toks] eqn:Es; [congruence|].
    destruct toks as [|tok' toks].
    + simpl in *. now rewrite IH.
    + rewrite join_cons by discriminate. rewrite join_cons in IH by discriminate.
      rewrite <- IH. reflexivity.
Qed.

(** ** The loop over the tokens *)

Lemma matches_false r s : matches r s = false <-> re_match r s = None.
Proof. unfold matches. destruct (re_match r s); split; congruence. Qed.

Lemma matches_true r s : matches r s = true <-> exists m, re_match r s = Some m.
Proof.
  unfold matches. destruct (re_match r s) as [m|]; split; eauto; try congruence.
  intros (m & H). discriminate.
Qed.

(** The loop on tokens none of which is a mention: every link token loses
    its brackets, and the link flag tells whether there was one. *)
Lemma tokens_loop_without_mentions todo :
  forall done_ ids has_link e,
    forallb (fun t => negb (matches SLACK_USERMENTION_REGEX t)) todo = true ->
    tokens_loop (length todo) (length done_) (done_ ++ todo) ids has_link e
    = (Ok (done_ ++ map unlink todo, ids,
           has_link || existsb (matches LINK_REGEX) todo), e).
Proof.
  induction todo as [|t todo IH]; intros done_ ids has_link e H.
  - simpl. now rewrite orb_false_r.
  - cbn [forallb] in H. apply andb_true_iff in H as [Ht H].
    apply negb_true_iff, matches_false in Ht.
    cbn [length tokens_loop]. unfold mbind, M_bind.
    rewrite (list_lookup_middle done_ todo t (length done_) eq_refl).
    rewrite Ht. unfold mret, M_ret.
    rewrite (list_lookup_middle done_ todo t (length done_) eq_refl).
    assert (Hins : forall x, <[length done_ := x]> (done_ ++ t :: todo)
                             = (done_ ++ [x]) ++ todo).
    { intros x. rewrite insert_app_r_alt by lia.
      rewrite Nat.sub_diag. simpl. now rewrite <- app_assoc. }
    assert (Hlen : forall x : str, S (length done_) = length (done_ ++ [x])).
    { intros x. rewrite length_app. simpl. lia. }
    cbn [map existsb]. unfold unlink at 1.
    destruct (re_match LINK_REGEX t) as [m|] eqn:El.
    + assert (matches LINK_REGEX t = true) as -> by (apply matches_true; eauto).
      rewrite Hins, (Hlen (strip_brackets t)), IH by exact H.
      rewrite <- app_assoc. simpl. now rewrite orb_true_r.
    + assert (matches LINK_REGEX t = false) as -> by now apply matches_false.
      replace (done_ ++ t :: todo) with ((done_ ++ [t]) ++ todo)
        by now rewrite <- app_assoc.
      rewrite (Hlen t), IH by exact H.
      rewrite <- app_assoc. reflexivity.
Qed.

(** ** Texts without formatting delimiters *)

Lemma no_delimiters_not_in text c :
  no_delimiters text = true -> is_delimiter c = true -> ~ In c text.
Proof.
  unfold no_delimiters. rewrite forallb_forall. intros H Hc Hin.
  apply H in Hin. rewrite Hc in Hin. discriminate.
Qed.

(** The three formatting passes leave such a text as it is. *)
Lemma formatting_passes_without text :
  no_delimiters text = true ->
  convert_markdown_syntax text SLACK_STRIKETHROUGH_REGEX (py "~~") = Ok text
  /\ convert_markdown_syntax text SLACK_ITALIC_REGEX (py "*") = Ok text
  /\ convert_markdown_syntax text SLACK_BOLD_REGEX (py "**") = Ok text.
Proof.
  intros H. repeat split; apply convert_markdown_syntax_without;
    apply (no_delimiters_not_in _ _ H); reflexivity.
Qed.

(** [convert_to_zulip_markdown] on a text without delimiters and without
    mention tokens (in the text after the replacement of [<!everyone>]). *)
Lemma convert_without_delimiters text e :
  no_delimiters text = true ->
  forallb (fun t => negb (matches SLACK_USERMENTION_REGEX t))
          (split SPACE (str_replace EVERYONE ALL text)) = true ->
  convert_to_zulip_markdown text e
  = (Ok (join SPACE (map unlink (split SPACE (str_replace EVERYONE ALL text))),
         [],
         existsb (matches LINK_REGEX) (split SPACE (str_replace EVERYONE ALL text))),
     e).
Proof.
  intros Hd Hm. destruct (formatting_passes_without text Hd) as (H1 & H2 & H3).
  unfold convert_to_zulip_markdown, mbind, M_bind, lift.
  rewrite H1, H2, H3.
  pose proof (tokens_loop_without_mentions _ [] [] false e Hm) as Hloop.
  cbn [length app orb] in Hloop. rewrite Hloop.
  reflexivity.
Qed.

Lemma unlink_not_link tokens :
  forallb (fun t => negb (matches LINK_REGEX t)) tokens = true ->
  map unlink tokens = tokens /\ existsb (matches LINK_REGEX) tokens = false.
Proof.
  induction tokens as [|t tokens IH]; [auto|].
  cbn [forallb map existsb]. intros H. apply andb_true_iff in H as [Ht H].
  apply negb_true_iff in Ht. destruct (IH H) as [-> ->].
  unfold unlink. now rewrite Ht.
Qed.

(** ** The environment is only read *)

Lemma read_only_ret {A} (a : A) : read_only (mret a).
Proof. intros e. reflexivity. Qed.

Lemma read_only_raise {A} x : read_only (@raise A x).
Proof. intros e. reflexivity. Qed.

Lemma read_only_lift {A} (r : result A) : read_only (lift r).
Proof. intros e. reflexivity. Qed.

Lemma read_only_read_users : read_only read_users.
Proof. intros e. reflexivity. Qed.

Lemma read_only_added_users_at key : read_only (added_users_at key).
Proof. intros e. reflexivity. Qed.

Lemma read_only_bind {A B} (m : M A) (f : A -> M B) :
  read_only m -> (forall a, read_only (f a)) -> read_only (m ≫= f).
Proof.
  intros Hm Hf e. unfold mbind, M_bind. specialize (Hm e).
  destruct (m e) as [[a|x] e']; simpl in Hm; subst e'; [apply Hf | reflexivity].
Qed.

Create HintDb read_only.
#[local] Hint Resolve read_only_ret read_only_raise read_only_lift
  read_only_read_users read_only_added_users_at : read_only.

Lemma read_only_mentions_loop slack_id short_name us :
  forall found, read_only (mentions_loop slack_id short_name us found).
Proof.
  induction us as [|u us IH]; intros found; cbn [mentions_loop].
  - auto with read_only.
  - destruct (mention_applies slack_id short_name u); [|apply IH].
    apply read_only_bind; [auto with read_only|]. intros user_id. apply IH.
Qed.

Lemma read_only_get_user_mentions token : read_only (get_user_mentions token).
Proof.
  unfold get_user_mentions.
  destruct (re_search SLACK_USERMENTION_REGEX token) as [m|]; [|auto with read_only].
  apply read_only_bind; [auto with read_only|]. intros us.
  apply read_only_bind; [apply read_only_mentions_loop|]. intros [[mention user_id]|].
  - apply read_only_bind; auto with read_only.
  - auto with read_only.
Qed.

Lemma read_only_tokens_loop n :
  forall iterator tokens ids has_link,
    read_only (tokens_loop n iterator tokens ids has_link).
Proof.
  induction n as [|n IH]; intros iterator tokens ids has_link; cbn [tokens_loop].
  - auto with read_only.
  - apply read_only_bind.
    + destruct (tokens !! iterator) as [token|]; [|auto with read_only].
      destruct (re_match SLACK_USERMENTION_REGEX token); [|auto with read_only].
      apply read_only_bind; [apply read_only_get_user_mentions|].
      intros [token' user_id]. auto with read_only.
    + intros [tokens' ids'].
      destruct (tokens' !! iterator) as [token|]; [|auto with read_only].
      destruct (re_match LINK_REGEX token); apply IH.
Qed.

(** The conversion gives the environment back as it got it, whether it
    returns or raises. *)
Lemma read_only_convert_to_zulip_markdown text :
  read_only (convert_to_zulip_markdown text).
Proof.
  unfold convert_to_zulip_markdown.
  do 3 (apply read_only_bind; [apply read_only_lift|]; intros ?).
  apply read_only_bind; [apply read_only_tokens_loop|].
  intros [[tokens ids] has_link]. auto with read_only.
Qed.

(** ** Replacing every occurrence *)

Section Replace.
Variables (h : char) (t new : str).
(** The first character of the text to replace occurs nowhere else in
    it, so two occurrences never overlap. *)
Hypothesis h_fresh : ~ In h t.
Let old := h :: t.

Lemma replace_from_at_occurrence b :
  replace_from old new 0 (old ++ b) = new ++ replace_from old new 0 b.
Proof.
  assert (is_prefix old (old ++ b) = true) as Hp
    by (apply is_prefix_spec; eauto).
  change (old ++ b) with (h :: t ++ b).
  cbn [replace_from]. change (h :: t ++ b) with (old ++ b). rewrite Hp.
  f_equal. replace (length old - 1)%nat with (length t) by (simpl; lia).
  apply replace_from_skip.
Qed.

(** An occurrence at the head of [a ++ old ++ b] lies within [a], unless
    [a] is empty. *)
Lemma occurrence_at_head a b rest :
  a ++ old ++ b = old ++ rest -> a = [] \/ exists a', a = old ++ a'.
Proof.
  intros H. apply app_eq_app in H as (l & [[-> _]|[Hold Hl]]).
  - right. eauto.
  - destruct a as [|x a]; [now left|]. right.
    injection Hold as -> Ht.
    destruct l as [|y l].
    + exists []. subst t. unfold old. now rewrite !app_nil_r.
    + exfalso. injection Hl as -> _. apply h_fresh. rewrite Ht.
      apply in_app_iff. right. now left.
Qed.

Lemma replace_from_around_occurrence a b :
  replace_from old new 0 (a ++ old ++ b)
  = replace_from old new 0 a ++ new ++ replace_from old new 0 b.
Proof.
  remember (length a) as n eqn:Hn. revert a Hn.
  induction n as [n IH] using lt_wf_ind. intros a Hn.
  destruct a as [|c a].
  - apply replace_from_at_occurrence.
  - destruct (is_prefix old ((c :: a) ++ old ++ b)) eqn:Hp.
    + apply is_prefix_spec in Hp as (rest & Hrest).
      destruct (occurrence_at_head _ _ _ Hrest) as [?|(a' & Ha)]; [discriminate|].
      rewrite Ha, <- app_assoc, !replace_from_at_occurrence.
      rewrite <- app_assoc. f_equal.
      apply (IH (length a')); [|reflexivity].
      rewrite Hn, Ha, length_app. simpl. lia.
    + assert (is_prefix old (c :: a) = false) as Hp'.
      { destruct (is_prefix old (c :: a)) eqn:E; [|reflexivity].
        apply is_prefix_spec in E as (x & E).
        assert (is_prefix old ((c :: a) ++ old ++ b) = true) as Hp2.
        { apply is_prefix_spec. exists (x ++ old ++ b).
          rewrite E. now rewrite <- app_assoc. }
        congruence. }
      change ((c :: a) ++ old ++ b) with (c :: a ++ old ++ b) in *.
      cbn [replace_from]. rewrite Hp, Hp'. cbn [app]. f_equal.
      apply (IH (length a)); [|reflexivity]. rewrite Hn. simpl. lia.
Qed.

(** The replacement is not empty and shares no character with the text
    to replace, so it cannot make a new occurrence. *)
Hypothesis new_nonempty : new <> [].
Hypothesis new_apart : forall c, In c new -> ~ In c old.

Lemma replace_from_keeps_prefix p :
  (forall c, In c p -> ~ In c new) ->
  forall s rest, replace_from old new 0 s = p ++ rest -> exists s', s = p ++ s'.
Proof.
  induction p as [|x p IH]; intros Hp s rest H; [eauto|].
  destruct s as [|c s]; [discriminate|].
  cbn [replace_from] in H. destruct (is_prefix old (c :: s)).
  - exfalso. destruct new as [|n0 new']; [congruence|].
    injection H as -> _. apply (Hp x); now left.
  - injection H as -> H. apply IH in H as (s' & ->).
    + eauto.
    + intros c Hc. apply Hp. now right.
Qed.

Lemma replace_from_leaves_none s :
  occursb old (replace_from old new 0 s) = false.
Proof.
  remember (length s) as n eqn:Hn. revert s Hn.
  induction n as [n IH] using lt_wf_ind. intros s Hn.
  destruct s as [|c s]; [reflexivity|].
  cbn [replace_from]. destruct (is_prefix old (c :: s)) eqn:Hp.
  - apply is_prefix_spec in Hp as (rest & Hrest).
    injection Hrest as -> ->.
    replace (length old - 1)%nat with (length t) by (simpl; lia).
    rewrite replace_from_skip.
    assert (occursb old (replace_from old new 0 rest) = false) as Hrec.
    { apply (IH (length rest)); [|reflexivity].
      rewrite Hn. simpl. rewrite length_app. lia. }
    revert Hrec. generalize (replace_from old new 0 rest) as out.
    intros out Hout.
    assert (forall pre, (forall c, In c pre -> In c new) ->
                        occursb old (pre ++ out) = false) as Hpre.
    { induction pre as [|x pre IHpre]; intros Hin; [exact Hout|].
      cbn [app occursb]. rewrite IHpre by (intros; apply Hin; now right).
      rewrite orb_false_r. unfold old. cbn [is_prefix].
      destruct (h =? x) eqn:E; [|reflexivity].
      apply N.eqb_eq in E as <-. exfalso.
      apply (new_apart h); [apply Hin|]; now left. }
    apply Hpre. auto.
  - cbn [occursb]. apply orb_false_iff. split.
    + destruct (is_prefix old (c :: replace_from old new 0 s)) eqn:E; [|reflexivity].
      exfalso. apply is_prefix_spec in E as (rest & E).
      injection E as -> E.
      apply replace_from_keeps_prefix in E as (s' & ->).
      * assert (is_prefix old (h :: t ++ s') = true) as Hp2
          by (apply is_prefix_spec; eauto).
        congruence.
      * intros c Hc Hn'. apply (new_apart c Hn'). now right.
    + apply (IH (length s)); [|reflexivity]. rewrite Hn. simpl. lia.
Qed.
End Replace.

(** The two facts for [<!everyone>] and [@**all**]. *)
Lemma str_replace_everyone_around a b :
  str_replace EVERYONE ALL (a ++ EVERYONE ++ b)
  = str_replace EVERYONE ALL a ++ ALL ++ str_replace EVERYONE ALL b.
Proof.
  apply (replace_from_around_occurrence (chr "<") (py "!everyone>")).
  vm_compute. intuition discriminate.
Qed.

Lemma str_replace_everyone_leaves_none s :
  occursb EVERYONE (str_replace EVERYONE ALL s) = false.
Proof.
  apply (replace_from_leaves_none (chr "<") (py "!everyone>")).
  - vm_compute. discriminate.
  - intros c Hnew Hold. vm_compute in Hnew, Hold. intuition congruence.
Qed.

(** ** Tokens *)

Lemma str_replace_char_empty c s :
  str_replace [c] [] s = List.filter (fun x => negb (c =? x)) s.
Proof.
  unfold str_replace. induction s as [|x s IH]; [reflexivity|].
  cbn [replace_from is_prefix List.filter length Nat.sub app].
  rewrite andb_true_r. destruct (c =? x); simpl; now rewrite IH.
Qed.

Lemma strip_brackets_subset token c :
  In c (strip_brackets token) -> In c token /\ c <> chr "<".
Proof.
  unfold strip_brackets.
  change (py ">") with [chr ">"]. change (py "<") with [chr "<"].
  rewrite !str_replace_char_empty. intros H.
  apply filter_In in H as [H _]. apply filter_In in H as [H Hc].
  split; [exact H|]. apply negb_true_iff, N.eqb_neq in Hc. congruence.
Qed.

Lemma split_head sep s :
  exists tok toks, split sep s = tok :: toks /\ ~ In sep tok /\ exists b, s = tok ++ b.
Proof.
  induction s as [|c s (tok & toks & Hs & Hsep & b & Hb)].
  - exists [], []. repeat split; [auto|]. now exists [].
  - cbn [split]. destruct (c =? sep) eqn:E.
    + exists [], (split sep s). repeat split; [auto|]. now exists (c :: s).
    + rewrite Hs. exists (c :: tok), toks. repeat split.
      * apply N.eqb_neq in E. intros [?|?]; [congruence | contradiction].
      * exists b. simpl. now rewrite <- Hb.
Qed.

(** Every token is free of the separator and a part of the text. *)
Lemma split_tokens sep s :
  Forall (fun tok => ~ In sep tok /\ exists a b, s = a ++ tok ++ b) (split sep s).
Proof.
  induction s as [|c s IH].
  - constructor; [|constructor]. split; [auto|]. now exists [], [].
  - assert (Hlift : forall toks,
      Forall (fun tok => ~ In sep tok /\ exists a b, s = a ++ tok ++ b) toks ->
      Forall (fun tok => ~ In sep tok /\ exists a b, c :: s = a ++ tok ++ b) toks).
    { intros toks H. eapply Forall_impl; [exact H|]. intros tok (Hs & a & b & ->).
      split; [exact Hs|]. now exists (c :: a), b. }
    cbn [split]. destruct (c =? sep) eqn:E.
    + constructor; [|now apply Hlift].
      split; [auto|]. now exists [], (c :: s).
    + destruct (split_head sep s) as (tok & toks & Hs & Hsep & b & Hb).
      rewrite Hs in *. apply Forall_cons_iff in IH as [_ Htoks].
      constructor; [|now apply Hlift].
      split.
      * apply N.eqb_neq in E. intros [?|?]; [congruence | contradiction].
      * exists [], b. simpl. now rewrite <- Hb.
Qed.

(** Splitting what was joined gives the tokens back, when none of them
    holds the separator. *)
Lemma split_join sep tokens :
  tokens <> [] -> Forall (fun tok => ~ In sep tok) tokens ->
  split sep (join sep tokens) = tokens.
Proof.
  induction tokens as [|tok tokens IH]; [congruence|].
  intros _ H. inversion H as [|? ? Htok Htokens]; subst.
  assert (Hword : forall rest toks, split sep rest = toks ->
            split sep (tok ++ rest) =
            match toks with t0 :: ts => (tok ++ t0) :: ts | [] => [tok] end).
  { intros rest toks <-. clear -Htok. induction tok as [|c tok IHt].
    - simpl. destruct (split_head sep rest) as (t0 & ts & -> & _). reflexivity.
    - cbn [app split]. destruct (c =? sep) eqn:E.
      + apply N.eqb_eq in E as ->. exfalso. apply Htok. now left.
      + rewrite IHt by (intros Hin; apply Htok; now right).
        destruct (split sep rest); reflexivity. }
  destruct tokens as [|tok' tokens].
  - simpl. rewrite <- (app_nil_r tok) at 1. rewrite (Hword [] [[]] eq_refl).
    now rewrite app_nil_r.
  - rewrite join_cons by discriminate.
    rewrite (Hword _ ([] :: tok' :: tokens)).
    + now rewrite app_nil_r.
    + cbn [split]. rewrite N.eqb_refl. f_equal. apply IH; [discriminate | exact Htokens].
Qed.

Lemma in_join sep tokens c :
  In c (join sep tokens) -> c = sep \/ exists tok, In tok tokens /\ In c tok.
Proof.
  induction tokens as [|tok tokens IH]; [contradiction|].
  destruct tokens as [|tok' tokens].
  - simpl. intros H. right. exists tok. auto.
  - rewrite join_cons by discriminate. intros H.
    apply in_app_iff in H as [H|[H|H]].
    + right. exists tok. split; [now left | exact H].
    + now left.
    + destruct (IH H) as [?|(t & Ht & Hc)]; [now left|].
      right. exists t. split; [now right | exact Hc].
Qed.

(** An occurrence of a text without the separator lies within one token. *)
Lemma occurs_app_sep p a sep b :
  p <> [] -> ~ In sep p -> occurs p (a ++ sep :: b) -> occurs p a \/ occurs p b.
Proof.
  intros Hne Hsep (x & y & H).
  apply app_eq_app in H as (l & [[Ha Hl]|[Hx Hl]]).
  - (* the occurrence starts inside [a] *)
    apply app_eq_app in Hl as (l2 & [[Hp H2]|[Hl' H2]]).
    + destruct l2 as [|z l2].
      * left. exists x, []. rewrite Ha, Hp. now rewrite !app_nil_r.
      * exfalso. injection H2 as <- _. apply Hsep. rewrite Hp.
        apply in_app_iff. right. now left.
    + left. exists x, l2. rewrite Ha, Hl'. reflexivity.
  - destruct l as [|z l].
    + exfalso. destruct p as [|p0 p]; [congruence|].
      injection Hl as <- _. apply Hsep. now left.
    + injection Hl as _ Hb. right. exists l, y. exact Hb.
Qed.

Lemma occurs_join p sep tokens :
  p <> [] -> ~ In sep p -> occurs p (join sep tokens) ->
  exists tok, In tok tokens /\ occurs p tok.
Proof.
  intros Hne Hsep. induction tokens as [|tok tokens IH].
  - intros (a & b & H). exfalso. destruct p; [congruence|].
    destruct a; discriminate.
  - destruct tokens as [|tok' tokens].
    + simpl. intros H. exists tok. auto.
    + rewrite join_cons by discriminate. intros H.
      apply occurs_app_sep in H as [H|H]; [| |exact Hne|exact Hsep].
      * exists tok. split; [now left | exact H].
      * destruct (IH H) as (t & Ht & Ho). exists t. split; [now right | exact Ho].
Qed.

(** ** Tokens that were links *)

(** What is known of a token after the link step, when it was not a
    mention. *)
Lemma unlink_plain token :
  ~ In SPACE token ->
  matches SLACK_USERMENTION_REGEX token = false ->
  ~ In SPACE (unlink token)
  /\ (forall c, In c (unlink token) -> In c token)
  /\ matches SLACK_USERMENTION_REGEX (unlink token) = false
  /\ matches LINK_REGEX (unlink token) = false
  /\ (occurs EVERYONE (unlink token) -> occurs EVERYONE token).
Proof.
  intros Hsp Hm. unfold unlink. destruct (matches LINK_REGEX token) eqn:El.
  - assert (~ In (chr "<") (strip_brackets token)) as Hlt.
    { intros H. apply strip_brackets_subset in H as [_ H]. congruence. }
    assert (forall r, (forall tok, matches r tok = true -> exists t, tok = chr "<" :: t) ->
                      matches r (strip_brackets token) = false) as Hno.
    { intros r Hr. destruct (matches r (strip_brackets token)) eqn:E; [|reflexivity].
      exfalso. apply Hr in E as (t & E). apply Hlt. rewrite E. now left. }
    repeat split.
    + intros H. now apply strip_brackets_subset in H as [H _].
    + intros c H. now apply strip_brackets_subset in H as [H _].
    + apply Hno, matches_mention_head.
    + apply Hno, matches_link_head.
    + intros (a & b & H). exfalso. apply Hlt. rewrite H.
      apply in_app_iff. right. now left.
  - auto.
Qed.

(** ** Resolving a mention *)

Lemma mentions_loop_none slack_id short_name us :
  forall found e,
    forallb (fun u => negb (mention_applies slack_id short_name u)) us = true ->
    mentions_loop slack_id short_name us found e = (Ok found, e).
Proof.
  induction us as [|u us IH]; intros found e H; [reflexivity|].
  cbn [forallb] in H. apply andb_true_iff in H as [Hu H].
  apply negb_true_iff in Hu. cbn [mentions_loop]. rewrite Hu. now apply IH.
Qed.

(** With the Zulip id of [slack_id] known, the last entry the condition
    holds for decides. *)
Lemma mentions_loop_last slack_id short_name us1 u us2 user_id :
  forall found e,
    added_users e !! slack_id = Some user_id ->
    mention_applies (Some slack_id) short_name u = true ->
    forallb (fun u' => negb (mention_applies (Some slack_id) short_name u')) us2 = true ->
    mentions_loop (Some slack_id) short_name (us1 ++ u :: us2) found e
    = (Ok (Some (py "@**" ++ get_user_full_name u ++ py "** ", user_id)), e).
Proof.
  intros found e Hid Hu Hus2. revert found.
  assert (Hat : added_users_at (Some slack_id) e = (Ok user_id, e))
    by (unfold added_users_at; now rewrite Hid).
  induction us1 as [|u1 us1 IH]; intros found.
  - cbn [app mentions_loop]. rewrite Hu. unfold mbind, M_bind. rewrite Hat.
    now apply mentions_loop_none.
  - cbn [app mentions_loop]. destruct (mention_applies (Some slack_id) short_name u1).
    + unfold mbind, M_bind. rewrite Hat. apply IH.
    + apply IH.
Qed.

(** ** The loop over the tokens, in general *)

(** One turn of the loop, with [done_] the tokens before the index and
    [t :: todo] the tokens from the index on. *)
Lemma tokens_loop_cons t todo done_ ids has_link e :
  tokens_loop (length (t :: todo)) (length done_) (done_ ++ t :: todo) ids has_link e
  = match turn e t with
    | Ok (t', ids', link) =>
        tokens_loop (length todo) (length (done_ ++ [t'])) ((done_ ++ [t']) ++ todo)
                    (ids ++ ids') (if link then true else has_link) e
    | Err x => (Err x, e)
    end.
Proof.
  assert (Hins : forall x, <[length done_ := x]> (done_ ++ t :: todo)
                           = (done_ ++ [x]) ++ todo).
  { intros x. rewrite insert_app_r_alt by lia.
    rewrite Nat.sub_diag. simpl. now rewrite <- app_assoc. }
  assert (Hlen : forall x : str, S (length done_) = length (done_ ++ [x])).
  { intros x. rewrite length_app. simpl. lia. }
  assert (Hlook : forall x, ((done_ ++ [x]) ++ todo) !! length done_ = Some x).
  { intros x. rewrite <- app_assoc. now apply list_lookup_middle. }
  cbn [length tokens_loop]. unfold mbind, M_bind, turn.
  rewrite (list_lookup_middle done_ todo t (length done_) eq_refl).
  destruct (re_match SLACK_USERMENTION_REGEX t) as [m|].
  - pose proof (read_only_get_user_mentions t e) as Hro.
    destruct (get_user_mentions t e) as [[[t' uid]|x] e']; simpl in Hro; subst e';
      [|reflexivity].
    cbn [fst]. unfold mret, M_ret. rewrite Hins, Hlook.
    unfold unlink, matches. destruct (re_match LINK_REGEX t') as [m'|].
    + assert (Hins2 : <[length done_ := strip_brackets t']> ((done_ ++ [t']) ++ todo)
                      = (done_ ++ [strip_brackets t']) ++ todo).
      { rewrite <- !app_assoc. rewrite insert_app_r_alt by lia.
        now rewrite Nat.sub_diag. }
      now rewrite Hins2, (Hlen (strip_brackets t')).
    + now rewrite (Hlen t').
  - unfold mret, M_ret.
    rewrite (list_lookup_middle done_ todo t (length done_) eq_refl).
    rewrite app_nil_r. unfold unlink, matches.
    destruct (re_match LINK_REGEX t) as [m'|].
    + now rewrite Hins, (Hlen (strip_brackets t)).
    + rewrite (Hlen t). now rewrite <- app_assoc.
Qed.

(** The loop when every turn succeeds. *)
Lemma tokens_loop_turns e todo outs :
  Forall2 (fun t out => turn e t = Ok out) todo outs ->
  forall done_ ids has_link,
    tokens_loop (length todo) (length done_) (done_ ++ todo) ids has_link e
    = (Ok (done_ ++ map (fun out => fst (fst out)) outs,
           ids ++ concat (map (fun out => snd (fst out)) outs),
           has_link || existsb snd outs), e).
Proof.
  induction 1 as [|t [[t' ids'] link] todo outs Ht _ IH]; intros done_ ids has_link.
  - simpl. now rewrite !app_nil_r, orb_false_r.
  - rewrite tokens_loop_cons, Ht, IH. cbn [map concat existsb fst snd].
    rewrite <- !app_assoc. destruct link, has_link; reflexivity.
Qed.

(** The loop stops with the exception of the first turn that raises. *)
Lemma tokens_loop_raises e todo1 outs t x todo2 :
  Forall2 (fun t out => turn e t = Ok out) todo1 outs ->
  turn e t = Err x ->
  forall done_ ids has_link,
    tokens_loop (length (todo1 ++ t :: todo2)) (length done_)
                (done_ ++ todo1 ++ t :: todo2) ids has_link e
    = (Err x, e).
Proof.
  intros H Ht. induction H as [|t1 [[t' ids'] link] todo1 outs Ht1 _ IH];
    intros done_ ids has_link.
  - cbn [app]. now rewrite tokens_loop_cons, Ht.
  - cbn [app]. now rewrite tokens_loop_cons, Ht1, IH.
Qed.

(** ** The mention of the examples *)

(** Evaluate a closed term in place. *)
Ltac evaluate t :=
  let v := eval vm_compute in t in
  let H := fresh in
  assert (t = v) as H by (vm_compute; reflexivity); rewrite H; clear H.

Lemma turn_plain e token :
  matches SLACK_USERMENTION_REGEX token = false ->
  turn e token = Ok (plain_turn token).
Proof. intros H. apply matches_false in H. unfold turn. now rewrite H. Qed.

Lemma turns_plain e tokens :
  forallb (fun t => negb (matches SLACK_USERMENTION_REGEX t)) tokens = true ->
  Forall2 (fun t out => turn e t = Ok out) tokens (map plain_turn tokens).
Proof.
  induction tokens as [|t tokens IH]; [constructor|].
  cbn [forallb map]. intros H. apply andb_true_iff in H as [Ht H].
  apply negb_true_iff in Ht. constructor; [now apply turn_plain | now apply IH].
Qed.

Lemma plain_turns_outputs tokens :
  map (fun out => fst (fst out)) (map plain_turn tokens) = map unlink tokens
  /\ concat (map (fun out => snd (fst out)) (map plain_turn tokens)) = []
  /\ existsb snd (map plain_turn tokens) = existsb (matches LINK_REGEX) tokens.
Proof.
  induction tokens as [|t tokens (IH1 & IH2 & IH3)]; [auto|].
  cbn [map concat existsb plain_turn fst snd app]. now rewrite IH1, IH2, IH3.
Qed.

Lemma get_user_mentions_bob e user_id :
  directory_with_bob e user_id ->
  get_user_mentions MENTION_BOB e = (Ok (py "@**Bob Smith** ", user_id), e).
Proof.
  intros (us1 & us2 & Hus & Hlater & Hid).
  unfold get_user_mentions.
  evaluate (re_search SLACK_USERMENTION_REGEX MENTION_BOB). cbv beta iota zeta.
  match goal with |- context [group ?s ?m 4] => evaluate (group s m 4) end.
  match goal with |- context [group ?s ?m 2] => evaluate (group s m 2) end.
  unfold mbind, M_bind, read_users. rewrite Hus.
  rewrite (mentions_loop_last _ _ us1 BOB us2 user_id None e Hid).
  - evaluate (py "@**" ++ get_user_full_name BOB ++ py "** ").
    unfold lift.
    match goal with |- context [re_sub ?r ?m ?t] => evaluate (re_sub r m t) end.
    reflexivity.
  - vm_compute. reflexivity.
  - rewrite forallb_forall in Hlater. apply forallb_forall. intros u Hu.
    specialize (Hlater u Hu). unfold mention_applies.
    apply negb_true_iff, bool_decide_eq_false in Hlater.
    rewrite (bool_decide_eq_false_2 (Some (u_id u) = Some [85; 49])); [reflexivity|].
    intros [= H]. now apply Hlater.
Qed.

Lemma turn_bob e user_id :
  directory_with_bob e user_id ->
  turn e MENTION_BOB = Ok (py "@**Bob Smith** ", [user_id], false).
Proof.
  intros H. unfold turn.
  evaluate (re_match SLACK_USERMENTION_REGEX MENTION_BOB). cbv beta iota.
  rewrite (get_user_mentions_bob e user_id H). cbn [fst].
  evaluate (unlink (py "@**Bob Smith** ")).
  evaluate (matches LINK_REGEX (py "@**Bob Smith** ")).
  reflexivity.
Qed.

(** ** The mention pattern on a well-formed mention token *)

(** A greedy repetition of a character class takes a whole run of the
    class when the continuation accepts what follows the run. *)
Lemma iterate_run p k rest g res :
  match rest with c :: _ => p c = false | [] => True end ->
  forall w fuel lo pos,
    forallb p w = true ->
    (lo <= length w)%nat -> (length w <= fuel)%nat ->
    k (MState (pos + length w) rest g) = Some res ->
    iterate (eat p) k fuel lo None (MState pos (w ++ rest) g) = Some res.
Proof.
  intros Hstop w. induction w as [|c w IH]; intros fuel lo pos Hw Hlo Hfuel Hk.
  - simpl in Hlo. assert (lo = 0%nat) as -> by lia.
    rewrite Nat.add_0_r in Hk. cbn [app].
    destruct fuel as [|fuel]; cbn [iterate may_iterate]; [exact Hk|].
    unfold eat at 1. cbn [m_rest].
    destruct rest as [|c rest]; [exact Hk|]. now rewrite Hstop.
  - cbn [forallb] in Hw. apply andb_true_iff in Hw as [Hc Hw].
    destruct fuel as [|fuel]; [simpl in Hfuel; lia|].
    cbn [iterate may_iterate fmap option_fmap option_map].
    unfold eat at 1. cbn [m_rest app]. rewrite Hc.
    unfold advance. cbn [m_pos m_rest m_groups tail].
    rewrite IH; [reflexivity|exact Hw| | |].
    + simpl in Hlo. lia.
    + simpl in Hfuel. lia.
    + rewrite <- Hk. f_equal. f_equal. simpl. lia.
Qed.

Lemma exec_plus_run rs k rest g res w pos :
  match rest with c :: _ => in_ranges rs c = false | [] => True end ->
  forallb (in_ranges rs) w = true -> w <> [] ->
  k (MState (pos + length w) rest g) = Some res ->
  exec (Plus (OneOf rs)) k (MState pos (w ++ rest) g) = Some res.
Proof.
  intros Hstop Hw Hne Hk. unfold Plus. cbn [exec m_rest].
  change (exec (OneOf rs)) with (eat (in_ranges rs)).
  apply iterate_run; auto.
  - destruct w; [congruence|]. simpl. lia.
  - rewrite length_app. lia.
Qed.

Lemma iterate_done body k fuel st : iterate body k fuel 0 (Some 0%nat) st = k st.
Proof. destruct fuel; reflexivity. Qed.

Lemma alnum_run s : alnum s = true -> forallb (in_ranges ALNUM_RANGES) s = true /\ s <> [].
Proof.
  unfold alnum. intros H. apply andb_true_iff in H as [H1 H2]. split; [exact H2|].
  apply negb_true_iff, bool_decide_eq_false in H1. exact H1.
Qed.

(** The matcher does not tell continuations with the same values apart. *)
Lemma iterate_ext body k1 k2 :
  (forall k k', (forall st, k st = k' st) -> forall st, body k st = body k' st) ->
  (forall st, k1 st = k2 st) ->
  forall fuel lo hi st, iterate body k1 fuel lo hi st = iterate body k2 fuel lo hi st.
Proof.
  intros Hbody Hk fuel. induction fuel as [|fuel IH]; intros lo hi st.
  - simpl. now rewrite Hk.
  - cbn [iterate]. rewrite Hk.
    rewrite (Hbody _ _ (IH (pred lo) (pred <$> hi)) st). reflexivity.
Qed.

Lemma exec_ext r :
  forall k1 k2, (forall st, k1 st = k2 st) -> forall st, exec r k1 st = exec r k2 st.
Proof.
  induction r as [| | |c| |rs|rs|r1 IH1 r2 IH2|r1 IH1 r2 IH2|lo hi r1 IH1|i r1 IH1];
    intros k1 k2 Hk st; cbn [exec]; unfold eat; rewrite ?Hk; try reflexivity.
  - apply IH1. intros st'. now apply IH2.
  - rewrite (IH1 k1 k2 Hk), (IH2 k1 k2 Hk). reflexivity.
  - apply iterate_ext; assumption.
  - apply IH1. intros st'. apply Hk.
Qed.

(** An optional pattern, where the subject is not at its end. *)
Lemma exec_opt r k st :
  m_rest st <> [] ->
  exec (Opt r) k st
  = match exec r k st with Some res => Some res | None => k st end.
Proof.
  intros Hne. unfold Opt. cbn [exec].
  destruct (m_rest st) as [|c rest]; [congruence|].
  cbn [length iterate may_iterate fmap option_fmap option_map].
  rewrite (exec_ext r _ k (iterate_done (exec r) k (length rest))).
  reflexivity.
Qed.

Lemma exec_lit c k pos rest g :
  exec (Lit c) k (MState pos (c :: rest) g) = k (MState (S pos) rest g).
Proof. cbn [exec]. unfold eat. cbn [m_rest]. now rewrite N.eqb_refl. Qed.

Lemma exec_lit_miss c x k pos rest g :
  x <> c -> exec (Lit c) k (MState pos (x :: rest) g) = None.
Proof.
  intros H. cbn [exec]. unfold eat. cbn [m_rest].
  destruct (c =? x) eqn:E; [|reflexivity]. apply N.eqb_eq in E. congruence.
Qed.

Lemma exec_plus_miss rs k pos c rest g :
  in_ranges rs c = false ->
  exec (Plus (OneOf rs)) k (MState pos (c :: rest) g) = None.
Proof.
  intros H. unfold Plus. cbn [exec m_rest length iterate may_iterate].
  unfold eat. cbn [m_rest]. now rewrite H.
Qed.

Lemma take_run {A} (w rest : list A) n :
  take (n + length w - n) (w ++ rest) = w.
Proof.
  replace (n + length w - n)%nat with (length w) by lia.
  now rewrite take_app_length.
Qed.

(** The equations of [exec] for a sequence and for a group, as steps of a
    proof: for the first one in the goal, and for all of them. *)
Ltac enter_seq :=
  change (exec (Seq ?a ?b) ?k ?st) with (exec a (exec b k) st) at 1.
Ltac enter_seqs :=
  change (exec (Seq ?a ?b) ?k ?st) with (exec a (exec b k) st).
Ltac enter_group :=
  change (exec (Grp ?i ?a) ?k ?st)
    with (exec a (fun st1 => k (capture i st st1)) st) at 1.
Ltac enter_groups :=
  change (exec (Grp ?i ?a) ?k ?st)
    with (exec a (fun st1 => k (capture i st st1)) st).

Lemma mention_tail_with_handle pos h g :
  alnum h = true ->
  exec MENTION_TAIL Some (MState pos (py "|" ++ h ++ py ">") g)
  = Some (MState (S (S pos + length h)) []
            ((5%nat, py ">") :: (4%nat, h) :: (3%nat, py "|") :: g)).
Proof.
  intros Hh. apply alnum_run in Hh as [Hh Hh0].
  unfold MENTION_TAIL, ALNUM. cbn [cat py map list_ascii_of_string app].
  enter_seqs.
  rewrite exec_opt by discriminate.
  enter_group.
  rewrite exec_lit. unfold capture; cbn [m_pos m_rest m_groups].
  replace (S pos - pos)%nat with 1%nat by lia. cbn [take].
  enter_seqs.
  rewrite exec_opt by (cbn [m_rest]; destruct h; [congruence | discriminate]).
  enter_group.
  erewrite exec_plus_run; [reflexivity | reflexivity | exact Hh | exact Hh0 |].
  unfold capture; cbn [m_pos m_rest m_groups]. rewrite take_run.
  enter_groups.
  rewrite exec_lit. unfold capture; cbn [m_pos m_rest m_groups].
  replace (S (S pos + length h) - (S pos + length h))%nat with 1%nat by lia.
  reflexivity.
Qed.
Lemma mention_tail_without_handle pos g :
  exec MENTION_TAIL Some (MState pos (py ">") g)
  = Some (MState (S pos) [] ((5%nat, py ">") :: g)).
Proof.
  unfold MENTION_TAIL, ALNUM. cbn [cat py map list_ascii_of_string].
  enter_seqs.
  rewrite exec_opt by discriminate.
  enter_group.
  rewrite exec_lit_miss by discriminate.
  enter_seqs.
  rewrite exec_opt by discriminate.
  enter_group.
  rewrite exec_plus_miss by reflexivity.
  enter_groups.
  rewrite exec_lit. unfold capture; cbn [m_pos m_rest m_groups].
  replace (S pos - pos)%nat with 1%nat by lia.
  reflexivity.
Qed.

(** The mention pattern matches a well-formed token as a whole: group 2 is
    the id, group 4 the handle if there is one. *)
Lemma mention_token_match slack_id handle :
  alnum slack_id = true ->
  match handle with Some h => alnum h = true | None => True end ->
  attempt SLACK_USERMENTION_REGEX 0 (mention_token slack_id handle)
  = Some (RMatch 0 (length (mention_token slack_id handle))
            ((5%nat, py ">")
               :: match handle with
                  | Some h => [(4%nat, h); (3%nat, py "|")]
                  | None => []
                  end
               ++ [(2%nat, slack_id); (1%nat, py "<@")])).
Proof.
  intros Hid Hh. apply alnum_run in Hid as [Hid Hid0].
  unfold attempt, mention_token.
  change SLACK_USERMENTION_REGEX
    with (Seq (Grp 1 (Seq (Lit (chr "<")) (Lit (chr "@"))))
              (Seq (Grp 2 (Plus (OneOf ALNUM_RANGES))) MENTION_TAIL)).
  cbn [py map list_ascii_of_string app].
  enter_seqs.
  enter_group.
  enter_seq.
  rewrite !exec_lit. unfold capture at 1; cbn [m_pos m_rest m_groups Nat.sub take].
  enter_seq.
  enter_group.
  destruct handle as [h|].
  - erewrite exec_plus_run; [|reflexivity|exact Hid|exact Hid0|].
    2:{ unfold capture; cbn [m_pos m_rest m_groups]. rewrite take_run.
        apply (mention_tail_with_handle _ h _ Hh). }
    cbn [m_pos m_groups app]. f_equal. f_equal.
    cbn [length]. rewrite !length_app. cbn [length].
    rewrite ?length_app. cbn [length]. lia.
  - erewrite exec_plus_run; [|reflexivity|exact Hid|exact Hid0|].
    2:{ unfold capture; cbn [m_pos m_rest m_groups]. rewrite take_run.
        apply mention_tail_without_handle. }
    cbn [m_pos m_groups app]. f_equal. f_equal.
    cbn [length]. rewrite !length_app. cbn [length].
    rewrite ?length_app. cbn [length]. lia.
Qed.

(** ** A mention that does not resolve *)

Lemma search_from_hit r pos s m :
  attempt r pos s = Some m -> search_from r pos s = Some m.
Proof. intros H. destruct s; simpl; now rewrite H. Qed.

Lemma mention_applies_resolves slack_id handle u :
  match handle with Some h => alnum h = true | None => True end ->
  mention_applies (Some slack_id) handle u = resolves slack_id handle u.
Proof.
  intros Hh. unfold mention_applies, resolves.
  assert (bool_decide (Some (u_id u) = Some slack_id) = bool_decide (u_id u = slack_id)) as ->.
  { apply bool_decide_ext. split; [now intros [= ->] | now intros ->]. }
  destruct handle as [h|]; [|now rewrite andb_true_r].
  apply alnum_run in Hh as [_ Hh]. rewrite (bool_decide_eq_false_2 (h = []) Hh).
  now rewrite andb_true_r.
Qed.

(** No entry for the mention: the loop over [users] assigns nothing, and
    [mention] is read unbound. *)
Lemma get_user_mentions_unbound slack_id handle e :
  alnum slack_id = true ->
  match handle with Some h => alnum h = true | None => True end ->
  forallb (fun u => negb (resolves slack_id handle u)) (users e) = true ->
  get_user_mentions (mention_token slack_id handle) e = (Err UnboundLocalError, e).
Proof.
  intros Hid Hh Hnone. unfold get_user_mentions, re_search.
  rewrite (search_from_hit _ _ _ _ (mention_token_match slack_id handle Hid Hh)).
  cbv beta iota zeta.
  assert (Hg4 : group (mention_token slack_id handle)
                  (RMatch 0 (length (mention_token slack_id handle))
                     ((5%nat, py ">")
                        :: match handle with
                           | Some h => [(4%nat, h); (3%nat, py "|")]
                           | None => []
                           end ++ [(2%nat, slack_id); (1%nat, py "<@")])) 4 = handle)
    by (destruct handle; reflexivity).
  assert (Hg2 : group (mention_token slack_id handle)
                  (RMatch 0 (length (mention_token slack_id handle))
                     ((5%nat, py ">")
                        :: match handle with
                           | Some h => [(4%nat, h); (3%nat, py "|")]
                           | None => []
                           end ++ [(2%nat, slack_id); (1%nat, py "<@")])) 2
                = Some slack_id)
    by (destruct handle; reflexivity).
  rewrite Hg4, Hg2. unfold mbind, M_bind, read_users.
  rewrite mentions_loop_none; [reflexivity|].
  rewrite forallb_forall in Hnone. apply forallb_forall. intros u Hu.
  rewrite mention_applies_resolves by exact Hh. now apply Hnone.
Qed.

(** The characters of a mention token. *)
Lemma mention_token_chars slack_id handle c :
  alnum slack_id = true ->
  match handle with Some h => alnum h = true | None => True end ->
  In c (mention_token slack_id handle) ->
  In c (py "<@|>") \/ in_ranges ALNUM_RANGES c = true.
Proof.
  intros Hid Hh. apply alnum_run in Hid as [Hid _].
  rewrite forallb_forall in Hid.
  unfold mention_token. rewrite !in_app_iff.
  intros [H|[H|[H|H]]].
  - left. vm_compute in H |- *. tauto.
  - right. auto.
  - destruct handle as [h|]; [|contradiction].
    apply alnum_run in Hh as [Hh _]. rewrite forallb_forall in Hh.
    apply in_app_iff in H as [H|H]; [|right; auto].
    left. vm_compute in H |- *. tauto.
  - left. vm_compute in H |- *. tauto.
Qed.

Lemma alnum_char_plain c :
  in_ranges ALNUM_RANGES c = true ->
  is_delimiter c = false /\ c <> SPACE /\ c <> chr "!".
Proof.
  unfold in_ranges, ALNUM_RANGES, range, is_delimiter, SPACE.
  cbn [existsb fst snd]. unfold chr.
  change (N_of_ascii "a") with 97. change (N_of_ascii "z") with 122.
  change (N_of_ascii "A") with 65. change (N_of_ascii "Z") with 90.
  change (N_of_ascii "0") with 48. change (N_of_ascii "9") with 57.
  change (N_of_ascii "~") with 126. change (N_of_ascii "_") with 95.
  change (N_of_ascii "*") with 42. change (N_of_ascii " ") with 32.
  change (N_of_ascii "!") with 33.
  rewrite !orb_true_iff, !andb_true_iff, !N.leb_le, !orb_false_iff, !N.eqb_neq.
  unfold char in *. intros [H|[H|[H|H]]]; [lia | lia | lia | discriminate].
Qed.

Lemma mention_token_plain slack_id handle :
  alnum slack_id = true ->
  match handle with Some h => alnum h = true | None => True end ->
  no_delimiters (mention_token slack_id handle) = true
  /\ occursb EVERYONE (mention_token slack_id handle) = false
  /\ ~ In SPACE (mention_token slack_id handle).
Proof.
  intros Hid Hh.
  assert (forall c, In c (mention_token slack_id handle) ->
            is_delimiter c = false /\ c <> SPACE /\ c <> chr "!") as Hc.
  { intros c H. apply mention_token_chars in H as [H|H]; auto.
    - vm_compute in H. repeat split;
        intuition (subst; (reflexivity || discriminate)).
    - now apply alnum_char_plain. }
  repeat split.
  - apply forallb_forall. intros c H. apply Hc in H as [-> _]. reflexivity.
  - apply occursb_false. intros (a & b & H).
    assert (In (chr "!") (mention_token slack_id handle)) as Hin.
    { rewrite H. apply in_app_iff. right. apply in_app_iff. left.
      vm_compute. tauto. }
    apply Hc in Hin as (_ & _ & Hin). congruence.
  - intros H. apply Hc in H as (_ & H & _). congruence.
Qed.

Lemma split_no_sep sep s : ~ In sep s -> split sep s = [s].
Proof.
  induction s as [|c s IH]; [reflexivity|]. intros H. cbn [split].
  destruct (c =? sep) eqn:E.
  - apply N.eqb_eq in E. exfalso. apply H. now left.
  - rewrite IH; [reflexivity|]. intros Hin. apply H. now right.
Qed.

(** ** Where a formatting match can start *)

Lemma lang_opening_char w :
  lang OPENING_CHAR w -> exists c, w = [c] /\ opening_char c = true.
Proof.
  unfold OPENING_CHAR. cbn [alt lang].
  unfold opening_char, in_ranges. cbn [existsb].
  intros [(c & -> & H)|[(c & -> & H)|[(c & -> & H)|[->|[->|[->| ->]]]]]];
    eexists; (split; [reflexivity|]);
    try (vm_compute; reflexivity);
    cbn [existsb] in H; rewrite orb_false_r in H; rewrite H;
    rewrite ?orb_true_r; reflexivity.
Qed.

Lemma exec_alt_bol r k st res :
  exec (Alt Bol r) k st = Some res ->
  (m_pos st = 0%nat /\ k st = Some res) \/ exec r k st = Some res.
Proof.
  cbn [exec]. destruct (m_pos st); [|now right].
  destruct (k st) as [res'|]; [left; split; congruence | now right].
Qed.

(** A formatting match starts at the start of the text with the
    delimiter, or with a character of [OPENING] and then the delimiter. *)
Lemma formatting_attempt_start delim inner pos rest m :
  attempt (formatting delim inner) pos rest = Some m ->
  (pos = 0%nat /\ exists r, rest = delim :: r)
  \/ exists c r, rest = c :: delim :: r /\ opening_char c = true.
Proof.
  unfold attempt. intros H.
  destruct (exec _ Some _) as [res|] eqn:E; [clear H|discriminate].
  unfold formatting in E. cbn [cat] in E.
  change (exec (Seq (Grp 1 OPENING) ?R) Some ?st)
    with (exec (Alt Bol OPENING_CHAR) (fun st1 => exec R Some (capture 1 st st1)) st) in E.
  assert (Hrest : forall st1 : mstate,
            exec (Seq (Grp 2 (Lit delim))
                    (Seq (Grp 3 (Star (OneOf inner)))
                       (Seq (Grp 4 (Plus (OneOf [range "!" "}"])))
                          (Seq (Grp 5 (Lit delim)) (Grp 6 CLOSING))))) Some st1
            = Some res ->
            exists r, m_rest st1 = delim :: r).
  { intros st1 H. apply exec_sound in H as (st2 & w & _ & [Hc _] & Hw).
    cbn [lang] in Hw. destruct Hw as (u & v & -> & -> & _).
    rewrite Hc. simpl. eauto. }
  apply exec_alt_bol in E as [[Hpos E]|E].
  - left. split; [exact Hpos|]. apply Hrest in E. exact E.
  - right. apply exec_sound in E as (st1 & w & E & [Hc _] & Hw).
    apply lang_opening_char in Hw as (c & -> & Hopen).
    apply Hrest in E as (r & E). cbn [capture m_rest] in E, Hc.
    exists c, r. rewrite Hc, E. auto.
Qed.

Lemma opens_after_cons delim c x t :
  opens_after delim (c :: x :: t)
  = (opening_char c && (x =? delim)) || opens_after delim (x :: t).
Proof. reflexivity. Qed.

(** No position of the text can start a match: [finditer] finds
    nothing. *)
Lemma scan_cannot_open delim inner rest :
  forall pos skip,
    opens_after delim rest = false ->
    (pos = 0%nat -> forall r, rest <> delim :: r) ->
    scan (formatting delim inner) pos skip rest = [].
Proof.
  induction rest as [|c rest IH]; intros pos skip Hopen Hhead.
  - cbn [scan]. destruct skip; [|reflexivity].
    destruct (attempt _ pos []) as [m|] eqn:E; [|reflexivity].
    apply formatting_attempt_start in E as [(_ & r & E)|(x & r & E & _)]; discriminate.
  - assert (Hrec : forall skip', scan (formatting delim inner) (S pos) skip' rest = []).
    { intros skip'. apply IH; [|discriminate].
      destruct rest as [|x rest]; [reflexivity|].
      rewrite opens_after_cons in Hopen.
      now apply orb_false_iff in Hopen as [_ Hopen]. }
    cbn [scan]. destruct skip; [|apply Hrec].
    destruct (attempt _ pos (c :: rest)) as [m|] eqn:E; [|apply Hrec].
    exfalso. apply formatting_attempt_start in E as [(Hpos & r & E)|(x & r & E & Hx)].
    + now apply (Hhead Hpos r).
    + injection E as -> ->. rewrite opens_after_cons in Hopen.
      now rewrite Hx, N.eqb_refl in Hopen.
Qed.

Lemma convert_markdown_syntax_cannot_open delim inner kw text :
  opens_after delim text = false ->
  (forall r, text <> delim :: r) ->
  convert_markdown_syntax text (formatting delim inner) kw = Ok text.
Proof.
  intros Hopen Hhead. unfold convert_markdown_syntax, re_finditer.
  rewrite scan_cannot_open; [reflexivity | exact Hopen | auto].
Qed.

(** ** Asterisks that open nothing *)

Lemma guard_char_not_opening c : guard_char c = true -> opening_char c = false.
Proof.
  unfold guard_char. rewrite !orb_true_iff, !N.eqb_eq.
  intros [[->| ->]| ->]; vm_compute; reflexivity.
Qed.

Lemma guarded_mono ok s : guarded false s = true -> guarded ok s = true.
Proof.
  destruct s as [|c s]; [reflexivity|]. cbn [guarded].
  rewrite orb_false_r. intros H. apply andb_true_iff in H as [-> ->]. reflexivity.
Qed.

Lemma guarded_opens_after ok s : guarded ok s = true -> opens_after ASTERISK s = false.
Proof.
  revert ok. induction s as [|c s IH]; intros ok H; [reflexivity|].
  destruct s as [|x s]; [reflexivity|].
  rewrite opens_after_cons. cbn [guarded] in H.
  apply andb_true_iff in H as [_ H].
  rewrite (IH _ H), orb_false_r. cbn [guarded] in H.
  apply andb_true_iff in H as [H _].
  destruct (x =? ASTERISK); [|now rewrite andb_false_r].
  cbn [negb orb] in H. now rewrite (guard_char_not_opening c H).
Qed.

Lemma guarded_head s r : guarded false s = true -> s <> ASTERISK :: r.
Proof.
  intros H ->. cbn [guarded] in H. rewrite N.eqb_refl in H. discriminate.
Qed.

Lemma guarded_app ok a b :
  guarded ok a = true -> guarded false b = true -> guarded ok (a ++ b) = true.
Proof.
  revert ok. induction a as [|c a IH]; intros ok Ha Hb.
  - now apply guarded_mono.
  - cbn [app guarded] in *. apply andb_true_iff in Ha as [-> Ha]. now apply IH.
Qed.

Lemma guarded_filter keep s :
  (forall c, guard_char c = true -> keep c = true) ->
  forall ok, guarded ok s = true -> guarded ok (List.filter keep s) = true.
Proof.
  intros Hkeep. induction s as [|c s IH]; intros ok H; [reflexivity|].
  cbn [guarded] in H. apply andb_true_iff in H as [Hc H].
  cbn [List.filter]. destruct (keep c) eqn:Ek.
  - cbn [guarded]. rewrite Hc. now apply IH.
  - assert (guard_char c = false) as Hg.
    { destruct (guard_char c) eqn:E; [|reflexivity]. apply Hkeep in E. congruence. }
    rewrite Hg in H. apply guarded_mono. now apply IH.
Qed.

Lemma guarded_strip_brackets ok token :
  guarded ok token = true -> guarded ok (strip_brackets token) = true.
Proof.
  intros H. unfold strip_brackets.
  change (py ">") with [chr ">"]. change (py "<") with [chr "<"].
  rewrite !str_replace_char_empty.
  apply guarded_filter; [|apply guarded_filter; [|exact H]];
    intros c; unfold guard_char; rewrite !orb_true_iff, !N.eqb_eq;
    intros [[->| ->]| ->]; reflexivity.
Qed.

Lemma guarded_unlink token :
  guarded false token = true -> guarded false (unlink token) = true.
Proof.
  intros H. unfold unlink. destruct (matches LINK_REGEX token); [|exact H].
  now apply guarded_strip_brackets.
Qed.

Lemma guarded_split s :
  forall ok, guarded ok s = true ->
    exists tok toks, split SPACE s = tok :: toks
                     /\ guarded ok tok = true
                     /\ Forall (fun t => guarded false t = true) toks.
Proof.
  induction s as [|c s IH]; intros ok H.
  - exists [], []. repeat split. constructor.
  - cbn [guarded] in H. apply andb_true_iff in H as [Hc H].
    destruct (IH _ H) as (tok & toks & Hs & Htok & Htoks).
    cbn [split]. destruct (c =? SPACE) eqn:E.
    + apply N.eqb_eq in E. subst c.
      exists [], (tok :: toks). rewrite Hs. repeat split.
      constructor; [exact Htok | exact Htoks].
    + rewrite Hs. exists (c :: tok), toks. repeat split; [|exact Htoks].
      cbn [guarded]. now rewrite Hc, Htok.
Qed.

Lemma guarded_join tokens :
  Forall (fun t => guarded false t = true) tokens ->
  guarded false (join SPACE tokens) = true.
Proof.
  induction 1 as [|tok tokens Htok _ IH]; [reflexivity|].
  destruct tokens as [|tok' tokens]; [exact Htok|].
  rewrite join_cons by discriminate.
  apply guarded_app; [exact Htok|]. exact IH.
Qed.

Lemma guarded_all ok rest : guarded ok (ALL ++ rest) = guarded true rest.
Proof. reflexivity. Qed.

(** The replacement of [<!everyone>] in a text without asterisks gives a
    text whose asterisks are those of [@**all**]. *)
Lemma guarded_replace_everyone s :
  ~ In ASTERISK s ->
  forall skip ok, guarded ok (replace_from EVERYONE ALL skip s) = true.
Proof.
  induction s as [|c s IH]; intros Hno skip ok; [reflexivity|].
  assert (~ In ASTERISK s) as Hs by (intros H; apply Hno; now right).
  assert ((c =? ASTERISK) = false) as Hc.
  { apply N.eqb_neq. intros ->. apply Hno. now left. }
  cbn [replace_from]. destruct skip; [|now apply IH].
  destruct (is_prefix EVERYONE (c :: s)).
  - rewrite guarded_all. now apply IH.
  - cbn [guarded]. rewrite Hc. now apply IH.
Qed.

Lemma in_replace_from old new s c :
  forall skip, In c (replace_from old new skip s) -> In c s \/ In c new.
Proof.
  induction s as [|x s IH]; intros skip H; [contradiction|].
  cbn [replace_from] in H. destruct skip.
  - destruct (is_prefix old (x :: s)).
    + apply in_app_iff in H as [H|H]; [now right|].
      apply IH in H as [H|H]; [left; now right | now right].
    + destruct H as [->|H]; [left; now left|].
      apply IH in H as [H|H]; [left; now right | now right].
  - apply IH in H as [H|H]; [left; now right | now right].
Qed.

(** ** The conversion of a converted text *)

(** A text that the formatting passes leave as it is, without
    [<!everyone>], mention tokens and link tokens, is a fixed point. *)
Lemma convert_fixed_point text e :
  convert_markdown_syntax text SLACK_STRIKETHROUGH_REGEX (py "~~") = Ok text ->
  convert_markdown_syntax text SLACK_ITALIC_REGEX (py "*") = Ok text ->
  convert_markdown_syntax text SLACK_BOLD_REGEX (py "**") = Ok text ->
  occursb EVERYONE text = false ->
  no_mention_tokens text = true ->
  no_link_tokens text = true ->
  convert_to_zulip_markdown text e = (Ok (text, [], false), e).
Proof.
  intros H1 H2 H3 He Hm Hl.
  assert (str_replace EVERYONE ALL text = text) as Hr
    by (apply str_replace_absent; [discriminate | exact He]).
  unfold convert_to_zulip_markdown, mbind, M_bind, lift.
  rewrite H1, H2, H3, Hr.
  pose proof (tokens_loop_without_mentions _ [] [] false e Hm) as Hloop.
  cbn [length app orb] in Hloop. rewrite Hloop.
  destruct (unlink_not_link _ Hl) as [-> ->].
  unfold mret, M_ret. now rewrite join_split.
Qed.

(** The conversion of a text without delimiters and without mention
    tokens, and the conversion of what it returns. *)
Lemma convert_again text e :
  no_delimiters text = true ->
  no_mention_tokens (str_replace EVERYONE ALL text) = true ->
  let out := join SPACE (map unlink (split SPACE (str_replace EVERYONE ALL text))) in
  convert_to_zulip_markdown text e
  = (Ok (out, [],
         existsb (matches LINK_REGEX) (split SPACE (str_replace EVERYONE ALL text))), e)
  /\ convert_to_zulip_markdown out e = (Ok (out, [], false), e).
Proof.
  intros Hd Hm out. split; [now apply convert_without_delimiters|].
  set (replaced := str_replace EVERYONE ALL text) in *.
  pose proof (split_tokens SPACE replaced) as Htoks.
  pose proof (str_replace_everyone_leaves_none text) as Hnone.
  fold replaced in Hnone. apply occursb_false in Hnone.
  assert (Forall (fun tok =>
            ~ In SPACE (unlink tok)
            /\ (forall c, In c (unlink tok) -> In c replaced)
            /\ matches SLACK_USERMENTION_REGEX (unlink tok) = false
            /\ matches LINK_REGEX (unlink tok) = false
            /\ ~ occurs EVERYONE (unlink tok)) (split SPACE replaced)) as Hall.
  { unfold no_mention_tokens in Hm. rewrite forallb_forall in Hm.
    apply List.Forall_forall. intros tok Hin.
    rewrite List.Forall_forall in Htoks.
    destruct (Htoks tok Hin) as (Hsp & a & b & Hab).
    specialize (Hm tok Hin). apply negb_true_iff in Hm.
    destruct (unlink_plain tok Hsp Hm) as (H1 & H2 & H3 & H4 & H5).
    repeat split; auto.
    - intros c Hc. rewrite Hab. apply in_app_iff. right. apply in_app_iff. left. auto.
    - intros Ho. apply H5 in Ho as (x & y & Ho). apply Hnone.
      exists (a ++ x), (y ++ b). rewrite Hab, Ho. now rewrite <- !app_assoc. }
  assert (split SPACE out = map unlink (split SPACE replaced)) as Hsplit.
  { apply split_join.
    - intros H. apply map_eq_nil in H. now apply split_nonempty in H.
    - apply List.Forall_forall. intros tok' Hin. apply in_map_iff in Hin as (tok & <- & Hin).
      rewrite List.Forall_forall in Hall. now apply Hall. }
  rewrite List.Forall_forall in Hall.
  assert (Hchars : forall c, In c out -> c = SPACE \/ In c text \/ In c ALL).
  { intros c Hc. apply in_join in Hc as [->|(tok' & Hin & Hc)]; [now left|]. right.
    apply in_map_iff in Hin as (tok & <- & Hin).
    apply Hall in Hin as (_ & Hsub & _). apply Hsub in Hc.
    unfold replaced, str_replace, EVERYONE in Hc. cbn [py map list_ascii_of_string] in Hc.
    now apply in_replace_from in Hc. }
  assert (Hnot : forall c, is_delimiter c = true -> ~ In c ALL -> ~ In c out).
  { intros c Hc Hall' Hin. apply Hchars in Hin as [->|[Hin|Hin]].
    - discriminate.
    - now apply (no_delimiters_not_in _ _ Hd Hc).
    - contradiction. }
  assert (guarded false out = true) as Hg.
  { apply guarded_join. apply List.Forall_forall. intros tok' Hin.
    apply in_map_iff in Hin as (tok & <- & Hin). apply guarded_unlink.
    assert (guarded false replaced = true) as Hr.
    { apply guarded_replace_everyone.
      apply (no_delimiters_not_in _ _ Hd). reflexivity. }
    destruct (guarded_split _ _ Hr) as (t0 & ts & Hs & Ht0 & Hts).
    rewrite Hs in Hin. destruct Hin as [<-|Hin]; [exact Ht0|].
    rewrite List.Forall_forall in Hts. now apply Hts. }
  apply convert_fixed_point.
  - apply convert_markdown_syntax_without. apply Hnot; [reflexivity|].
    vm_compute. intuition discriminate.
  - apply convert_markdown_syntax_without. apply Hnot; [reflexivity|].
    vm_compute. intuition discriminate.
  - apply convert_markdown_syntax_cannot_open.
    + exact (guarded_opens_after _ _ Hg).
    + intros r. now apply guarded_head.
  - apply occursb_false. intros Ho.
    apply occurs_join in Ho as (tok' & Hin & Ho).
    + apply in_map_iff in Hin as (tok & <- & Hin).
      apply Hall in Hin as (_ & _ & _ & _ & Hno). auto.
    + discriminate.
    + vm_compute. intuition discriminate.
  - unfold no_mention_tokens. rewrite Hsplit. apply forallb_forall.
    intros tok' Hin. apply in_map_iff in Hin as (tok & <- & Hin).
    apply Hall in Hin as (_ & _ & -> & _). reflexivity.
  - unfold no_link_tokens. rewrite Hsplit. apply forallb_forall.
    intros tok' Hin. apply in_map_iff in Hin as (tok & <- & Hin).
    apply Hall in Hin as (_ & _ & _ & -> & _). reflexivity.
Qed.

(** * The claims *)

(** ** Mentions that do not resolve (C1) *)

(** C1: for every token [<@ID>] or [<@ID|handle>] (ID and handle not
    empty, of letters and digits) such that no entry of the directory has
    the identifier ID and, when there is a handle, that handle, the
    conversion of the token raises [UnboundLocalError] ([mention] is read
    before any assignment): the token is not left unchanged. *)
Theorem unresolved_mention_raises slack_id handle e :
  alnum slack_id = true ->
  match handle with Some h => alnum h = true | None => True end ->
  forallb (fun u => negb (resolves slack_id handle u)) (users e) = true ->
  convert_to_zulip_markdown (mention_token slack_id handle) e
  = (Err UnboundLocalError, e).
Proof.
  intros Hid Hh Hnone.
  destruct (mention_token_plain slack_id handle Hid Hh) as (Hd & He & Hsp).
  destruct (formatting_passes_without _ Hd) as (H1 & H2 & H3).
  unfold convert_to_zulip_markdown, mbind, M_bind, lift.
  rewrite H1, H2, H3.
  rewrite str_replace_absent by (discriminate || exact He).
  rewrite (split_no_sep _ _ Hsp).
  change (tokens_loop (length [mention_token slack_id handle]) 0
            [mention_token slack_id handle] [] false e)
    with (tokens_loop (length [mention_token slack_id handle]) (length (@nil str))
            ([] ++ [mention_token slack_id handle]) [] false e).
  rewrite tokens_loop_cons.
  unfold turn, re_match.
  rewrite (mention_token_match slack_id handle Hid Hh).
  rewrite (get_user_mentions_unbound slack_id handle e Hid Hh Hnone).
  reflexivity.
Qed.

Lemma unresolved_mention_raises_witness :
  let e := Env [BOB] {[ py "U1" := 7%Z ]} in
  mention_token (py "U1") (Some (py "alice")) = py "<@U1|alice>"
  /\ alnum (py "U1") = true
  /\ alnum (py "alice") = true
  /\ forallb (fun u => negb (resolves (py "U1") (Some (py "alice")) u)) (users e) = true
  /\ convert_to_zulip_markdown (py "<@U1|alice>") e = (Err UnboundLocalError, e).
Proof.
  cbv zeta. do 4 (split; [vm_compute; reflexivity|]).
  apply (unresolved_mention_raises (py "U1") (Some (py "alice")));
    vm_compute; reflexivity.
Defined.

(** ** Bold and italic (C2) *)

(** C2: on [a *bold* and _ital_ b] the strikethrough pass changes
    nothing, the italic pass gives [a *bold* and *ital* b], and the bold
    pass then takes everything from the first to the last asterisk of that
    text as one bold span: the conversion returns
    [a **bold* and *ital** b], not [a **bold** and *ital* b]. *)
Theorem bold_pass_spans_converted_italic (e : env) :
  convert_markdown_syntax (py "a *bold* and _ital_ b")
    SLACK_STRIKETHROUGH_REGEX (py "~~") = Ok (py "a *bold* and _ital_ b")
  /\ convert_markdown_syntax (py "a *bold* and _ital_ b")
       SLACK_ITALIC_REGEX (py "*") = Ok (py "a *bold* and *ital* b")
  /\ convert_markdown_syntax (py "a *bold* and *ital* b")
       SLACK_BOLD_REGEX (py "**") = Ok (py "a **bold* and *ital** b")
  /\ convert_to_zulip_markdown (py "a *bold* and _ital_ b") e
     = (Ok (py "a **bold* and *ital** b", [], false), e)
  /\ py "a **bold* and *ital** b" <> py "a **bold** and *ital* b".
Proof. repeat split; vm_compute; (reflexivity || discriminate). Qed.

(** ** Idempotence (C3) *)

(** C3, as stated, at two texts.  The text [*x <!everyone>] has an
    asterisk but no strikethrough, italic or bold pattern (none of the three
    patterns matches anywhere in it); its conversion is [*x @**all**], in
    which the bold pattern matches, and the conversion of that is
    [**x @**all***].  The text [<@U1> <@U1>] has none of the characters
    [~], [_], [*]; with the display name [Bob Jr.] its conversion is
    [@**Bob Jr.**  @**Bob Jr.** ], and the conversion of that is
    [@**Bob Jr.***  @**Bob Jr.*** ]. *)
Lemma conversion_not_idempotent :
  (let t := py "*x <!everyone>" in
   let e := Env [BOB] {[ py "U1" := 7%Z ]} in
   re_finditer SLACK_STRIKETHROUGH_REGEX t = []
   /\ re_finditer SLACK_ITALIC_REGEX t = []
   /\ re_finditer SLACK_BOLD_REGEX t = []
   /\ convert_to_zulip_markdown t e = (Ok (py "*x @**all**", [], false), e)
   /\ convert_to_zulip_markdown (py "*x @**all**") e
      = (Ok (py "**x @**all***", [], false), e)
   /\ py "**x @**all***" <> py "*x @**all**")
  /\ (let t := py "<@U1> <@U1>" in
      let e := Env [BOB_JR] {[ py "U1" := 7%Z ]} in
      no_delimiters t = true
      /\ convert_to_zulip_markdown t e
         = (Ok (py "@**Bob Jr.**  @**Bob Jr.** ", [7%Z; 7%Z], false), e)
      /\ convert_to_zulip_markdown (py "@**Bob Jr.**  @**Bob Jr.** ") e
         = (Ok (py "@**Bob Jr.***  @**Bob Jr.*** ", [], false), e)
      /\ py "@**Bob Jr.***  @**Bob Jr.*** " <> py "@**Bob Jr.**  @**Bob Jr.** ").
Proof. cbv zeta. repeat split; vm_compute; (reflexivity || discriminate). Qed.

(** C3, amended: for a text without the characters [~], [_] and [*] and
    with no mention token (in the text after the replacement of
    [<!everyone>]), the conversion returns a text whose conversion is that
    same text. *)
Theorem conversion_idempotent_without_delimiters text e :
  no_delimiters text = true ->
  no_mention_tokens (str_replace EVERYONE ALL text) = true ->
  exists out has_link,
    convert_to_zulip_markdown text e = (Ok (out, [], has_link), e)
    /\ convert_to_zulip_markdown out e = (Ok (out, [], false), e).
Proof.
  intros Hd Hm. destruct (convert_again text e Hd Hm) as [H1 H2]. eauto.
Qed.

Lemma conversion_idempotent_without_delimiters_witness :
  let text := py "see <https://example.com/a> <!everyone>, now" in
  let e := Env [BOB] {[ py "U1" := 7%Z ]} in
  no_delimiters text = true
  /\ no_mention_tokens (str_replace EVERYONE ALL text) = true
  /\ exists out has_link,
       convert_to_zulip_markdown text e = (Ok (out, [], has_link), e)
       /\ convert_to_zulip_markdown out e = (Ok (out, [], false), e).
Proof.
  cbv zeta. do 2 (split; [vm_compute; reflexivity|]).
  apply conversion_idempotent_without_delimiters; vm_compute; reflexivity.
Defined.

(** ** A resolved mention (C4) *)

(** C4, as stated, at the directory with the one entry [BOB] and the id
    dictionary [{"U1": 7}]: the token is rewritten to [@**Bob Smith** ],
    but the list that is returned holds the Zulip id 7 and not the Slack
    identifier ["U1"].  And a text that holds the token is not always
    rewritten so.  In [x ~a~ y ~b <@U1|bob> c~ z] the token is inside the
    second match of the strikethrough pattern, which the pass replaces by
    the conversion of the first match: the token is gone and nobody is
    mentioned.  With a later entry of the same identifier and handle the
    name is that of the later entry.  Without the key ["U1"] in the id
    dictionary the conversion raises [KeyError], and with another mention,
    one that does not resolve, it raises [UnboundLocalError]. *)
Lemma mention_records_zulip_id_not_slack_id :
  (convert_to_zulip_markdown MENTION_BOB (Env [BOB] {[ py "U1" := 7%Z ]})
   = (Ok (py "@**Bob Smith** ", [7%Z], false), Env [BOB] {[ py "U1" := 7%Z ]})
   /\ ~ In (PyStr (py "U1")) (map PyInt [7%Z]))
  /\ (let text := py "x ~a~ y ~b <@U1|bob> c~ z" in
      let e := Env [BOB] {[ py "U1" := 7%Z ]} in
      split SPACE text
      = [py "x"; py "~a~"; py "y"; py "~b"; MENTION_BOB; py "c~"; py "z"]
      /\ convert_to_zulip_markdown text e
         = (Ok (py "x ~~a~~ y ~~a~~ z", [], false), e))
  /\ (let e := Env [BOB; User (py "U1") (py "bob") (py "Robert") false]
                   {[ py "U1" := 7%Z ]} in
      convert_to_zulip_markdown MENTION_BOB e
      = (Ok (py "@**Robert** ", [7%Z], false), e))
  /\ convert_to_zulip_markdown MENTION_BOB (Env [BOB] ∅)
     = (Err KeyError, Env [BOB] ∅)
  /\ (let e := Env [BOB] {[ py "U1" := 7%Z ]} in
      convert_to_zulip_markdown (py "<@U1|bob> <@U9|ghost>") e
      = (Err UnboundLocalError, e)).
Proof.
  cbv zeta. split; [split; [vm_compute; reflexivity|]|].
  - intros [H|[]]. discriminate.
  - repeat split; vm_compute; reflexivity.
Qed.

(** C4, amended: in a directory that holds the entry [BOB] and after it no
    entry with the identifier ["U1"], with an id dictionary that maps
    ["U1"] to [user_id], a text of which the formatting passes make a text
    whose tokens (after the replacement of [<!everyone>]) are [tokens1], the
    token [<@U1|bob>] and [tokens2], none of these a mention, is rewritten
    with [@**Bob Smith** ] in the place of the token, and the list of
    mentioned users is [[user_id]]: the Zulip id, not the Slack
    identifier. *)
Theorem mention_resolved_to_zulip_id text text3 tokens1 tokens2 e user_id :
  formatting_passes text = Ok text3 ->
  split SPACE (str_replace EVERYONE ALL text3) = tokens1 ++ MENTION_BOB :: tokens2 ->
  forallb (fun t => negb (matches SLACK_USERMENTION_REGEX t))
          (tokens1 ++ tokens2) = true ->
  directory_with_bob e user_id ->
  convert_to_zulip_markdown text e
  = (Ok (join SPACE (map unlink tokens1 ++ py "@**Bob Smith** " :: map unlink tokens2),
         [user_id],
         existsb (matches LINK_REGEX) (tokens1 ++ tokens2)), e).
Proof.
  intros Hp Hsplit Hplain Hdir. unfold formatting_passes in Hp.
  destruct (convert_markdown_syntax text _ _) as [text1|] eqn:H1; [|discriminate].
  destruct (convert_markdown_syntax text1 _ _) as [text2|] eqn:H2; [|discriminate].
  rewrite forallb_app in Hplain. apply andb_true_iff in Hplain as [Hp1 Hp2].
  unfold convert_to_zulip_markdown, mbind, M_bind, lift.
  rewrite H1, H2, Hp, Hsplit.
  assert (Forall2 (fun t out => turn e t = Ok out)
            (tokens1 ++ MENTION_BOB :: tokens2)
            (map plain_turn tokens1
               ++ (py "@**Bob Smith** ", [user_id], false) :: map plain_turn tokens2))
    as Hturns.
  { apply Forall2_app; [now apply turns_plain|].
    constructor; [now apply turn_bob | now apply turns_plain]. }
  pose proof (tokens_loop_turns e _ _ Hturns [] [] false) as Hloop.
  cbn [length app orb] in Hloop. rewrite Hloop.
  unfold mret, M_ret.
  destruct (plain_turns_outputs tokens1) as (A1 & A2 & A3).
  destruct (plain_turns_outputs tokens2) as (B1 & B2 & B3).
  rewrite !map_app, concat_app, !existsb_app. cbn [map concat existsb fst snd].
  rewrite A1, A2, A3, B1, B2, B3. cbn [app orb].
  reflexivity.
Qed.

Lemma mention_resolved_to_zulip_id_witness :
  let text := py "*hi* <!everyone> <@U1|bob> there" in
  let text3 := py "**hi** <!everyone> <@U1|bob> there" in
  let e := Env [User (py "U0") (py "ann") (py "Ann") false; BOB]
               {[ py "U1" := 7%Z ]} in
  formatting_passes text = Ok text3
  /\ split SPACE (str_replace EVERYONE ALL text3)
     = [py "**hi**"; ALL] ++ MENTION_BOB :: [py "there"]
  /\ forallb (fun t => negb (matches SLACK_USERMENTION_REGEX t))
             ([py "**hi**"; ALL] ++ [py "there"]) = true
  /\ directory_with_bob e 7%Z
  /\ convert_to_zulip_markdown text e
     = (Ok (py "**hi** @**all** @**Bob Smith**  there", [7%Z], false), e).
Proof.
  cbv zeta.
  assert (directory_with_bob
            (Env [User (py "U0") (py "ann") (py "Ann") false; BOB]
                 {[ py "U1" := 7%Z ]}) 7%Z) as Hdir.
  { exists [User (py "U0") (py "ann") (py "Ann") false], [].
    repeat split; vm_compute; reflexivity. }
  do 3 (split; [vm_compute; reflexivity|]). split; [exact Hdir|].
  rewrite (mention_resolved_to_zulip_id _ (py "**hi** <!everyone> <@U1|bob> there")
             [py "**hi**"; ALL] [py "there"] _ 7%Z);
    [vm_compute; reflexivity | vm_compute; reflexivity ..| exact Hdir].
Defined.

(** ** Plain text (C5) *)

(** C5: a text without the characters [~], [_] and [*], without
    [<!everyone>], and whose tokens match neither the mention pattern nor
    the link pattern, comes back unchanged, with no mentioned user and no
    link. *)
Theorem plain_text_unchanged (text : str) (e : env) :
  no_delimiters text = true ->
  occursb EVERYONE text = false ->
  no_mention_tokens text = true ->
  no_link_tokens text = true ->
  convert_to_zulip_markdown text e = (Ok (text, [], false), e).
Proof.
  intros Hd He Hm Hl.
  destruct (formatting_passes_without text Hd) as (H1 & H2 & H3).
  now apply convert_fixed_point.
Qed.

Lemma plain_text_unchanged_witness :
  let text := py "see you at 10:30, <name> & co." in
  no_delimiters text = true
  /\ occursb EVERYONE text = false
  /\ no_mention_tokens text = true
  /\ no_link_tokens text = true
  /\ convert_to_zulip_markdown text (Env [BOB] ∅) = (Ok (text, [], false), Env [BOB] ∅).
Proof.
  cbv zeta. do 4 (split; [vm_compute; reflexivity|]).
  apply plain_text_unchanged; vm_compute; reflexivity.
Defined.

(** ** Links (C6) *)

(** C6: the text [<https://example.com>] is one token that matches the
    link pattern; the conversion strips its angle brackets and reports a
    link, in every environment. *)
Theorem link_brackets_stripped (e : env) :
  matches LINK_REGEX (py "<https://example.com>") = true
  /\ convert_to_zulip_markdown (py "<https://example.com>") e
     = (Ok (py "https://example.com", [], true), e).
Proof. split; vm_compute; reflexivity. Qed.

(** ** Skipped messages (C7) *)

(** C7: in the turn of the loop for a message of subtype [channel_join],
    [channel_leave] or [channel_name], the text of the message is converted
    first, before the subtype is looked at: when the conversion returns,
    the message is skipped (the loop state, with its ids and its records,
    is left as it was); when the conversion raises, the turn raises, and
    the message is not skipped. *)
Theorem skipped_message_is_converted_first
    channel added_channels subs message subtype state e :
  msg_subtype message = Some subtype ->
  In subtype SKIPPED_SUBTYPES ->
  message_turn channel added_channels subs message state e
  = match convert_to_zulip_markdown (msg_text message) e with
    | (Ok _, e') => (Ok state, e')
    | (Err x, e') => (Err x, e')
    end.
Proof.
  intros Hsub Hin. unfold message_turn.
  destruct state as [[[message_id usermessage_id] zm] zum].
  unfold mbind, M_bind. rewrite Hsub.
  rewrite bool_decide_eq_true_2 by (now apply list_elem_of_In).
  destruct (convert_to_zulip_markdown (msg_text message) e) as [[[[c m] l]|x] e'];
    reflexivity.
Qed.

Lemma skipped_message_is_converted_first_witness :
  let e := Env [BOB] {[ py "U1" := 7%Z ]} in
  let channel := py "general" in
  let added_channels : gmap str Z := {[ py "general" := 3%Z ]} in
  msg_subtype JOIN_MESSAGE = Some (py "channel_join")
  /\ In (py "channel_join") SKIPPED_SUBTYPES
  /\ message_turn channel added_channels [] JOIN_MESSAGE (1%Z, 1%Z, [], []) e
     = (Err UnboundLocalError, e)
  /\ channel_message_to_zerver_message [[JOIN_MESSAGE]] channel added_channels
       [] (1%Z, 1%Z) e
     = (Err UnboundLocalError, e).
Proof.
  cbv zeta. split; [reflexivity|]. split; [vm_compute; tauto|]. split.
  - rewrite (skipped_message_is_converted_first _ _ _ _ (py "channel_join"));
      [vm_compute; reflexivity | reflexivity | vm_compute; tauto].
  - vm_compute. reflexivity.
Defined.

(** ** The display name (C8) *)

(** C8: the display name of a directory entry is its real name when the
    entry is not marked deleted and the real name is not empty, and its
    short handle otherwise. *)
Theorem get_user_full_name_prefers_real_name (u : user) :
  get_user_full_name u
  = if negb (u_deleted u) && negb (bool_decide (u_real_name u = []))
    then u_real_name u
    else u_name u.
Proof.
  unfold get_user_full_name.
  destruct (u_deleted u); [reflexivity|].
  destruct (bool_decide (u_real_name u = [])); reflexivity.
Qed.

(** ** Determinism (C9) *)

(** C9: two calls in a row with the same text, the second in the
    environment the first one left, give the same result (the same text,
    ids and link flag, or the same exception), and neither changes the
    environment (the directory and the id dictionary). *)
Theorem convert_deterministic_and_read_only (text : str) (e : env) :
  let '(r1, e1) := convert_to_zulip_markdown text e in
  let '(r2, e2) := convert_to_zulip_markdown text e1 in
  r1 = r2 /\ e1 = e /\ e2 = e.
Proof.
  pose proof (read_only_convert_to_zulip_markdown text e) as Hro.
  destruct (convert_to_zulip_markdown text e) as [r1 e1] eqn:E1.
  simpl in Hro. subst e1. rewrite E1. auto.
Qed.

(** ** Mention of everyone (C10) *)

(** C10: [<!everyone>] is replaced wherever it occurs in the text that the
    formatting passes give: the replacement goes through the text around
    an occurrence, whatever that text is, and leaves no occurrence; it is
    done before the text is split into tokens, so that an occurrence inside
    a larger token, also inside a link token, is replaced. *)
Theorem everyone_replaced_as_substring :
  (forall a b,
      str_replace EVERYONE ALL (a ++ EVERYONE ++ b)
      = str_replace EVERYONE ALL a ++ ALL ++ str_replace EVERYONE ALL b)
  /\ (forall s, occursb EVERYONE (str_replace EVERYONE ALL s) = false)
  /\ (forall text e,
         convert_to_zulip_markdown text e
         = (text3 ← lift (formatting_passes text);
            let tokens := split SPACE (str_replace EVERYONE ALL text3) in
            '(tokens, ids, has_link) ← tokens_loop (length tokens) 0 tokens [] false;
            mret (join SPACE tokens, ids, has_link)) e)
  /\ (forall e, convert_to_zulip_markdown (py "hi,<!everyone>!") e
                = (Ok (py "hi,@**all**!", [], false), e))
  /\ (forall e, convert_to_zulip_markdown (py "<http://a.com/<!everyone>>") e
                = (Ok (py "http://a.com/@**all**", [], true), e)).
Proof.
  split; [exact str_replace_everyone_around|].
  split; [exact str_replace_everyone_leaves_none|].
  split; [|split; intros e; vm_compute; reflexivity].
  intros text e.
  unfold convert_to_zulip_markdown, formatting_passes, mbind, M_bind, lift.
  destruct (convert_markdown_syntax text _ _) as [text1|x]; [|reflexivity].
  destruct (convert_markdown_syntax text1 _ _) as [text2|x]; [|reflexivity].
  reflexivity.
Qed.

(** * Further properties *)

(** ** Fresh ids *)

Lemma last_id_greatest model id :
  id ∈ model -> exists m, last_id model = Some m /\ (id <= m)%Z.
Proof.
  destruct model as [|x xs]; [intros H; inversion H|].
  intros H. exists (foldr Z.max x xs). split; [reflexivity|].
  apply elem_of_cons in H as [->|H].
  - clear. induction xs as [|y ys IH]; simpl; lia.
  - induction xs as [|y ys IH]; [inversion H|].
    apply elem_of_cons in H as [->|H]; simpl; [lia|].
    specialize (IH H). lia.
Qed.

Lemma get_model_id_fresh model id : id ∈ model -> (id < get_model_id model)%Z.
Proof.
  intros H. destruct (last_id_greatest _ _ H) as (m & Hm & Hle).
  unfold get_model_id. rewrite Hm. lia.
Qed.

(** X1: [get_model_id] gives 1 for an empty table, and otherwise an id
    greater than the id of every row of the table. *)
Theorem get_model_id_is_new model :
  (model = [] -> get_model_id model = 1%Z)
  /\ (forall id, id ∈ model -> (id < get_model_id model)%Z).
Proof. split; [by intros ->|apply get_model_id_fresh]. Qed.

Section UsersProperties.
Variable sha256_hexdigest : str -> str.
Variables realm_id timestamp : Z.
Variable domain_name : str.

#[local] Abbreviation loop := (users_loop sha256_hexdigest realm_id timestamp domain_name).
#[local] Abbreviation profile_of := (userprofile_of sha256_hexdigest realm_id timestamp domain_name).

Lemma users_loop_profiles users acc added start :
  fst (loop users acc added start)
  = acc ++ imap (fun i u => profile_of u (start + Z.of_nat i)%Z) users.
Proof.
  revert acc added start. induction users as [|u us IH]; intros acc added start.
  - simpl. by rewrite app_nil_r.
  - cbn [users_loop imap]. rewrite IH, <- app_assoc. cbn [app].
    rewrite Z.add_0_r. do 2 f_equal. apply imap_ext. intros i x _. cbn.
    f_equal. lia.
Qed.

Lemma users_loop_other users acc added start k :
  k ∉ (u_id ∘ su_entry <$> users) ->
  snd (loop users acc added start) !! k = added !! k.
Proof.
  revert acc added start. induction users as [|u us IH]; intros acc added start Hk.
  - reflexivity.
  - cbn [users_loop]. rewrite fmap_cons, not_elem_of_cons in Hk.
    destruct Hk as [Hne Hk]. rewrite IH by exact Hk.
    apply lookup_insert_ne. cbn in Hne. congruence.
Qed.

Lemma users_loop_last us1 u us2 acc added start :
  u_id (su_entry u) ∉ (u_id ∘ su_entry <$> us2) ->
  snd (loop (us1 ++ u :: us2) acc added start) !! u_id (su_entry u)
  = Some (start + Z.of_nat (length us1))%Z.
Proof.
  intros Hk. revert acc added start.
  induction us1 as [|v vs IH]; intros acc added start.
  - cbn [app users_loop length]. rewrite users_loop_other by exact Hk.
    rewrite lookup_insert. rewrite decide_True by done.  f_equal. cbn. lia.
  - cbn [app users_loop length]. rewrite IH. f_equal. lia.
Qed.


End UsersProperties.

(** ** The loop over the members *)

Lemma members_loop_known added sid ms subs c ids :
  mapM (fun m => added !! m) ms = Some ids ->
  members_loop added sid ms subs c
  = Ok (subs ++ imap (fun j id => sub_row sid id (c + Z.of_nat j)%Z) ids,
        (c + Z.of_nat (length ms))%Z).
Proof.
  revert subs c ids. induction ms as [|m ms IH]; intros subs c ids H.
  - cbn in H. injection H as <-. cbn. rewrite app_nil_r, Z.add_0_r. reflexivity.
  - cbn [mapM] in H. destruct (added !! m) as [id|] eqn:Hm; [|discriminate].
    cbn in H. destruct (mapM _ ms) as [ids'|] eqn:Hms; [|discriminate].
    cbn in H. injection H as <-.
    cbn [members_loop]. rewrite Hm. rewrite (IH _ _ ids') by reflexivity.
    rewrite <- app_assoc. cbn [app imap length]. rewrite Z.add_0_r.
    f_equal. f_equal; [|lia]. do 2 f_equal. apply imap_ext. intros j x _. cbn.
    f_equal. lia.
Qed.

Lemma members_loop_unknown added sid ms subs c :
  mapM (fun m => added !! m) ms = None ->
  members_loop added sid ms subs c = Err KeyError.
Proof.
  revert subs c. induction ms as [|m ms IH]; intros subs c H.
  - discriminate.
  - cbn [mapM] in H. cbn [members_loop].
    destruct (added !! m) as [id|] eqn:Hm; [|reflexivity].
    cbn in H. destruct (mapM _ ms) as [ids'|] eqn:Hms; [discriminate|].
    apply IH. reflexivity.
Qed.

Lemma imap_snd {A} (l : list A) : imap (fun _ x => x) l = l.
Proof. induction l as [|x l IH]; [reflexivity|]. cbn. f_equal. exact IH. Qed.

Lemma imap_offsets {A} (l : list A) z :
  imap (fun i _ => (z + Z.of_nat i)%Z) l = seqZ z (Z.of_nat (length l)).
Proof.
  revert z. induction l as [|x l IH]; intros z; [reflexivity|].
  cbn [imap length]. rewrite Nat2Z.inj_succ, seqZ_cons, Z.pred_succ by lia.
  rewrite Z.add_0_r. f_equal. rewrite <- IH. apply imap_ext. intros i y _. cbn. lia.
Qed.

Lemma filter_all {A} (P : A -> Prop) `{!forall x, Decision (P x)} l :
  Forall P l -> filter P l = l.
Proof.
  induction 1 as [|x l Hx _ IH]; [reflexivity|].
  by rewrite filter_cons_True, IH.
Qed.

Lemma filter_none {A} (P : A -> Prop) `{!forall x, Decision (P x)} l :
  Forall (fun x => ~ P x) l -> filter P l = [].
Proof.
  induction 1 as [|x l Hx _ IH]; [reflexivity|].
  by rewrite filter_cons_False.
Qed.

(** ** The loop over the channels *)


Section ChannelsProperties.
Variable db : database.
Variable realm_id : Z.
Variable added : gmap str Z.

#[local] Abbreviation turn_ := (channel_turn db realm_id added).
#[local] Abbreviation loop := (channels_loop db realm_id added).

Lemma channels_loop_app cs1 cs2 s :
  loop (cs1 ++ cs2) s
  = match loop cs1 s with
    | Ok s1 => loop cs2 s1
    | Err x => Err x
    end.
Proof.
  revert s. induction cs1 as [|c cs IH]; intros s; [reflexivity|].
  cbn [app channels_loop]. destruct (turn_ c s); [apply IH|reflexivity].
Qed.


Lemma channel_turn_returns c s s' :
  turn_ c s = Ok s' ->
  exists ids, member_ids added c = Some ids
  /\ stream_id_count s' = (stream_id_count s + 1)%Z
  /\ subscription_id_count s'
     = (subscription_id_count s + Z.of_nat (length (ch_members c)))%Z
  /\ zerver_subscription s'
     = zerver_subscription s
       ++ imap (fun j id => sub_row (stream_id_count s) id
                              (subscription_id_count s + Z.of_nat j)%Z) ids
  /\ zerver_recipient s'
     = zerver_recipient s
       ++ [Recipient (stream_id_count s) (stream_id_count s) 2]
  /\ (exists st, zerver_stream s' = zerver_stream s ++ [st]
        /\ st_id st = stream_id_count s /\ st_name st = ch_name c
        /\ zerver_defaultstream s'
           = zerver_defaultstream s
             ++ if bool_decide (st_name st = GENERAL)
                then [DefaultStream (st_id st) realm_id
                        (get_model_id (db_defaultstream db))]
                else [])
  /\ added_channels s' = <[ch_name c := stream_id_count s]> (added_channels s).
Proof.
  unfold channel_turn, member_ids.
  destruct (float_of_int (ch_created c)) as [date|y]; [|discriminate].
  destruct (mapM _ (ch_members c)) as [ids|] eqn:H.
  - rewrite (members_loop_known _ _ _ _ _ _ H). intros [= <-]. exists ids.
    cbn. repeat split; try reflexivity.
    eexists. split; [reflexivity|]. cbn. repeat split; try reflexivity.
    destruct (bool_decide _); [reflexivity|by rewrite app_nil_r].
  - rewrite (members_loop_unknown _ _ _ _ _ H). discriminate.
Qed.




Lemma channels_loop_stream_id_count cs s s' :
  loop cs s = Ok s' ->
  stream_id_count s' = (stream_id_count s + Z.of_nat (length cs))%Z.
Proof.
  revert s. induction cs as [|c cs IH]; intros s.
  - intros [= <-]. cbn. lia.
  - cbn [channels_loop]. destruct (turn_ c s) as [s1|y] eqn:Ht; [|discriminate].
    intros H. rewrite (IH _ H).
    destruct (channel_turn_returns _ _ _ Ht) as (ids & _ & -> & _).
    cbn [length]. lia.
Qed.

(** The streams and their recipients. *)
Lemma channels_loop_streams cs s s' :
  loop cs s = Ok s' ->
  exists new,
    zerver_stream s' = zerver_stream s ++ new
    /\ st_id <$> new = seqZ (stream_id_count s) (Z.of_nat (length cs))
    /\ st_name <$> new = ch_name <$> cs
    /\ zerver_recipient s'
       = zerver_recipient s
         ++ ((fun id => Recipient id id 2)
               <$> seqZ (stream_id_count s) (Z.of_nat (length cs)))
    /\ zerver_defaultstream s'
       = zerver_defaultstream s
         ++ ((fun st => DefaultStream (st_id st) realm_id
                          (get_model_id (db_defaultstream db)))
               <$> filter (fun st => st_name st = GENERAL) new).
Proof.
  revert s. induction cs as [|c cs IH]; intros s.
  - intros [= <-]. exists []. cbn. by rewrite !app_nil_r.
  - cbn [channels_loop]. destruct (turn_ c s) as [s1|y] eqn:Ht; [|discriminate].
    intros H. destruct (IH _ H) as (new & Hs & Hid & Hname & Hr & Hd).
    destruct (channel_turn_returns _ _ _ Ht)
      as (ids & _ & Hc & _ & _ & Hr1 & (st & Hs1 & Hst & Hn & Hd1) & _).
    exists (st :: new). rewrite Hs, Hs1, Hr, Hr1, Hd, Hd1, Hc, <- !app_assoc.
    cbn [length]. rewrite Nat2Z.inj_succ, seqZ_cons by lia.
    rewrite Z.pred_succ, !fmap_cons, Hid, Hname, Hst, Hn, Hc.
    replace (stream_id_count s + 1)%Z with (Z.succ (stream_id_count s)) by lia.
    repeat split; try reflexivity.
    f_equal. rewrite filter_cons.
    destruct (decide (st_name st = GENERAL)) as [Hg|Hg].
    + rewrite <- Hn, bool_decide_true by exact Hg. cbn. rewrite Hst. reflexivity.
    + rewrite <- Hn, bool_decide_false by exact Hg. reflexivity.
Qed.

(** The subscriptions of the members. *)
Lemma channels_loop_subscriptions cs s s' :
  loop cs s = Ok s' ->
  exists new,
    zerver_subscription s' = zerver_subscription s ++ new
    /\ sr_id <$> new
       = seqZ (subscription_id_count s) (Z.of_nat (length new))
    /\ subscription_id_count s'
       = (subscription_id_count s + Z.of_nat (length new))%Z
    /\ length new = sum_list (length ∘ ch_members <$> cs)
    /\ Forall (fun sub => (stream_id_count s <= sr_recipient sub
                           < stream_id_count s + Z.of_nat (length cs))%Z) new
    /\ forall i c, cs !! i = Some c ->
         member_ids added c
         = Some (subscribers (stream_id_count s + Z.of_nat i)%Z new).
Proof.
  revert s. induction cs as [|c cs IH]; intros s.
  - intros [= <-]. exists []. cbn. rewrite app_nil_r.
    repeat split; try done. lia.
  - cbn [channels_loop]. destruct (turn_ c s) as [s1|y] eqn:Ht; [|discriminate].
    intros H. destruct (IH _ H) as (new & Hs & Hid & Hc & Hlen & Hrange & Hmem).
    destruct (channel_turn_returns _ _ _ Ht)
      as (ids & Hids & Hsid & Hc1 & Hs1 & _).
    set (first := imap (fun j id => sub_row (stream_id_count s) id
                          (subscription_id_count s + Z.of_nat j)%Z) ids) in *.
    assert (Hlen_ids : length ids = length (ch_members c)).
    { unfold member_ids in Hids. apply length_mapM in Hids. done. }
    assert (Hlen1 : length first = length (ch_members c)).
    { unfold first. by rewrite length_imap. }
    assert (Hfirst_rec : Forall (fun sub => sr_recipient sub = stream_id_count s) first).
    { unfold first. apply Forall_forall. intros x Hx.
      apply elem_of_lookup_imap in Hx as (j & y & -> & _). reflexivity. }
    assert (Hfirst_up : sr_user_profile <$> first = ids).
    { unfold first. rewrite fmap_imap. apply imap_snd. }
    assert (Hfirst_id : sr_id <$> first
              = seqZ (subscription_id_count s) (Z.of_nat (length first))).
    { unfold first. rewrite fmap_imap, length_imap. apply imap_offsets. }
    exists (first ++ new). rewrite Hs, Hs1, <- app_assoc.
    split; [reflexivity|]. rewrite fmap_app, Hid, Hfirst_id, Hc, Hc1.
    rewrite length_app, Nat2Z.inj_add, seqZ_app by lia.
    rewrite Hlen1. split; [reflexivity|]. split; [lia|].
    split; [cbn; rewrite Hlen; reflexivity|].
    split.
    + apply Forall_app. split.
      * eapply Forall_impl; [exact Hfirst_rec|]. cbn. intros x ->. lia.
      * eapply Forall_impl; [exact Hrange|]. cbn. intros x Hx.
        rewrite Hsid in Hx. cbn [length]. lia.
    + intros i c' Hi. unfold subscribers. rewrite filter_app, fmap_app.
      destruct i as [|i]; cbn in Hi.
      * injection Hi as <-. rewrite Z.add_0_r.
        rewrite (filter_all _ first) by exact Hfirst_rec.
        rewrite (filter_none _ new), Hfirst_up, app_nil_r; [exact Hids|].
        eapply Forall_impl; [exact Hrange|]. cbn. intros x Hx. lia.
      * rewrite (filter_none _ first).
        -- cbn [fmap list_fmap app]. rewrite (Hmem _ _ Hi). unfold subscribers.
           replace (stream_id_count s + Z.of_nat (S i))%Z
             with (stream_id_count s1 + Z.of_nat i)%Z by (rewrite Hsid; lia).
           reflexivity.
        -- eapply Forall_impl; [exact Hfirst_rec|]. cbn. intros x ->. lia.
Qed.

Lemma channels_loop_added_other cs s s' name :
  loop cs s = Ok s' -> name ∉ (ch_name <$> cs) ->
  added_channels s' !! name = added_channels s !! name.
Proof.
  revert s. induction cs as [|c cs IH]; intros s.
  - by intros [= <-].
  - cbn [channels_loop]. destruct (turn_ c s) as [s1|y] eqn:Ht; [|discriminate].
    intros H Hn. rewrite fmap_cons, not_elem_of_cons in Hn. destruct Hn as [Hne Hn].
    rewrite (IH _ H Hn).
    destruct (channel_turn_returns _ _ _ Ht) as (ids & _ & _ & _ & _ & _ & _ & ->).
    by apply lookup_insert_ne.
Qed.

Lemma channels_loop_added_last cs1 c cs2 s s' :
  loop (cs1 ++ c :: cs2) s = Ok s' -> ch_name c ∉ (ch_name <$> cs2) ->
  added_channels s' !! ch_name c
  = Some (stream_id_count s + Z.of_nat (length cs1))%Z.
Proof.
  rewrite channels_loop_app. destruct (loop cs1 s) as [s1|] eqn:H1; [|discriminate].
  cbn [channels_loop]. destruct (turn_ c s1) as [s2|y] eqn:Ht; [|discriminate].
  intros H Hn. rewrite (channels_loop_added_other _ _ _ _ H Hn).
  destruct (channel_turn_returns _ _ _ Ht) as (ids & _ & _ & _ & _ & _ & _ & ->).
  rewrite lookup_insert, decide_True by done.
  by rewrite (channels_loop_stream_id_count _ _ _ H1).
Qed.

End ChannelsProperties.

(** ** The recipients and subscriptions of the private messages *)

Lemma personal_loop_closed profiles subs recips r c :
  personal_loop profiles subs recips r c
  = (subs ++ imap (fun i p => sub_row (r + Z.of_nat i) (up_id p)
                                (c + Z.of_nat i))%Z profiles,
     recips ++ imap (fun i p => Recipient (up_id p) (r + Z.of_nat i) 1)%Z profiles).
Proof.
  revert subs recips r c. induction profiles as [|p ps IH]; intros subs recips r c.
  - cbn. by rewrite !app_nil_r.
  - cbn [personal_loop]. rewrite IH, <- !app_assoc. cbn [imap app].
    rewrite !Z.add_0_r. f_equal; do 2 f_equal; apply imap_ext; intros i x _; cbn;
      f_equal; lia.
Qed.

(** ** The profiles of the users *)

(** X2: the profiles that [users_to_zerver_userprofile] makes, one for
    every entry of [users.json] in their order, get consecutive ids that
    start at [get_model_id(UserProfile)]; none of them is the id of a row of
    the table. *)
Theorem users_get_fresh_consecutive_ids h db users realm_id timestamp domain_name :
  let '(zerver_userprofile, _) :=
    users_to_zerver_userprofile h db users realm_id timestamp domain_name in
  up_id <$> zerver_userprofile
  = seqZ (get_model_id (db_userprofile db)) (Z.of_nat (length users))
  /\ forall id, id ∈ db_userprofile db -> id ∉ (up_id <$> zerver_userprofile).
Proof.
  unfold users_to_zerver_userprofile.
  destruct (users_loop _ _ _ _ _ _ _ _) as [profiles added] eqn:H.
  pose proof (users_loop_profiles h realm_id timestamp domain_name users [] ∅
                (get_model_id (db_userprofile db))) as Hp.
  rewrite H in Hp. cbn [fst app] in Hp. subst profiles.
  assert (Hids : up_id <$> imap (fun i u => userprofile_of h realm_id timestamp
                    domain_name u (get_model_id (db_userprofile db) + Z.of_nat i)%Z)
                  users
                 = seqZ (get_model_id (db_userprofile db)) (Z.of_nat (length users))).
  { rewrite fmap_imap. apply imap_offsets. }
  split; [exact Hids|]. rewrite Hids. intros id Hid Hin.
  apply elem_of_seqZ in Hin. apply get_model_id_fresh in Hid. lia.
Qed.

(** X3: [added_users] maps a Slack id to the id of the profile made
    for the last entry of [users.json] with that id; this profile has the
    handle of the entry as short name, the name that [get_user_full_name]
    gives as full name, and is active when the entry is not deleted. *)
Theorem slack_id_maps_to_last_profile h db us1 u us2 realm_id timestamp domain_name :
  u_id (su_entry u) ∉ (u_id ∘ su_entry <$> us2) ->
  let '(zerver_userprofile, added_users) :=
    users_to_zerver_userprofile h db (us1 ++ u :: us2) realm_id timestamp
      domain_name in
  exists userprofile,
    zerver_userprofile !! length us1 = Some userprofile
    /\ added_users !! u_id (su_entry u) = Some (up_id userprofile)
    /\ up_short_name userprofile = u_name (su_entry u)
    /\ up_full_name userprofile = get_user_full_name (su_entry u)
    /\ up_is_active userprofile = negb (u_deleted (su_entry u)).
Proof.
  intros Hlast. unfold users_to_zerver_userprofile.
  destruct (users_loop _ _ _ _ _ _ _ _) as [profiles added] eqn:H.
  pose proof (users_loop_profiles h realm_id timestamp domain_name
                (us1 ++ u :: us2) [] ∅ (get_model_id (db_userprofile db))) as Hp.
  pose proof (users_loop_last h realm_id timestamp domain_name us1 u us2 [] ∅
                (get_model_id (db_userprofile db)) Hlast) as Ha.
  rewrite H in Hp, Ha. cbn [fst snd app] in Hp, Ha. subst profiles.
  eexists. split.
  - rewrite list_lookup_imap, list_lookup_middle by reflexivity. reflexivity.
  - rewrite Ha. cbn. done.
Qed.

Lemma slack_id_maps_to_last_profile_witness :
  (u_id (su_entry BOB_USER) ∉ (u_id ∘ su_entry <$> [ALICE_USER]))
  /\ (let '(zerver_userprofile, added_users) :=
        users_to_zerver_userprofile NO_DIGEST USED_DB
          ([ALICE_USER] ++ BOB_USER :: [ALICE_USER]) 1 1512345678 DOMAIN_NAME in
      exists userprofile,
        zerver_userprofile !! length [ALICE_USER] = Some userprofile
        /\ added_users !! u_id (su_entry BOB_USER) = Some (up_id userprofile)
        /\ up_short_name userprofile = u_name (su_entry BOB_USER)
        /\ up_full_name userprofile = get_user_full_name (su_entry BOB_USER)
        /\ up_is_active userprofile = negb (u_deleted (su_entry BOB_USER))).
Proof.
  assert (H : u_id (su_entry BOB_USER) ∉ (u_id ∘ su_entry <$> [ALICE_USER])).
  { apply not_elem_of_cons. split; [|apply not_elem_of_nil].
    vm_compute. discriminate. }
  split; [exact H|].
  exact (slack_id_maps_to_last_profile NO_DIGEST USED_DB [ALICE_USER] BOB_USER
           [ALICE_USER] 1 1512345678 DOMAIN_NAME H).
Defined.


Lemma timezone_of_has_slash user : chr "/" ∈ timezone_of user.
Proof.
  assert (Hd : chr "/" ∈ DEFAULT_TIMEZONE).
  { apply (bool_decide_unpack _). vm_compute. reflexivity. }
  unfold timezone_of. destruct (default _ _) as [tz|]; [|exact Hd].
  destruct (bool_decide (chr "/" ∈ tz)) eqn:Htz; cbn; [|exact Hd].
  by apply bool_decide_eq_true in Htz.
Qed.

(** X4: the time zone of the profile of an entry is the [tz] of the
    entry when that is there, is not null and holds a slash, and
    [America/New_York] otherwise; so the time zone of every profile holds a
    slash. *)
Theorem timezones_name_a_region h db users realm_id timestamp domain_name :
  let '(zerver_userprofile, _) :=
    users_to_zerver_userprofile h db users realm_id timestamp domain_name in
  Forall2 (fun user userprofile =>
             match su_tz user with
             | Some (Some tz) =>
                 (chr "/" ∈ tz -> up_timezone userprofile = tz)
                 /\ (chr "/" ∉ tz
                     -> up_timezone userprofile = py "America/New_York")
             | Some None | None =>
                 up_timezone userprofile = py "America/New_York"
             end
             /\ chr "/" ∈ up_timezone userprofile)
          users zerver_userprofile.
Proof.
  unfold users_to_zerver_userprofile.
  destruct (users_loop _ _ _ _ _ _ _ _) as [profiles added] eqn:H.
  pose proof (users_loop_profiles h realm_id timestamp domain_name users [] ∅
                (get_model_id (db_userprofile db))) as Hp.
  rewrite H in Hp. cbn [fst app] in Hp. subst profiles.
  apply Forall2_same_length_lookup. split; [by rewrite length_imap|].
  intros i u p Hu Hp. rewrite list_lookup_imap, Hu in Hp. injection Hp as <-.
  cbn [userprofile_of up_timezone]. split; [|apply timezone_of_has_slash].
  unfold timezone_of, DEFAULT_TIMEZONE.
  destruct (su_tz u) as [[tz|]|]; cbv [default from_option id]; try reflexivity.
  destruct (bool_decide (chr "/" ∈ tz)) eqn:Htz; cbn [negb].
  - apply bool_decide_eq_true in Htz. done.
  - apply bool_decide_eq_false in Htz. done.
Qed.

(** ** Streams, recipients and subscriptions *)

Lemma two_channels_converted :
  channels_to_zerver_stream USED_DB TWO_CHANNELS 1 TWO_USERS TWO_PROFILES
  = Ok TWO_CHANNELS_RESULT.
Proof. vm_compute. reflexivity. Qed.

Section ChannelsTheorems.
Variable db : database.
Variable realm_id : Z.
Variable added : gmap str Z.
Variable profiles : list userprofile.
Variable channels : list slack_channel.

#[local] Abbreviation first_state :=
  (ChannelsState [] [] ∅ [] [] (get_model_id (db_stream db))
                 (get_model_id (db_subscription db))).

Lemma channels_to_zerver_stream_returns r :
  channels_to_zerver_stream db channels realm_id added profiles = Ok r ->
  exists s,
    channels_loop db realm_id added channels first_state = Ok s
    /\ cr_defaultstream r = zerver_defaultstream s
    /\ cr_stream r = zerver_stream s
    /\ cr_added_channels r = added_channels s
    /\ cr_subscription r
       = zerver_subscription s
         ++ imap (fun i p => sub_row (stream_id_count s + 1 + Z.of_nat i) (up_id p)
                               (subscription_id_count s + 1 + Z.of_nat i))%Z profiles
    /\ cr_recipient r
       = zerver_recipient s
         ++ imap (fun i p => Recipient (up_id p)
                               (stream_id_count s + 1 + Z.of_nat i) 1)%Z profiles.
Proof.
  unfold channels_to_zerver_stream.
  destruct (channels_loop _ _ _ _ _) as [s|x]; [|discriminate].
  rewrite personal_loop_closed. intros [= <-]. exists s. cbn. done.
Qed.

End ChannelsTheorems.


(** X6: the streams are those of the channels, in their order and with
    their names; their ids are consecutive from [get_model_id(Stream)] and
    none is the id of a row of the table. *)
Theorem streams_follow_channels db channels realm_id added profiles r :
  channels_to_zerver_stream db channels realm_id added profiles = Ok r ->
  st_name <$> cr_stream r = ch_name <$> channels
  /\ st_id <$> cr_stream r
     = seqZ (get_model_id (db_stream db)) (Z.of_nat (length channels))
  /\ forall id, id ∈ db_stream db -> id ∉ (st_id <$> cr_stream r).
Proof.
  intros H. apply channels_to_zerver_stream_returns in H
    as (s & Hl & _ & -> & _).
  apply channels_loop_streams in Hl as (new & -> & Hid & Hname & _).
  cbn [zerver_stream stream_id_count app] in *. rewrite Hid.
  repeat split; [exact Hname|]. intros id Hin Hs. apply elem_of_seqZ in Hs.
  apply get_model_id_fresh in Hin. lia.
Qed.

Lemma streams_follow_channels_witness :
  channels_to_zerver_stream USED_DB TWO_CHANNELS 1 TWO_USERS TWO_PROFILES
  = Ok TWO_CHANNELS_RESULT
  /\ (st_name <$> cr_stream TWO_CHANNELS_RESULT = ch_name <$> TWO_CHANNELS
      /\ st_id <$> cr_stream TWO_CHANNELS_RESULT
         = seqZ (get_model_id (db_stream USED_DB))
                (Z.of_nat (length TWO_CHANNELS))
      /\ forall id, id ∈ db_stream USED_DB ->
           id ∉ (st_id <$> cr_stream TWO_CHANNELS_RESULT)).
Proof.
  split; [exact two_channels_converted|].
  exact (streams_follow_channels _ _ _ _ _ _ two_channels_converted).
Defined.

(** X7: [zerver_recipient] holds one recipient of type 2 for every
    stream, with the id of the stream as id and as [type_id], then one of
    type 1 for every user profile, with ids that go on after the ids of the
    streams with one id left out; no two recipients share an id. *)
Theorem recipients_of_streams_and_users db channels realm_id added profiles r :
  channels_to_zerver_stream db channels realm_id added profiles = Ok r ->
  let first := get_model_id (db_stream db) in
  let n := Z.of_nat (length channels) in
  cr_recipient r
  = ((fun id => Recipient id id 2) <$> seqZ first n)
    ++ imap (fun i p => Recipient (up_id p) (first + n + 1 + Z.of_nat i) 1)%Z profiles
  /\ NoDup (rc_id <$> cr_recipient r).
Proof.
  intros H first n. apply channels_to_zerver_stream_returns in H
    as (s & Hl & _ & _ & _ & _ & ->).
  pose proof (channels_loop_stream_id_count _ _ _ _ _ _ Hl) as Hn.
  apply channels_loop_streams in Hl as (new & _ & _ & _ & -> & _).
  cbn [zerver_recipient stream_id_count app] in *. fold first n in Hn |- *.
  rewrite Hn. split; [reflexivity|].
  rewrite fmap_app, fmap_imap, <- list_fmap_compose.
  rewrite (list_fmap_ext _ id (seqZ first n)) by done. rewrite list_fmap_id.
  rewrite (imap_ext _ (fun i _ => (first + n + 1 + Z.of_nat i)%Z)) by done.
  rewrite imap_offsets. apply NoDup_app. repeat split; try apply NoDup_seqZ.
  intros x Hx Hy. apply elem_of_seqZ in Hx, Hy. lia.
Qed.

Lemma recipients_of_streams_and_users_witness :
  channels_to_zerver_stream USED_DB TWO_CHANNELS 1 TWO_USERS TWO_PROFILES
  = Ok TWO_CHANNELS_RESULT
  /\ (let first := get_model_id (db_stream USED_DB) in
      let n := Z.of_nat (length TWO_CHANNELS) in
      cr_recipient TWO_CHANNELS_RESULT
      = ((fun id => Recipient id id 2) <$> seqZ first n)
        ++ imap (fun i p => Recipient (up_id p) (first + n + 1 + Z.of_nat i) 1)%Z
             TWO_PROFILES
      /\ NoDup (rc_id <$> cr_recipient TWO_CHANNELS_RESULT)).
Proof.
  split; [exact two_channels_converted|].
  exact (recipients_of_streams_and_users _ _ _ _ _ _ two_channels_converted).
Defined.

(** X8: [zerver_subscription] holds one row for every member of
    every channel, then one for every user profile, to the recipient of the
    private messages of the user; the ids are all different and none is the
    id of a row of the table (one id is left out between the two parts). *)
Theorem subscriptions_of_members_and_users db channels realm_id added profiles r :
  channels_to_zerver_stream db channels realm_id added profiles = Ok r ->
  let first := get_model_id (db_subscription db) in
  let recipient_id := (get_model_id (db_stream db)
                       + Z.of_nat (length channels) + 1)%Z in
  exists of_members,
    length of_members = sum_list (length ∘ ch_members <$> channels)
    /\ cr_subscription r
       = of_members
         ++ imap (fun i p =>
                    sub_row (recipient_id + Z.of_nat i) (up_id p)
                      (first + Z.of_nat (length of_members) + 1 + Z.of_nat i))%Z
              profiles
    /\ NoDup (sr_id <$> cr_subscription r)
    /\ forall id, id ∈ db_subscription db -> id ∉ (sr_id <$> cr_subscription r).
Proof.
  intros H first recipient_id. apply channels_to_zerver_stream_returns in H
    as (s & Hl & _ & _ & _ & -> & _).
  pose proof (channels_loop_stream_id_count _ _ _ _ _ _ Hl) as Hn.
  apply channels_loop_subscriptions in Hl
    as (new & -> & Hid & Hc & Hlen & _ & _).
  cbn [zerver_subscription subscription_id_count stream_id_count app] in *.
  fold first in Hid, Hc. exists new. rewrite Hn, Hc. fold recipient_id.
  split; [exact Hlen|]. split; [reflexivity|].
  rewrite fmap_app, fmap_imap, Hid.
  rewrite (imap_ext _ (fun i _ => (first + Z.of_nat (length new) + 1 + Z.of_nat i)%Z))
    by done.
  rewrite imap_offsets. split.
  - apply NoDup_app. repeat split; try apply NoDup_seqZ.
    intros x Hx Hy. apply elem_of_seqZ in Hx, Hy. lia.
  - intros id Hin Hs. apply get_model_id_fresh in Hin. fold first in Hin.
    apply elem_of_app in Hs as [Hs|Hs]; apply elem_of_seqZ in Hs; lia.
Qed.

Lemma subscriptions_of_members_and_users_witness :
  channels_to_zerver_stream USED_DB TWO_CHANNELS 1 TWO_USERS TWO_PROFILES
  = Ok TWO_CHANNELS_RESULT
  /\ (let first := get_model_id (db_subscription USED_DB) in
      let recipient_id := (get_model_id (db_stream USED_DB)
                           + Z.of_nat (length TWO_CHANNELS) + 1)%Z in
      exists of_members,
        length of_members = sum_list (length ∘ ch_members <$> TWO_CHANNELS)
        /\ cr_subscription TWO_CHANNELS_RESULT
           = of_members
             ++ imap (fun i p =>
                        sub_row (recipient_id + Z.of_nat i) (up_id p)
                          (first + Z.of_nat (length of_members) + 1 + Z.of_nat i))%Z
                  TWO_PROFILES
        /\ NoDup (sr_id <$> cr_subscription TWO_CHANNELS_RESULT)
        /\ forall id, id ∈ db_subscription USED_DB ->
             id ∉ (sr_id <$> cr_subscription TWO_CHANNELS_RESULT)).
Proof.
  split; [exact two_channels_converted|].
  exact (subscriptions_of_members_and_users _ _ _ _ _ _ two_channels_converted).
Defined.

(** X9: the rows subscribed to the stream of a channel are those of
    the members of the channel, in their order; the rows of the private
    messages do not get in their way. *)
Theorem members_are_the_subscribers db channels realm_id added profiles r i channel :
  channels_to_zerver_stream db channels realm_id added profiles = Ok r ->
  channels !! i = Some channel ->
  member_ids added channel
  = Some (subscribers (get_model_id (db_stream db) + Z.of_nat i)%Z
            (cr_subscription r)).
Proof.
  intros H Hi. apply channels_to_zerver_stream_returns in H
    as (s & Hl & _ & _ & _ & -> & _).
  pose proof (channels_loop_stream_id_count _ _ _ _ _ _ Hl) as Hn.
  apply channels_loop_subscriptions in Hl
    as (new & -> & _ & _ & _ & _ & Hmem).
  cbn [zerver_subscription subscription_id_count stream_id_count app] in *.
  rewrite (Hmem _ _ Hi). unfold subscribers. rewrite filter_app, fmap_app.
  rewrite (filter_none _ (imap _ profiles)); [by rewrite app_nil_r|].
  apply Forall_forall. intros x Hx.
  apply elem_of_lookup_imap in Hx as (j & p & -> & _). cbn.
  apply lookup_lt_Some in Hi. lia.
Qed.

Lemma members_are_the_subscribers_witness :
  channels_to_zerver_stream USED_DB TWO_CHANNELS 1 TWO_USERS TWO_PROFILES
  = Ok TWO_CHANNELS_RESULT
  /\ TWO_CHANNELS !! 0%nat = Some GENERAL_CHANNEL
  /\ member_ids TWO_USERS GENERAL_CHANNEL
     = Some (subscribers (get_model_id (db_stream USED_DB) + Z.of_nat 0)%Z
               (cr_subscription TWO_CHANNELS_RESULT)).
Proof.
  split; [exact two_channels_converted|]. split; [reflexivity|].
  exact (members_are_the_subscribers _ _ _ _ _ _ 0%nat _ two_channels_converted
           eq_refl).
Defined.

(** X10: [added_channels] maps the name of a channel to the id of
    the stream made for the last channel of that name, and this stream has
    the name. *)
Theorem channel_name_maps_to_last_stream db cs1 channel cs2 realm_id added profiles r :
  channels_to_zerver_stream db (cs1 ++ channel :: cs2) realm_id added profiles
  = Ok r ->
  ch_name channel ∉ (ch_name <$> cs2) ->
  exists stream_,
    cr_stream r !! length cs1 = Some stream_
    /\ cr_added_channels r !! ch_name channel = Some (st_id stream_)
    /\ st_name stream_ = ch_name channel
    /\ st_id stream_ = (get_model_id (db_stream db) + Z.of_nat (length cs1))%Z.
Proof.
  intros H Hlast. apply channels_to_zerver_stream_returns in H
    as (s & Hl & _ & -> & -> & _).
  rewrite (channels_loop_added_last _ _ _ _ _ _ _ _ Hl Hlast).
  apply channels_loop_streams in Hl as (new & -> & Hid & Hname & _).
  cbn [zerver_stream stream_id_count app] in *.
  assert (Hlen : (length cs1 < length new)%nat).
  { rewrite <- (length_fmap st_name), Hname, length_fmap, length_app. cbn. lia. }
  destruct (lookup_lt_is_Some_2 _ _ Hlen) as [st Hst]. exists st.
  split; [exact Hst|].
  assert (Hi : st_id st = (get_model_id (db_stream db) + Z.of_nat (length cs1))%Z).
  { pose proof (f_equal (fun l => l !! length cs1) Hid) as E. cbn in E.
    rewrite list_lookup_fmap, Hst in E. cbn in E. symmetry in E.
    apply lookup_seqZ in E as [E _]. exact E. }
  split; [by rewrite Hi|]. split; [|exact Hi].
  pose proof (f_equal (fun l => l !! length cs1) Hname) as E. cbn in E.
  rewrite !list_lookup_fmap, Hst, list_lookup_middle in E by reflexivity.
  cbn in E. congruence.
Qed.

Lemma channel_name_maps_to_last_stream_witness :
  channels_to_zerver_stream USED_DB ([GENERAL_CHANNEL] ++ RANDOM_CHANNEL :: []) 1
    TWO_USERS TWO_PROFILES = Ok TWO_CHANNELS_RESULT
  /\ (ch_name RANDOM_CHANNEL ∉ (ch_name <$> []))
  /\ exists stream_,
       cr_stream TWO_CHANNELS_RESULT !! length [GENERAL_CHANNEL] = Some stream_
       /\ cr_added_channels TWO_CHANNELS_RESULT !! ch_name RANDOM_CHANNEL
          = Some (st_id stream_)
       /\ st_name stream_ = ch_name RANDOM_CHANNEL
       /\ st_id stream_
          = (get_model_id (db_stream USED_DB)
             + Z.of_nat (length [GENERAL_CHANNEL]))%Z.
Proof.
  split; [exact two_channels_converted|]. split; [apply not_elem_of_nil|].
  exact (channel_name_maps_to_last_stream USED_DB [GENERAL_CHANNEL] RANDOM_CHANNEL
           [] 1 TWO_USERS TWO_PROFILES _ two_channels_converted
           (not_elem_of_nil _)).
Defined.

(** X11: there is a default stream for every stream with the name
    [general], and for no other (whatever [is_general] tells); they all
    get the same id, [get_model_id(DefaultStream)]. *)
Theorem default_streams_are_named_general db channels realm_id added profiles r :
  channels_to_zerver_stream db channels realm_id added profiles = Ok r ->
  cr_defaultstream r
  = (fun stream_ => DefaultStream (st_id stream_) realm_id
                      (get_model_id (db_defaultstream db)))
      <$> filter (fun stream_ => st_name stream_ = GENERAL) (cr_stream r).
Proof.
  intros H. apply channels_to_zerver_stream_returns in H
    as (s & Hl & -> & -> & _).
  apply channels_loop_streams in Hl as (new & -> & _ & _ & _ & ->).
  reflexivity.
Qed.

Lemma default_streams_are_named_general_witness :
  channels_to_zerver_stream USED_DB TWO_CHANNELS 1 TWO_USERS TWO_PROFILES
  = Ok TWO_CHANNELS_RESULT
  /\ cr_defaultstream TWO_CHANNELS_RESULT
     = (fun stream_ => DefaultStream (st_id stream_) 1
                         (get_model_id (db_defaultstream USED_DB)))
         <$> filter (fun stream_ => st_name stream_ = GENERAL)
               (cr_stream TWO_CHANNELS_RESULT).
Proof.
  split; [exact two_channels_converted|].
  exact (default_streams_are_named_general _ _ _ _ _ _ two_channels_converted).
Defined.

(** ** The loop over the subscriptions *)

Lemma usermessages_loop_closed subs z ids umid acc :
  usermessages_loop subs z ids umid acc
  = ((umid + Z.of_nat (length (receivers subs z)))%Z,
     acc ++ usermessages_for subs z ids umid).
Proof.
  unfold usermessages_for, receivers.
  revert umid acc. induction subs as [|s subs IH]; intros umid acc.
  - cbn. rewrite app_nil_r, Z.add_0_r. reflexivity.
  - cbn [usermessages_loop]. rewrite filter_cons.
    destruct (decide (sub_recipient s = zm_recipient z)) as [Hs|Hs].
    + rewrite bool_decide_true by exact Hs. rewrite IH, <- app_assoc.
      cbn [imap app length]. rewrite Z.add_0_r. f_equal; [lia|].
      do 2 f_equal. apply imap_ext. intros i x _. cbn. f_equal. lia.
    + rewrite bool_decide_false by exact Hs. apply IH.
Qed.

(** ** One message *)

Lemma convert_keeps_env text e : snd (convert_to_zulip_markdown text e) = e.
Proof. apply read_only_convert_to_zulip_markdown. Qed.

Lemma message_turn_skipped channel ac subs message state e :
  skipped message = true ->
  message_turn channel ac subs message state e
  = match fst (convert_to_zulip_markdown (msg_text message) e) with
    | Ok _ => (Ok state, e)
    | Err x => (Err x, e)
    end.
Proof.
  intros Hs. unfold message_turn, skipped in *.
  destruct state as [[[mid umid] zm] zum].
  unfold mbind, M_bind.
  pose proof (convert_keeps_env (msg_text message) e) as He.
  destruct (convert_to_zulip_markdown (msg_text message) e) as [[[[c i] l]|x] e1];
    cbn in He; subst e1; cbn [fst]; [|reflexivity].
  rewrite Hs. reflexivity.
Qed.

Lemma message_turn_kept channel ac subs message mid umid zm zum e :
  skipped message = false ->
  message_turn channel ac subs message (mid, umid, zm, zum) e
  = match fst (convert_to_zulip_markdown (msg_text message) e) with
    | Ok (content, mentioned_users_id, has_link) =>
        match sending_user message with
        | Ok user =>
            match float (msg_ts message) with
            | Ok pub_date =>
                match added_users e !! user with
                | Some sender =>
                    match ac !! channel with
                    | Some recipient =>
                        let z := ZulipMessage 1 1
                                   (default false (msg_has_image message))
                                   channel pub_date mid false sender content
                                   recipient has_link in
                        (Ok ((mid + 1)%Z,
                             (umid + Z.of_nat (length (receivers subs z)))%Z,
                             zm ++ [z],
                             zum ++ usermessages_for subs z mentioned_users_id umid),
                         e)
                    | None => (Err KeyError, e)
                    end
                | None => (Err KeyError, e)
                end
            | Err x => (Err x, e)
            end
        | Err x => (Err x, e)
        end
    | Err x => (Err x, e)
    end.
Proof.
  intros Hs. unfold message_turn, skipped in *.
  unfold mbind, M_bind.
  pose proof (convert_keeps_env (msg_text message) e) as He.
  destruct (convert_to_zulip_markdown (msg_text message) e) as [[[[c i] l]|x] e1];
    cbn in He; subst e1; cbn [fst]; [|reflexivity].
  rewrite Hs. unfold lift. destruct (sending_user message) as [user|x]; [|reflexivity].
  destruct (float (msg_ts message)) as [pub_date|x]; [|reflexivity].
  unfold added_users_at. destruct (added_users e !! user) as [sender|]; [|reflexivity].
  destruct (ac !! channel) as [recipient|]; [|reflexivity].
  rewrite usermessages_loop_closed. reflexivity.
Qed.

(** ** What the loops over the messages add *)

Section Grows.
Variable e : env.
Variable channel : str.
Variable ac : gmap str Z.
Variable subs : list subscription.

#[local] Abbreviation grows_ := (grows e channel ac subs).

Lemma grows_nil state : grows_ [] state state.
Proof.
  destruct state as [[[mid umid] zm] zum]. exists [], []. cbn.
  rewrite !app_nil_r, !Z.add_0_r. repeat split; constructor.
Qed.

Lemma grows_app ms1 ms2 st st1 st2 :
  grows_ ms1 st st1 -> grows_ ms2 st1 st2 -> grows_ (ms1 ++ ms2) st st2.
Proof.
  destruct st as [[[mid umid] zm] zum].
  intros (zm1 & zum1 & -> & Hid1 & Huid1 & Himp1 & Hdel1 & Hflag1).
  intros (zm2 & zum2 & -> & Hid2 & Huid2 & Himp2 & Hdel2 & Hflag2).
  pose proof (Forall2_length _ _ _ Himp1) as Hlen1.
  exists (zm1 ++ zm2), (zum1 ++ zum2).
  rewrite !length_app, !Nat2Z.inj_add, <- !app_assoc, !fmap_app, !seqZ_app by lia.
  rewrite Hid1, Hid2, Huid1, Huid2, filter_app, concat_app, Hdel1, Hdel2.
  rewrite zip_with_app by exact Hlen1.
  repeat split.
  - by rewrite !Z.add_assoc.
  - by apply Forall2_app.
  - apply Forall_app. split.
    + eapply Forall_impl; [exact Hflag1|]. cbn.
      intros um (m & z & Hin & H). exists m, z. split; [|exact H].
      apply elem_of_app. by left.
    + eapply Forall_impl; [exact Hflag2|]. cbn.
      intros um (m & z & Hin & H). exists m, z. split; [|exact H].
      apply elem_of_app. by right.
Qed.

Lemma usermessages_for_ids z ids umid :
  um_id <$> usermessages_for subs z ids umid
  = seqZ umid (Z.of_nat (length (usermessages_for subs z ids umid))).
Proof.
  unfold usermessages_for. rewrite fmap_imap, length_imap. apply imap_offsets.
Qed.

Lemma usermessages_for_length z ids umid :
  length (usermessages_for subs z ids umid) = length (receivers subs z).
Proof. unfold usermessages_for. apply length_imap. Qed.

Lemma usermessages_for_deliveries z ids umid :
  (fun um => (um_message um, um_user_profile um))
    <$> usermessages_for subs z ids umid
  = deliveries subs z.
Proof.
  unfold usermessages_for, deliveries. rewrite fmap_imap, <- imap_const.
  apply imap_ext. reflexivity.
Qed.

Lemma message_turn_grows message state state' e' :
  message_turn channel ac subs message state e = (Ok state', e') ->
  e' = e /\ grows_ [message] state state'.
Proof.
  destruct (skipped message) eqn:Hs.
  - rewrite (message_turn_skipped _ _ _ _ _ _ Hs).
    destruct (fst _); [|discriminate]. intros [= <- <-]. split; [reflexivity|].
    destruct state as [[[mid umid] zm] zum]. unfold grows.
    rewrite filter_cons_False, filter_nil
      by (unfold kept; rewrite Hs; discriminate).
    exists [], []. cbn. rewrite !app_nil_r, !Z.add_0_r. repeat split; constructor.
  - destruct state as [[[mid umid] zm] zum].
    rewrite (message_turn_kept _ _ _ _ _ _ _ _ _ Hs).
    destruct (fst _) as [[[content ids] link]|x] eqn:Hc; [|discriminate].
    destruct (sending_user message) as [user|x] eqn:Hu; [|discriminate].
    destruct (float (msg_ts message)) as [pub_date|x] eqn:Hf; [|discriminate].
    destruct (added_users e !! user) as [sender|] eqn:Hsender; [|discriminate].
    destruct (ac !! channel) as [recipient|] eqn:Hr; [|discriminate].
    cbv zeta. set (z := ZulipMessage _ _ _ _ _ _ _ _ _ _ _).
    intros [= <- <-]. split; [reflexivity|].
    assert (Hm : mentioned e message = ids).
    { unfold mentioned. by rewrite Hc. }
    unfold grows. rewrite filter_cons_True, filter_nil by exact Hs.
    exists [z], (usermessages_for subs z ids umid). cbn [length].
    rewrite <- usermessages_for_ids, usermessages_for_length.
    rewrite usermessages_for_deliveries.
    repeat split.
    + constructor; [|constructor]. exists user. rewrite Hm. by repeat split.
    + cbn. by rewrite app_nil_r.
    + apply Forall_forall. intros um Hum. exists message, z. split; [by left|].
      unfold usermessages_for in Hum.
      apply elem_of_lookup_imap in Hum as (i & s & -> & _). cbn. by rewrite Hm.
Qed.

Lemma messages_loop_grows messages state state' e' :
  messages_loop channel ac subs messages state e = (Ok state', e') ->
  e' = e /\ grows_ messages state state'.
Proof.
  revert state. induction messages as [|m ms IH]; intros state.
  - intros [= <- <-]. split; [reflexivity|apply grows_nil].
  - cbn [messages_loop]. unfold mbind, M_bind.
    destruct (message_turn _ _ _ _ _ _) as [[st1|x] e1] eqn:Ht; [|discriminate].
    apply message_turn_grows in Ht as [-> Hg1]. intros H.
    apply IH in H as [-> Hg2]. split; [reflexivity|].
    exact (grows_app [m] ms _ _ _ Hg1 Hg2).
Qed.

Lemma files_loop_grows files state state' e' :
  files_loop channel ac subs files state e = (Ok state', e') ->
  e' = e /\ grows_ (concat files) state state'.
Proof.
  revert state. induction files as [|ms files IH]; intros state.
  - intros [= <- <-]. split; [reflexivity|apply grows_nil].
  - cbn [files_loop]. unfold mbind, M_bind.
    destruct (messages_loop _ _ _ _ _ _) as [[st1|x] e1] eqn:Ht; [|discriminate].
    apply messages_loop_grows in Ht as [-> Hg1]. intros H.
    apply IH in H as [-> Hg2]. split; [reflexivity|].
    exact (grows_app ms (concat files) _ _ _ Hg1 Hg2).
Qed.

Lemma channel_messages_grow files mid umid zm zum e' :
  channel_message_to_zerver_message files channel ac subs (mid, umid) e
  = (Ok (zm, zum), e') ->
  e' = e
  /\ grows_ (concat files) (mid, umid, [], [])
       ((mid + Z.of_nat (length zm))%Z, (umid + Z.of_nat (length zum))%Z, zm, zum).
Proof.
  unfold channel_message_to_zerver_message, mbind, M_bind.
  destruct (files_loop _ _ _ _ _ _) as [[[[[mid' umid'] zm'] zum']|x] e1] eqn:H;
    [|discriminate].
  intros [= -> -> ->]. apply files_loop_grows in H as [-> Hg].
  split; [reflexivity|].
  destruct Hg as (zm1 & zum1 & Heq & Hg). cbn [app] in Heq.
  injection Heq as -> -> -> ->. exists zm1, zum1. by split.
Qed.

End Grows.

(** ** The rows of a channel *)

Lemma general_messages_converted :
  channel_message_to_zerver_message GENERAL_FILES GENERAL
    (cr_added_channels TWO_CHANNELS_RESULT) TWO_CHANNELS_SUBSCRIPTIONS (1, 1)%Z
    TWO_USERS_ENV
  = (Ok (GENERAL_MESSAGES, GENERAL_USERMESSAGES), TWO_USERS_ENV).
Proof. vm_compute. reflexivity. Qed.

(** X12: the messages and the user messages that
    [channel_message_to_zerver_message] returns have consecutive ids, from
    the two ids it is given. *)
Theorem channel_rows_get_consecutive_ids files channel ac subs mid umid e zm zum e' :
  channel_message_to_zerver_message files channel ac subs (mid, umid) e
  = (Ok (zm, zum), e') ->
  zm_id <$> zm = seqZ mid (Z.of_nat (length zm))
  /\ um_id <$> zum = seqZ umid (Z.of_nat (length zum)).
Proof.
  intros H. apply channel_messages_grow in H as [_ (zm1 & zum1 & Heq & H1 & H2 & _)].
  cbn [app] in Heq. injection Heq as _ _ <- <-. by split.
Qed.

Lemma channel_rows_get_consecutive_ids_witness :
  channel_message_to_zerver_message GENERAL_FILES GENERAL
    (cr_added_channels TWO_CHANNELS_RESULT) TWO_CHANNELS_SUBSCRIPTIONS (1, 1)%Z
    TWO_USERS_ENV
  = (Ok (GENERAL_MESSAGES, GENERAL_USERMESSAGES), TWO_USERS_ENV)
  /\ (zm_id <$> GENERAL_MESSAGES = seqZ 1 (Z.of_nat (length GENERAL_MESSAGES))
      /\ um_id <$> GENERAL_USERMESSAGES
         = seqZ 1 (Z.of_nat (length GENERAL_USERMESSAGES))).
Proof.
  split; [exact general_messages_converted|].
  exact (channel_rows_get_consecutive_ids _ _ _ _ _ _ _ _ _ _
           general_messages_converted).
Defined.

(** X13: [channel_message_to_zerver_message] returns one message for
    every message of the files that is not of a subtype passed over, in
    their order: its content and link flag are what the conversion of the
    text gives, its sender and recipient are the Zulip ids of the sending
    user and of the channel, its date is the float of the time stamp; the
    environment is as it was. *)
Theorem channel_messages_are_the_kept_ones files channel ac subs ids e zm zum e' :
  channel_message_to_zerver_message files channel ac subs ids e
  = (Ok (zm, zum), e') ->
  e' = e
  /\ Forall2 (imported e channel ac) (filter kept (concat files)) zm.
Proof.
  destruct ids as [mid umid]. intros H.
  apply channel_messages_grow in H as [-> (zm1 & zum1 & Heq & _ & _ & H & _)].
  cbn [app] in Heq. injection Heq as _ _ <- <-. by split.
Qed.

Lemma channel_messages_are_the_kept_ones_witness :
  channel_message_to_zerver_message GENERAL_FILES GENERAL
    (cr_added_channels TWO_CHANNELS_RESULT) TWO_CHANNELS_SUBSCRIPTIONS (1, 1)%Z
    TWO_USERS_ENV
  = (Ok (GENERAL_MESSAGES, GENERAL_USERMESSAGES), TWO_USERS_ENV)
  /\ (TWO_USERS_ENV = TWO_USERS_ENV
      /\ Forall2 (imported TWO_USERS_ENV GENERAL
                    (cr_added_channels TWO_CHANNELS_RESULT))
           (filter kept (concat GENERAL_FILES)) GENERAL_MESSAGES).
Proof.
  split; [exact general_messages_converted|].
  exact (channel_messages_are_the_kept_ones _ _ _ _ _ _ _ _ _
           general_messages_converted).
Defined.

(** X14: the user messages are, for every message in its order, one
    for every subscription to the recipient of the message, in the order of
    the subscriptions, and no other. *)
Theorem usermessages_reach_the_subscribers files channel ac subs ids e zm zum e' :
  channel_message_to_zerver_message files channel ac subs ids e
  = (Ok (zm, zum), e') ->
  (fun um => (um_message um, um_user_profile um)) <$> zum
  = concat (deliveries subs <$> zm).
Proof.
  destruct ids as [mid umid]. intros H.
  apply channel_messages_grow in H as [_ (zm1 & zum1 & Heq & _ & _ & _ & H & _)].
  cbn [app] in Heq. injection Heq as _ _ <- <-. exact H.
Qed.

Lemma usermessages_reach_the_subscribers_witness :
  channel_message_to_zerver_message GENERAL_FILES GENERAL
    (cr_added_channels TWO_CHANNELS_RESULT) TWO_CHANNELS_SUBSCRIPTIONS (1, 1)%Z
    TWO_USERS_ENV
  = (Ok (GENERAL_MESSAGES, GENERAL_USERMESSAGES), TWO_USERS_ENV)
  /\ (fun um => (um_message um, um_user_profile um)) <$> GENERAL_USERMESSAGES
     = concat (deliveries TWO_CHANNELS_SUBSCRIPTIONS <$> GENERAL_MESSAGES).
Proof.
  split; [exact general_messages_converted|].
  exact (usermessages_reach_the_subscribers _ _ _ _ _ _ _ _ _
           general_messages_converted).
Defined.

(** X15: every user message belongs to a message of the result, and
    its flags are 9 (read and mentioned) when the conversion of the text of
    that message lists the user, and 1 (read) otherwise. *)
Theorem usermessages_flag_the_mentioned files channel ac subs ids e zm zum e' :
  channel_message_to_zerver_message files channel ac subs ids e
  = (Ok (zm, zum), e') ->
  Forall (fun um =>
            exists message z,
              (message, z) ∈ zip (filter kept (concat files)) zm
              /\ um_message um = zm_id z
              /\ um_flags_mask um
                 = flags_for (mentioned e message) (um_user_profile um)) zum.
Proof.
  destruct ids as [mid umid]. intros H.
  apply channel_messages_grow in H as [_ (zm1 & zum1 & Heq & _ & _ & _ & _ & H)].
  cbn [app] in Heq. injection Heq as _ _ <- <-. exact H.
Qed.

Lemma usermessages_flag_the_mentioned_witness :
  channel_message_to_zerver_message GENERAL_FILES GENERAL
    (cr_added_channels TWO_CHANNELS_RESULT) TWO_CHANNELS_SUBSCRIPTIONS (1, 1)%Z
    TWO_USERS_ENV
  = (Ok (GENERAL_MESSAGES, GENERAL_USERMESSAGES), TWO_USERS_ENV)
  /\ Forall (fun um =>
               exists message z,
                 (message, z) ∈ zip (filter kept (concat GENERAL_FILES))
                                    GENERAL_MESSAGES
                 /\ um_message um = zm_id z
                 /\ um_flags_mask um
                    = flags_for (mentioned TWO_USERS_ENV message)
                                (um_user_profile um)) GENERAL_USERMESSAGES.
Proof.
  split; [exact general_messages_converted|].
  exact (usermessages_flag_the_mentioned _ _ _ _ _ _ _ _ _
           general_messages_converted).
Defined.

(** ** The loop over the channels of [do_convert_data] *)


Lemma keys_in_order_all seen names k :
  k ∈ names -> k ∉ seen -> k ∈ keys_in_order seen names.
Proof.
  revert seen. induction names as [|n ns IH]; intros seen; [by intros ?%elem_of_nil|].
  cbn [keys_in_order]. intros [->|Hk]%elem_of_cons Hs.
  - rewrite bool_decide_false by exact Hs. by left.
  - destruct (decide (n ∈ seen)) as [Hn|Hn].
    + rewrite bool_decide_true by exact Hn. by apply IH.
    + rewrite bool_decide_false by exact Hn.
      destruct (decide (k = n)) as [->|Hne]; [by left|].
      right. apply IH; [exact Hk|]. apply not_elem_of_cons. by split.
Qed.

Lemma keys_in_order_NoDup seen names :
  NoDup (keys_in_order seen names)
  /\ forall k, k ∈ keys_in_order seen names -> k ∉ seen.
Proof.
  revert seen. induction names as [|n ns IH]; intros seen.
  - split; [constructor|]. by intros k ?%elem_of_nil.
  - cbn [keys_in_order]. destruct (decide (n ∈ seen)) as [Hn|Hn].
    + rewrite bool_decide_true by exact Hn. apply IH.
    + rewrite bool_decide_false by exact Hn.
      destruct (IH (n :: seen)) as [Hnd Hnot]. split.
      * constructor; [|exact Hnd]. intros Hin. apply Hnot in Hin.
        apply Hin. by left.
      * intros k [->|Hk]%elem_of_cons; [exact Hn|].
        apply Hnot in Hk. intros Hs. apply Hk. by right.
Qed.

(** The last entry with a given name. *)
Lemma last_with_name {A} (f : A -> str) (l : list A) name :
  name ∈ (f <$> l) ->
  exists l1 x l2, l = l1 ++ x :: l2 /\ f x = name /\ name ∉ (f <$> l2).
Proof.
  induction l as [|y l IH]; [by intros ?%elem_of_nil|].
  rewrite fmap_cons. intros Hin.
  destruct (decide (name ∈ (f <$> l))) as [Hl|Hl].
  - destruct (IH Hl) as (l1 & x & l2 & -> & Hx & Hn).
    exists (y :: l1), x, l2. done.
  - apply elem_of_cons in Hin as [->|Hin]; [|contradiction].
    exists [], y, l. done.
Qed.

Lemma import_loop_imports export ac subs channels zm0 zum0 e zm zum e' :
  import_loop export ac subs channels zm0 zum0 e = (Ok (zm, zum), e') ->
  e' = e /\ imports e export ac subs channels zm0 zum0 zm zum.
Proof.
  revert zm0 zum0. induction channels as [|c cs IH]; intros zm0 zum0.
  - intros [= <- <- <-]. split; [reflexivity|]. exists [], []. cbn.
    rewrite !app_nil_r. repeat split; constructor.
  - cbn [import_loop]. unfold mbind, M_bind.
    destruct (channel_message_to_zerver_message _ _ _ _ _ _)
      as [[[zm1 zum1]|x] e1] eqn:Hc; [|discriminate].
    apply channel_messages_grow in Hc
      as [-> (zm1' & zum1' & Heq & Hid & Huid & Himp & Hdel & _)].
    cbn [app] in Heq. injection Heq as _ _ <- <-.
    intros H. apply IH in H
      as [-> (zm2 & zum2 & -> & -> & Hid2 & Huid2 & Hsub2 & Hdel2)].
    split; [reflexivity|]. exists (zm1 ++ zm2), (zum1 ++ zum2).
    rewrite !app_assoc. repeat split.
    + rewrite fmap_app, Hid, Hid2, !length_app, !Nat2Z.inj_add, seqZ_app by lia.
      do 2 f_equal. lia.
    + rewrite fmap_app, Huid, Huid2, !length_app, !Nat2Z.inj_add, seqZ_app by lia.
      do 2 f_equal. lia.
    + apply Forall_app. split.
      * clear -Himp. induction Himp as [|m z ms zs Hz _ IHz]; constructor; [|exact IHz].
        destruct Hz as (user & _ & _ & _ & Hr & Hs & _). rewrite Hs.
        split; [by left|exact Hr].
      * eapply Forall_impl; [exact Hsub2|]. cbn. intros z [Hz1 Hz2].
        split; [by right|exact Hz2].
    + by rewrite !fmap_app, concat_app, Hdel, Hdel2.
Qed.

(** The subscribers of a recipient, read from the rows or from what the
    loop over the messages reads of them. *)
Lemma receivers_subscribers rows z :
  sub_user_profile <$> receivers (as_subscription <$> rows) z
  = subscribers (zm_recipient z) rows.
Proof.
  unfold receivers, subscribers. induction rows as [|r rows IH]; [reflexivity|].
  rewrite fmap_cons, !filter_cons. cbn [as_subscription sub_recipient].
  destruct (decide (sr_recipient r = zm_recipient z)); [|exact IH].
  rewrite !fmap_cons. f_equal. exact IH.
Qed.

Lemma do_convert_data_returns h db users channels export now out :
  do_convert_data h db users channels export now = Ok out ->
  let realm_id := get_model_id (db_realm db) in
  let added := snd (users_to_zerver_userprofile h db users realm_id now DOMAIN_NAME) in
  let e := Env (su_entry <$> users) added in
  cd_userprofile out
  = fst (users_to_zerver_userprofile h db users realm_id now DOMAIN_NAME)
  /\ channels_to_zerver_stream db channels realm_id added (cd_userprofile out)
     = Ok (cd_channels out)
  /\ imports e export (cr_added_channels (cd_channels out))
       (as_subscription <$> cr_subscription (cd_channels out))
       (keys_in_order [] (ch_name <$> channels)) [] []
       (cd_message out) (cd_usermessage out).
Proof.
  unfold do_convert_data.
  destruct (users_to_zerver_userprofile _ _ _ _ _ _) as [profiles added].
  destruct (channels_to_zerver_stream _ _ _ _ _) as [fields|x] eqn:Hc;
    [|discriminate].
  destruct (import_loop _ _ _ _ _ _ _) as [[[zm zum]|x] e1] eqn:Hi; [|discriminate].
  intros [= <-]. cbn. apply import_loop_imports in Hi as [_ Hi]. done.
Qed.

Lemma example_converted :
  do_convert_data NO_DIGEST USED_DB [ALICE_USER; BOB_USER] TWO_CHANNELS EXPORT
    1512345678 = Ok CONVERTED_DATA.
Proof. vm_compute. reflexivity. Qed.

(** ** The recipient of a channel *)

Lemma channel_named_last cs1 c cs2 :
  ch_name c ∉ (ch_name <$> cs2) ->
  channel_named (ch_name c) (cs1 ++ c :: cs2) = Some c.
Proof.
  intros Hn. unfold channel_named.
  rewrite filter_app, filter_cons_True by reflexivity.
  rewrite (filter_none _ cs2).
  - apply last_snoc.
  - apply Forall_forall. intros x Hx Heq. apply Hn. rewrite <- Heq.
    by apply list_elem_of_fmap_2.
Qed.

Lemma subscribers_of_named_channel db channels realm_id added profiles r name rid :
  channels_to_zerver_stream db channels realm_id added profiles = Ok r ->
  cr_added_channels r !! name = Some rid ->
  exists c, channel_named name channels = Some c
    /\ member_ids added c = Some (subscribers rid (cr_subscription r)).
Proof.
  intros H Hname. apply channels_to_zerver_stream_returns in H
    as (s & Hl & _ & _ & Hac & -> & _). rewrite Hac in Hname.
  destruct (decide (name ∈ (ch_name <$> channels))) as [Hin|Hnin].
  - apply last_with_name in Hin as (cs1 & c & cs2 & -> & <- & Hlast).
    exists c. split; [by apply channel_named_last|].
    rewrite (channels_loop_added_last _ _ _ _ _ _ _ _ Hl Hlast) in Hname.
    cbn [stream_id_count] in Hname. injection Hname as <-.
    pose proof (channels_loop_stream_id_count _ _ _ _ _ _ Hl) as Hn.
    apply channels_loop_subscriptions in Hl as (new & -> & _ & _ & _ & _ & Hmem).
    cbn [zerver_subscription subscription_id_count stream_id_count app] in *.
    rewrite (Hmem (length cs1) c) by (by apply list_lookup_middle).
    unfold subscribers. rewrite filter_app, fmap_app.
    rewrite (filter_none _ (imap _ profiles)); [by rewrite app_nil_r|].
    apply Forall_forall. intros x Hx.
    apply elem_of_lookup_imap in Hx as (j & p & -> & _). cbn.
    rewrite Hn, length_app. cbn. lia.
  - rewrite (channels_loop_added_other _ _ _ _ _ _ _ Hl Hnin) in Hname.
    cbn in Hname. by rewrite lookup_empty in Hname.
Qed.

(** X16: over all the channels, the ids of the messages are 1, 2, ...
    in the order of [zerver_message], and so are those of the user messages:
    the ids that the loop of [do_convert_data] takes from the lengths of the
    two lists fit the rows that a channel adds. *)
Theorem converted_rows_count_from_one h db users channels export now out :
  do_convert_data h db users channels export now = Ok out ->
  zm_id <$> cd_message out = seqZ 1 (Z.of_nat (length (cd_message out)))
  /\ um_id <$> cd_usermessage out
     = seqZ 1 (Z.of_nat (length (cd_usermessage out))).
Proof.
  intros H. apply do_convert_data_returns in H
    as (_ & _ & (zm & zum & -> & -> & Hid & Huid & _)).
  cbn in *. by split.
Qed.

Lemma converted_rows_count_from_one_witness :
  do_convert_data NO_DIGEST USED_DB [ALICE_USER; BOB_USER] TWO_CHANNELS EXPORT
    1512345678 = Ok CONVERTED_DATA
  /\ (zm_id <$> cd_message CONVERTED_DATA
      = seqZ 1 (Z.of_nat (length (cd_message CONVERTED_DATA)))
      /\ um_id <$> cd_usermessage CONVERTED_DATA
         = seqZ 1 (Z.of_nat (length (cd_usermessage CONVERTED_DATA)))).
Proof.
  split; [exact example_converted|].
  exact (converted_rows_count_from_one _ _ _ _ _ _ _ example_converted).
Defined.

(** X17: in the converted data, a message goes to the members of its
    channel (the last channel of [channels.json] with the name), in their
    order, and to nobody else: the subscriptions of the private messages
    never match the recipient of a stream. *)
Theorem messages_reach_the_members h db users channels export now out :
  do_convert_data h db users channels export now = Ok out ->
  let added :=
    snd (users_to_zerver_userprofile h db users (get_model_id (db_realm db)) now
           DOMAIN_NAME) in
  (fun um => (um_message um, um_user_profile um)) <$> cd_usermessage out
  = concat ((fun z => pair (zm_id z) <$> audience added channels z)
              <$> cd_message out).
Proof.
  intros H added. apply do_convert_data_returns in H
    as (_ & Hc & (zm & zum & -> & -> & _ & _ & Hsub & Hdel)).
  fold added in Hc. cbn [app] in *. rewrite Hdel. f_equal.
  apply Forall_fmap_ext_1. eapply Forall_impl; [exact Hsub|]. cbn.
  intros z [_ Hr].
  destruct (subscribers_of_named_channel _ _ _ _ _ _ _ _ Hc Hr) as (c & Hnamed & Hm).
  unfold audience, deliveries. rewrite Hnamed. cbn. rewrite Hm. cbn.
  rewrite <- receivers_subscribers, <- list_fmap_compose. reflexivity.
Qed.

Lemma messages_reach_the_members_witness :
  do_convert_data NO_DIGEST USED_DB [ALICE_USER; BOB_USER] TWO_CHANNELS EXPORT
    1512345678 = Ok CONVERTED_DATA
  /\ (let added :=
        snd (users_to_zerver_userprofile NO_DIGEST USED_DB [ALICE_USER; BOB_USER]
               (get_model_id (db_realm USED_DB)) 1512345678 DOMAIN_NAME) in
      (fun um => (um_message um, um_user_profile um))
        <$> cd_usermessage CONVERTED_DATA
      = concat ((fun z => pair (zm_id z) <$> audience added TWO_CHANNELS z)
                  <$> cd_message CONVERTED_DATA)).
Proof.
  split; [exact example_converted|].
  exact (messages_reach_the_members _ _ _ _ _ _ _ example_converted).
Defined.

(** ** The groups of a match *)

Lemma iterate_captured body :
  (forall k st res, body k st = Some res ->
     exists st', k st' = Some res /\ captured (m_groups st) ⊆ captured (m_groups st')) ->
  forall fuel lo hi k st res,
    iterate body k fuel lo hi st = Some res ->
    exists st', k st' = Some res /\ captured (m_groups st) ⊆ captured (m_groups st').
Proof.
  intros Hbody fuel. induction fuel as [|fuel IH]; intros lo hi k st res H.
  - simpl in H. destruct lo; [|discriminate]. exists st. done.
  - simpl in H.
    assert (Hstop : match lo with O => k st | S _ => None end = Some res ->
              exists st', k st' = Some res
                          /\ captured (m_groups st) ⊆ captured (m_groups st')).
    { intros Hs. destruct lo; [|discriminate]. exists st. done. }
    destruct (may_iterate hi); [|now apply Hstop].
    destruct (body (iterate body k fuel (pred lo) (pred <$> hi)) st) as [r1|] eqn:E;
      [|now apply Hstop].
    injection H as ->.
    apply Hbody in E as (st1 & E & H1). apply IH in E as (st2 & E & H2).
    exists st2. split; [exact E|]. by etrans.
Qed.

Lemma eat_captured p k st res :
  eat p k st = Some res ->
  exists st', k st' = Some res /\ m_groups st' = m_groups st.
Proof.
  unfold eat. destruct (m_rest st) as [|c t]; [discriminate|].
  destruct (p c); [|discriminate]. intros H. exists (advance st). done.
Qed.

(** A successful match captured the groups it had and those of
    [bound_groups]. *)
Lemma exec_captured r :
  forall k st res, exec r k st = Some res ->
    exists st', k st' = Some res
      /\ captured (m_groups st) ++ bound_groups r ⊆ captured (m_groups st').
Proof.
  induction r as [| | |c| |rs|rs|r1 IH1 r2 IH2|r1 IH1 r2 IH2|lo hi r1 IH1|i r1 IH1];
    intros k st res H; simpl in H; cbn [bound_groups]; rewrite ?app_nil_r.
  - exists st. done.
  - destruct (m_pos st); [|discriminate]. exists st. done.
  - assert (k st = Some res) as Hk.
    { destruct (m_rest st) as [|c [|c' t]]; [exact H| |discriminate].
      destruct (c =? NEWLINE); [exact H | discriminate]. }
    exists st. done.
  - apply eat_captured in H as (st' & H & Hg). exists st'. by rewrite Hg.
  - apply eat_captured in H as (st' & H & Hg). exists st'. by rewrite Hg.
  - apply eat_captured in H as (st' & H & Hg). exists st'. by rewrite Hg.
  - apply eat_captured in H as (st' & H & Hg). exists st'. by rewrite Hg.
  - apply IH1 in H as (st1 & H & H1). apply IH2 in H as (st2 & H & H2).
    exists st2. split; [exact H|]. rewrite app_assoc.
    intros x [Hx|Hx]%elem_of_app; apply H2, elem_of_app; [left; by apply H1|by right].
  - destruct (exec r1 k st) as [res1|] eqn:E.
    + injection H as ->. apply IH1 in E as (st' & E & H1). exists st'.
      split; [exact E|]. intros x Hx. apply H1, elem_of_app. by left.
    + apply IH2 in H as (st' & E' & H1). exists st'.
      split; [exact E'|]. intros x Hx. apply H1, elem_of_app. by left.
  - apply (iterate_captured (exec r1)) in H; [exact H|].
    intros k' st0 res0 H0. apply IH1 in H0 as (st' & E & H1). exists st'.
    split; [exact E|]. intros x Hx. apply H1, elem_of_app. by left.
  - apply IH1 in H as (st1 & H & H1). exists (capture i st st1).
    split; [exact H|]. unfold capture, captured. cbn [m_groups fmap list_fmap fst].
    intros x [Hx|[->|Hx]%elem_of_cons]%elem_of_app.
    + right. apply H1, elem_of_app. by left.
    + by left.
    + right. apply H1, elem_of_app. by right.
Qed.

Lemma attempt_captured r pos rest m :
  attempt r pos rest = Some m -> bound_groups r ⊆ captured (rm_groups m).
Proof.
  unfold attempt. destruct (exec r Some (MState pos rest [])) as [st|] eqn:E;
    [|discriminate].
  intros [= <-]. apply exec_captured in E as (st' & [= ->] & H).
  cbn [rm_groups]. intros x Hx. apply H, elem_of_app. by right.
Qed.

Lemma group_captured s m i :
  i <> 0%nat -> i ∈ captured (rm_groups m) -> is_Some (group s m i).
Proof.
  intros Hi Hin. unfold group. destruct i as [|i]; [done|].
  unfold captured in Hin. apply list_elem_of_fmap in Hin as ([j w] & Hj & Hin).
  cbn in Hj. subst j. apply fmap_is_Some.
  induction (rm_groups m) as [|[j v] gs IH]; [by apply elem_of_nil in Hin|].
  cbn [find]. cbn [fst]. destruct (Nat.eqb j (S i)) eqn:E; [eauto|].
  apply elem_of_cons in Hin as [Heq|Hin]; [|by apply IH].
  injection Heq as <- <-. by rewrite Nat.eqb_refl in E.
Qed.

(** ** The characters of a match *)

Section Clean.
Variable P : char -> bool.

Lemma forallb_tail (s : str) : forallb P s = true -> forallb P (tail s) = true.
Proof. destruct s; [done|]. cbn. by intros [_ H]%andb_true_iff. Qed.

Lemma forallb_take n (s : str) : forallb P s = true -> forallb P (take n s) = true.
Proof.
  revert n. induction s as [|c s IH]; intros [|n]; try done.
  cbn. intros [Hc H]%andb_true_iff. rewrite Hc. by apply IH.
Qed.

Lemma forallb_drop n (s : str) : forallb P s = true -> forallb P (drop n s) = true.
Proof.
  revert n. induction s as [|c s IH]; intros [|n]; try done.
  cbn. intros [Hc H]%andb_true_iff. by apply IH.
Qed.

Lemma clean_advance st : clean P st -> clean P (advance st).
Proof. intros [H1 H2]. split; [by apply forallb_tail|exact H2]. Qed.

Lemma clean_capture i st0 st1 : clean P st0 -> clean P st1 -> clean P (capture i st0 st1).
Proof.
  intros [H1 _] [H3 H4]. split; [exact H3|].
  constructor; [|exact H4]. cbn. by apply forallb_take.
Qed.

Lemma eat_clean p k st res :
  eat p k st = Some res -> clean P st -> exists st', k st' = Some res /\ clean P st'.
Proof.
  unfold eat. destruct (m_rest st) as [|c t] eqn:E; [discriminate|].
  destruct (p c); [|discriminate]. intros H Hc. exists (advance st).
  split; [exact H|by apply clean_advance].
Qed.

Lemma iterate_clean body :
  (forall k st res, body k st = Some res -> clean P st ->
     exists st', k st' = Some res /\ clean P st') ->
  forall fuel lo hi k st res,
    iterate body k fuel lo hi st = Some res -> clean P st ->
    exists st', k st' = Some res /\ clean P st'.
Proof.
  intros Hbody fuel. induction fuel as [|fuel IH]; intros lo hi k st res H Hc.
  - simpl in H. destruct lo; [|discriminate]. exists st. done.
  - simpl in H.
    assert (Hstop : match lo with O => k st | S _ => None end = Some res ->
              exists st', k st' = Some res /\ clean P st').
    { intros Hs. destruct lo; [|discriminate]. exists st. done. }
    destruct (may_iterate hi); [|now apply Hstop].
    destruct (body (iterate body k fuel (pred lo) (pred <$> hi)) st) as [r1|] eqn:E;
      [|now apply Hstop].
    injection H as ->.
    apply Hbody in E as (st1 & E & H1); [|exact Hc]. by apply IH in E.
Qed.

Lemma exec_clean r :
  forall k st res, exec r k st = Some res -> clean P st ->
    exists st', k st' = Some res /\ clean P st'.
Proof.
  induction r as [| | |c| |rs|rs|r1 IH1 r2 IH2|r1 IH1 r2 IH2|lo hi r1 IH1|i r1 IH1];
    intros k st res H Hc; simpl in H.
  - exists st. done.
  - destruct (m_pos st); [|discriminate]. exists st. done.
  - assert (k st = Some res) as Hk.
    { destruct (m_rest st) as [|c [|c' t]]; [exact H| |discriminate].
      destruct (c =? NEWLINE); [exact H | discriminate]. }
    exists st. done.
  - by eapply eat_clean.
  - by eapply eat_clean.
  - by eapply eat_clean.
  - by eapply eat_clean.
  - apply IH1 in H as (st1 & H & H1); [|exact Hc]. by apply IH2 in H.
  - destruct (exec r1 k st) as [res1|] eqn:E.
    + injection H as ->. by apply IH1 in E.
    + by apply IH2 in H.
  - by apply (iterate_clean (exec r1) IH1) in H.
  - apply IH1 in H as (st1 & H & H1); [|exact Hc]. exists (capture i st st1).
    split; [exact H|by apply clean_capture].
Qed.

Lemma attempt_clean r pos rest m :
  attempt r pos rest = Some m -> forallb P rest = true ->
  Forall (fun g => forallb P (snd g) = true) (rm_groups m).
Proof.
  unfold attempt. destruct (exec r Some (MState pos rest [])) as [st|] eqn:E;
    [|discriminate].
  intros [= <-] Hr. apply exec_clean in E as (st' & [= ->] & [_ H]); [exact H|].
  split; [exact Hr|constructor].
Qed.

Lemma group_clean s m i w :
  forallb P s = true ->
  Forall (fun g => forallb P (snd g) = true) (rm_groups m) ->
  group s m i = Some w -> forallb P w = true.
Proof.
  intros Hs Hm. unfold group. destruct i as [|i].
  - intros [= <-]. by apply forallb_take, forallb_drop.
  - intros Hf. apply fmap_Some in Hf as ([j v] & Hf & ->). cbn.
    apply find_some in Hf as [Hin _]. rewrite Forall_forall in Hm.
    apply list_elem_of_In in Hin. by apply (Hm _ Hin).
Qed.

End Clean.

(** Every match that [finditer] gives is one of an attempt on the
    subject from some position on. *)
Lemma scan_attempts r rest :
  forall pos skip m, m ∈ scan r pos skip rest ->
    exists pos' n, attempt r pos' (drop n rest) = Some m.
Proof.
  induction rest as [|c rest IH]; intros pos skip m.
  - cbn. destruct skip; [|by intros ?%elem_of_nil].
    destruct (attempt r pos []) as [m'|] eqn:E; [|by intros ?%elem_of_nil].
    intros [->|H%elem_of_nil]%elem_of_cons; [|done]. by exists pos, 0%nat.
  - cbn [scan]. destruct skip as [|skip].
    + destruct (attempt r pos (c :: rest)) as [m'|] eqn:E.
      * intros [->|H]%elem_of_cons; [by exists pos, 0%nat|].
        apply IH in H as (pos' & n & H). by exists pos', (S n).
      * intros H. apply IH in H as (pos' & n & H). by exists pos', (S n).
    + intros H. apply IH in H as (pos' & n & H). by exists pos', (S n).
Qed.

(** ** Templates without a backslash *)

Lemma group_ref_raises n groups x : group_ref n groups = Err x -> x = ReError.
Proof. unfold group_ref. destruct (_ <=? _); [discriminate|]. by intros [= <-]. Qed.

Ltac raises :=
  repeat match goal with
         | |- Ok _ = Err _ -> _ => discriminate
         | |- Err ReError = Err _ -> _ => by intros [= <-]; left
         | |- Err IndexError = Err _ -> _ => by intros [= <-]; right
         | |- Err _ = Err _ -> _ => intros [= <-]
         | H : group_ref _ _ = Err _ |- _ => apply group_ref_raises in H; subst
         | |- context [match group_ref ?n ?g with _ => _ end] =>
             destruct (group_ref n g) eqn:?
         | |- context [match ?t with _ => _ end] => destruct t
         | |- context [if ?b then _ else _] => destruct b
         end; try done.

Lemma template_item_raises groups s x :
  template_item groups s = Err x -> template_error x.
Proof. unfold template_item, template_error. raises. Qed.

Lemma parse_template_from_raises fuel groups s x :
  parse_template_from fuel groups s = Err x -> template_error x.
Proof.
  revert s. induction fuel as [|fuel IH]; intros s.
  - destruct s; discriminate.
  - destruct s as [|c s]; [discriminate|]. cbn [parse_template_from].
    destruct (template_item groups (c :: s)) as [[items rest]|y] eqn:E.
    + destruct (parse_template_from fuel groups rest) as [more|y] eqn:E2;
        [discriminate|]. intros [= <-]. by eapply IH.
    + intros [= <-]. by eapply template_item_raises.
Qed.

Lemma re_sub_raises r repl s x : re_sub r repl s = Err x -> template_error x.
Proof.
  unfold re_sub, parse_template.
  destruct (parse_template_from _ _ _) as [tpl|y] eqn:E; [discriminate|].
  intros [= <-]. by eapply parse_template_from_raises.
Qed.

Lemma parse_template_from_plain fuel groups s :
  no_backslash s = true -> (length s <= fuel)%nat ->
  parse_template_from fuel groups s = Ok (TLit <$> s).
Proof.
  revert fuel. induction s as [|c s IH]; intros fuel Hs Hf.
  - by destruct fuel.
  - destruct fuel as [|fuel]; [cbn in Hf; lia|].
    cbn in Hs. apply andb_true_iff in Hs as [Hc Hs].
    cbn [parse_template_from template_item]. rewrite Hc.
    rewrite IH; [reflexivity|exact Hs|cbn in Hf; lia].
Qed.

Lemma expand_plain t s m : expand (TLit <$> t) s m = t.
Proof.
  unfold expand. induction t as [|c t IH]; [reflexivity|].
  cbn. f_equal. exact IH.
Qed.

Lemma re_sub_plain r repl s :
  no_backslash repl = true ->
  re_sub r repl s = Ok (splice (TLit <$> repl) s 0 (re_finditer r s)).
Proof.
  intros H. unfold re_sub, parse_template.
  by rewrite parse_template_from_plain.
Qed.

Lemma forallb_app_2 (P : char -> bool) (a b : str) :
  forallb P a = true -> forallb P b = true -> forallb P (a ++ b) = true.
Proof. intros Ha Hb. rewrite forallb_app, Ha, Hb. reflexivity. Qed.

Lemma splice_plain_clean (P : char -> bool) repl s :
  forallb P repl = true -> forallb P s = true ->
  forall ms prev, forallb P (splice (TLit <$> repl) s prev ms) = true.
Proof.
  intros Hr Hs ms. induction ms as [|m ms IH]; intros prev; cbn [splice].
  - by apply forallb_drop.
  - rewrite expand_plain. apply forallb_app_2; [|apply forallb_app_2].
    + by apply forallb_take, forallb_drop.
    + exact Hr.
    + apply IH.
Qed.

(** ** The exceptions of a formatting pass *)

(** The groups a formatting pattern always captures. *)
Lemma formatting_bound_groups delim inner :
  bound_groups (formatting delim inner) = [1; 2; 3; 4; 5; 6]%nat.
Proof. reflexivity. Qed.

Lemma converted_token_convertible s kw m :
  convertible s m ->
  exists g1 g3 g4 g6,
    group s m 1 = Some g1 /\ group s m 3 = Some g3
    /\ group s m 4 = Some g4 /\ group s m 6 = Some g6
    /\ converted_token s kw m = Ok (g1 ++ kw ++ g3 ++ g4 ++ kw ++ g6).
Proof.
  intros ([g1 H1] & [g3 H3] & [g4 H4] & [g6 H6]). exists g1, g3, g4, g6.
  unfold converted_token. rewrite H1, H3, H4, H6. done.
Qed.

Lemma formatting_matches_convertible delim inner s text pos skip :
  Forall (convertible s) (scan (formatting delim inner) pos skip text).
Proof.
  apply Forall_forall. intros m Hm.
  apply scan_attempts in Hm as (pos' & n & Hm).
  apply attempt_captured in Hm. rewrite formatting_bound_groups in Hm.
  repeat split; apply group_captured; try done; apply Hm;
    repeat first [by left | right].
Qed.

Lemma matches_clean (P : char -> bool) r text pos skip :
  forallb P text = true ->
  Forall (fun m => Forall (fun g => forallb P (snd g) = true) (rm_groups m))
         (scan r pos skip text).
Proof.
  intros Ht. apply Forall_forall. intros m Hm.
  apply scan_attempts in Hm as (pos' & n & Hm).
  eapply attempt_clean; [exact Hm|]. by apply forallb_drop.
Qed.

(** A formatting pass raises nothing but the exceptions of a template. *)
Lemma markdown_loop_raises r kw s0 ms text x :
  Forall (convertible s0) ms ->
  markdown_loop r kw s0 ms text = Err x -> template_error x.
Proof.
  intros Hms. revert text. induction Hms as [|m ms Hm _ IH]; intros text.
  - discriminate.
  - cbn [markdown_loop].
    destruct (converted_token_convertible s0 kw m Hm) as (g1 & g3 & g4 & g6 & _ & _ & _ & _ & ->).
    destruct (re_sub r _ text) as [text'|y] eqn:E.
    + apply IH.
    + intros [= <-]. by eapply re_sub_raises.
Qed.

Lemma convert_markdown_syntax_raises text delim inner kw x :
  convert_markdown_syntax text (formatting delim inner) kw = Err x ->
  template_error x.
Proof.
  unfold convert_markdown_syntax, re_finditer. apply markdown_loop_raises.
  apply formatting_matches_convertible.
Qed.

(** Without a backslash in the text, a formatting pass returns, and its
    result is made of the characters of the text and of the keyword. *)
Lemma markdown_loop_clean (P : char -> bool) r kw s0 ms :
  (forall c, P c = true -> c <> BACKSLASH) ->
  forallb P kw = true -> forallb P s0 = true ->
  Forall (convertible s0) ms ->
  Forall (fun m => Forall (fun g => forallb P (snd g) = true) (rm_groups m)) ms ->
  forall text, forallb P text = true ->
    exists out, markdown_loop r kw s0 ms text = Ok out /\ forallb P out = true.
Proof.
  intros HP Hkw Hs0 Hms Hcl. induction Hms as [|m ms Hm _ IH]; intros text Ht.
  - exists text. done.
  - apply Forall_cons in Hcl as [Hcm Hcl]. cbn [markdown_loop].
    destruct (converted_token_convertible s0 kw m Hm)
      as (g1 & g3 & g4 & g6 & H1 & H3 & H4 & H6 & ->).
    assert (Htok : forallb P (g1 ++ kw ++ g3 ++ g4 ++ kw ++ g6) = true).
    { pose proof (group_clean P s0 m _ _ Hs0 Hcm H1).
      pose proof (group_clean P s0 m _ _ Hs0 Hcm H3).
      pose proof (group_clean P s0 m _ _ Hs0 Hcm H4).
      pose proof (group_clean P s0 m _ _ Hs0 Hcm H6).
      repeat apply forallb_app_2; assumption. }
    rewrite re_sub_plain.
    + apply (IH Hcl). by apply splice_plain_clean.
    + unfold no_backslash. apply forallb_forall. intros c Hc.
      rewrite forallb_forall in Htok. apply Htok in Hc. apply HP in Hc.
      apply negb_true_iff, N.eqb_neq. exact Hc.
Qed.

Lemma convert_markdown_syntax_clean (P : char -> bool) text delim inner kw :
  (forall c, P c = true -> c <> BACKSLASH) ->
  forallb P kw = true -> forallb P text = true ->
  exists out,
    convert_markdown_syntax text (formatting delim inner) kw = Ok out
    /\ forallb P out = true.
Proof.
  intros HP Hkw Ht. unfold convert_markdown_syntax, re_finditer.
  apply markdown_loop_clean; try done.
  - apply formatting_matches_convertible.
  - by apply matches_clean.
Qed.

(** ** The exceptions of a turn *)

Lemma mention_applies_id slack_id short_name u :
  mention_applies slack_id short_name u = true -> slack_id = Some (u_id u).
Proof.
  unfold mention_applies. destruct short_name as [sn|].
  - intros [[H _]%andb_true_iff _]%andb_true_iff.
    by apply bool_decide_eq_true in H.
  - intros H. by apply bool_decide_eq_true in H.
Qed.

Lemma mentions_loop_raises slack_id short_name us found e x e' :
  mentions_loop slack_id short_name us found e = (Err x, e') ->
  x = KeyError /\ exists u, u ∈ us /\ added_users e !! u_id u = None.
Proof.
  revert found. induction us as [|u us IH]; intros found; [discriminate|].
  cbn [mentions_loop]. destruct (mention_applies slack_id short_name u) eqn:Hu.
  - apply mention_applies_id in Hu as ->. unfold mbind, M_bind, added_users_at.
    destruct (added_users e !! u_id u) as [uid|] eqn:Hid.
    + intros H. apply IH in H as [-> (v & Hv & Hn)]. split; [done|].
      exists v. split; [by right|done].
    + intros [= <- <-]. split; [done|]. exists u. split; [by left|done].
  - intros H. apply IH in H as [-> (v & Hv & Hn)]. split; [done|].
    exists v. split; [by right|done].
Qed.

Lemma mentions_loop_found slack_id short_name us found e mention user_id e' :
  mentions_loop slack_id short_name us found e = (Ok (Some (mention, user_id)), e') ->
  found = Some (mention, user_id)
  \/ exists u, u ∈ us /\ mention = py "@**" ++ get_user_full_name u ++ py "** ".
Proof.
  revert found. induction us as [|u us IH]; intros found.
  - intros [= -> _]. by left.
  - cbn [mentions_loop]. destruct (mention_applies slack_id short_name u) eqn:Hu.
    + unfold mbind, M_bind, added_users_at.
      destruct slack_id as [sid|]; [|discriminate].
      destruct (added_users e !! sid) as [uid|]; [|discriminate].
      intros H. apply IH in H as [[= <- <-]|(v & Hv & ->)]; right.
      * exists u. split; [by left|done].
      * exists v. split; [by right|done].
    + intros H. apply IH in H as [->|(v & Hv & ->)]; [by left|right].
      exists v. split; [by right|done].
Qed.

Lemma no_backslash_app a b :
  no_backslash (a ++ b) = no_backslash a && no_backslash b.
Proof. apply forallb_app. Qed.

Lemma in_no_backslash s : no_backslash s = false -> BACKSLASH ∈ s.
Proof.
  intros Hs. unfold no_backslash in Hs.
  destruct (forallb_forall (fun c => negb (c =? BACKSLASH)) s) as [_ Hall].
  destruct (decide (BACKSLASH ∈ s)) as [Hd|Hd]; [exact Hd|].
  rewrite Hall in Hs; [discriminate|]. intros c Hc.
  apply negb_true_iff, N.eqb_neq. intros ->. apply Hd.
  by apply list_elem_of_In.
Qed.

Lemma get_user_mentions_raises token e x e' m :
  re_match SLACK_USERMENTION_REGEX token = Some m ->
  get_user_mentions token e = (Err x, e') ->
  x = UnboundLocalError
  \/ (x = KeyError /\ user_without_id e)
  \/ (template_error x /\ name_with_backslash e).
Proof.
  intros Hm. unfold get_user_mentions, re_search.
  rewrite (search_from_hit _ _ _ _ Hm). cbv zeta.
  unfold mbind, M_bind, read_users.
  destruct (mentions_loop _ _ _ _ _) as [[found|y] e1] eqn:Hl.
  - destruct found as [[mention uid]|].
    + apply mentions_loop_found in Hl as [[=]|(u & Hu & ->)].
      unfold lift. destruct (re_sub _ _ token) as [t'|y] eqn:Hs; [discriminate|].
      intros [= <- <-]. right. right. split; [by eapply re_sub_raises|].
      exists u. split; [exact Hu|].
      destruct (no_backslash (get_user_full_name u)) eqn:Hb; [|reflexivity].
      rewrite re_sub_plain in Hs; [discriminate|].
      rewrite !no_backslash_app, Hb. reflexivity.
    + intros [= <- <-]. by left.
  - intros [= <- <-]. apply mentions_loop_raises in Hl as [-> Hu].
    right. left. done.
Qed.

Lemma turn_raises e token x :
  turn e token = Err x ->
  x = UnboundLocalError
  \/ (x = KeyError /\ user_without_id e)
  \/ (template_error x /\ name_with_backslash e).
Proof.
  unfold turn. destruct (re_match _ token) as [m|] eqn:Hm; [|discriminate].
  destruct (get_user_mentions token e) as [[[t' uid]|y] e1] eqn:Hg;
    cbn [fst]; [discriminate|].
  intros [= <-]. by eapply get_user_mentions_raises.
Qed.

(** The loop over the tokens raises what the turn of one of the tokens
    raises. *)
Lemma tokens_loop_raises_turn e todo :
  forall done_ ids has_link x e',
    tokens_loop (length todo) (length done_) (done_ ++ todo) ids has_link e
    = (Err x, e') ->
    exists t, t ∈ todo /\ turn e t = Err x.
Proof.
  induction todo as [|t todo IH]; intros done_ ids has_link x e'; [discriminate|].
  rewrite tokens_loop_cons. destruct (turn e t) as [[[t' ids'] link]|y] eqn:Ht.
  - intros H. apply IH in H as (t1 & Hin & H1). exists t1. split; [by right|done].
  - intros [= <- <-]. exists t. split; [by left|done].
Qed.

Lemma tokens_loop_ok_or_raises e todo done_ ids has_link :
  (exists out, tokens_loop (length todo) (length done_) (done_ ++ todo) ids
                 has_link e = (Ok out, e))
  \/ exists x, tokens_loop (length todo) (length done_) (done_ ++ todo) ids
                 has_link e = (Err x, e).
Proof.
  revert done_ ids has_link. induction todo as [|t todo IH]; intros done_ ids has_link.
  - left. cbn. eauto.
  - rewrite tokens_loop_cons. destruct (turn e t) as [[[t' ids'] link]|y].
    + apply IH.
    + right. eauto.
Qed.

(** ** The exceptions of the whole conversion *)

(** The conversion, as the formatting passes and the loop over the
    tokens. *)
Lemma convert_after_passes text e :
  convert_to_zulip_markdown text e
  = match formatting_passes text with
    | Err x => (Err x, e)
    | Ok text3 =>
        let tokens := split SPACE (str_replace EVERYONE ALL text3) in
        match tokens_loop (length tokens) 0 tokens [] false e with
        | (Ok (tokens', mentioned_users_id, has_link), e') =>
            (Ok (join SPACE tokens', mentioned_users_id, has_link), e')
        | (Err x, e') => (Err x, e')
        end
    end.
Proof.
  unfold convert_to_zulip_markdown, formatting_passes, mbind, M_bind, lift.
  destruct (convert_markdown_syntax text _ _) as [t1|]; [|reflexivity].
  destruct (convert_markdown_syntax t1 _ _) as [t2|]; [|reflexivity].
  destruct (convert_markdown_syntax t2 _ _) as [t3|]; [|reflexivity].
  cbv zeta. destruct (tokens_loop _ _ _ _ _ _) as [[[[toks ids] link]|y] e1];
    reflexivity.
Qed.

Lemma formatting_passes_raises text x :
  formatting_passes text = Err x -> template_error x.
Proof.
  unfold formatting_passes, SLACK_STRIKETHROUGH_REGEX, SLACK_ITALIC_REGEX,
    SLACK_BOLD_REGEX.
  destruct (convert_markdown_syntax text _ _) as [t1|y] eqn:H1;
    [|intros [= <-]; by eapply convert_markdown_syntax_raises].
  destruct (convert_markdown_syntax t1 _ _) as [t2|y] eqn:H2;
    [|intros [= <-]; by eapply convert_markdown_syntax_raises].
  apply convert_markdown_syntax_raises.
Qed.

(** The passes on a text without a backslash return a text made of the
    characters of the text and of the keywords. *)
Lemma formatting_passes_clean (P : char -> bool) text :
  (forall c, P c = true -> c <> BACKSLASH) ->
  P (chr "~") = true -> P (chr "*") = true ->
  forallb P text = true ->
  exists out, formatting_passes text = Ok out /\ forallb P out = true.
Proof.
  intros HP Htilde Hstar Ht.
  unfold formatting_passes, SLACK_STRIKETHROUGH_REGEX, SLACK_ITALIC_REGEX,
    SLACK_BOLD_REGEX.
  assert (Hk1 : forallb P (py "~~") = true).
  { change (forallb P [chr "~"; chr "~"] = true). cbn [forallb].
    by rewrite Htilde. }
  assert (Hk2 : forallb P (py "*") = true).
  { change (forallb P [chr "*"] = true). cbn [forallb]. by rewrite Hstar. }
  assert (Hk3 : forallb P (py "**") = true).
  { change (forallb P [chr "*"; chr "*"] = true). cbn [forallb].
    by rewrite Hstar. }
  edestruct (convert_markdown_syntax_clean P text) as (t1 & -> & Hc1);
    [exact HP|exact Hk1|exact Ht|].
  edestruct (convert_markdown_syntax_clean P t1) as (t2 & -> & Hc2);
    [exact HP|exact Hk2|exact Hc1|].
  by apply convert_markdown_syntax_clean.
Qed.

Lemma plain_char_spec c : plain_char c = true -> c <> BACKSLASH.
Proof. unfold plain_char. intros H. by apply negb_true_iff, N.eqb_neq in H. Qed.

Lemma convert_raises text e x :
  fst (convert_to_zulip_markdown text e) = Err x -> explained text e x.
Proof.
  rewrite convert_after_passes. unfold explained.
  destruct (formatting_passes text) as [text3|y] eqn:Hp; cbn [fst].
  - cbv zeta.
    destruct (tokens_loop _ _ _ _ _ _) as [[[[toks ids] link]|y] e1] eqn:Hl;
      cbn [fst]; [discriminate|].
    intros [= <-].
    apply (tokens_loop_raises_turn e _ []) in Hl as (t & _ & Ht).
    apply turn_raises in Ht as [->|[[-> H]|[Hx H]]]; auto.
  - intros [= <-]. apply formatting_passes_raises in Hp as Hx.
    right. right. split; [exact Hx|]. left.
    destruct (no_backslash text) eqn:Hb; [|reflexivity].
    destruct (formatting_passes_clean plain_char text plain_char_spec
                eq_refl eq_refl Hb) as (out & Ho & _).
    congruence.
Qed.

(** ** What the conversion raises *)

(** X18: when [convert_to_zulip_markdown] raises, it raises
    [UnboundLocalError], [KeyError], [re.error] or [IndexError], and the
    last only with a backslash in the text or in a display name (it comes
    from a replacement template that names a group): a group of a match is
    never [None] where it is concatenated, [re.search] finds what [match]
    found, and the index of a token is in range. *)
Theorem conversion_raises_four_exceptions text e x :
  fst (convert_to_zulip_markdown text e) = Err x ->
  x = UnboundLocalError \/ x = KeyError \/ x = ReError
  \/ (x = IndexError
      /\ (BACKSLASH ∈ text
          \/ exists u, u ∈ users e /\ BACKSLASH ∈ get_user_full_name u)).
Proof.
  intros H. apply convert_raises in H as [->|[[-> _]|[[->| ->] H]]]; auto.
  do 3 right. split; [reflexivity|]. destruct H as [H|(u & Hu & H)].
  - left. by apply in_no_backslash.
  - right. exists u. split; [exact Hu|by apply in_no_backslash].
Qed.

Lemma conversion_raises_four_exceptions_witness :
  fst (convert_to_zulip_markdown UNKNOWN_GROUP TWO_USERS_ENV) = Err IndexError
  /\ (IndexError = UnboundLocalError \/ IndexError = KeyError
      \/ IndexError = ReError
      \/ (IndexError = IndexError
          /\ (BACKSLASH ∈ UNKNOWN_GROUP
              \/ exists u, u ∈ users TWO_USERS_ENV
                           /\ BACKSLASH ∈ get_user_full_name u))).
Proof.
  assert (H : fst (convert_to_zulip_markdown UNKNOWN_GROUP TWO_USERS_ENV)
              = Err IndexError) by (vm_compute; reflexivity).
  split; [exact H|].
  exact (conversion_raises_four_exceptions _ _ _ H).
Defined.

(** X19: [convert_to_zulip_markdown] raises [re.error] only when the
    text or the display name of an entry of the directory holds a backslash
    (text of the message and names are used as replacement templates). *)
Theorem re_error_needs_a_backslash text e :
  fst (convert_to_zulip_markdown text e) = Err ReError ->
  BACKSLASH ∈ text
  \/ exists u, u ∈ users e /\ BACKSLASH ∈ get_user_full_name u.
Proof.
  intros H. apply convert_raises in H as [[=]|[[[=] _]|[_ [H|(u & Hu & H)]]]].
  - left. by apply in_no_backslash.
  - right. exists u. split; [exact Hu|by apply in_no_backslash].
Qed.

Lemma re_error_needs_a_backslash_witness :
  fst (convert_to_zulip_markdown BAD_ESCAPE TWO_USERS_ENV) = Err ReError
  /\ (BACKSLASH ∈ BAD_ESCAPE
      \/ exists u, u ∈ users TWO_USERS_ENV /\ BACKSLASH ∈ get_user_full_name u).
Proof.
  assert (H : fst (convert_to_zulip_markdown BAD_ESCAPE TWO_USERS_ENV)
              = Err ReError) by (vm_compute; reflexivity).
  split; [exact H|]. exact (re_error_needs_a_backslash _ _ H).
Defined.

(** X20: [convert_to_zulip_markdown] raises [KeyError] only when an
    entry of the directory has no Zulip id in [added_users]. *)
Theorem key_error_needs_a_user_without_id text e :
  fst (convert_to_zulip_markdown text e) = Err KeyError ->
  exists u, u ∈ users e /\ added_users e !! u_id u = None.
Proof.
  intros H. apply convert_raises in H as [[=]|[[_ H]|[[[=]|[=]] _]]]. exact H.
Qed.

Lemma key_error_needs_a_user_without_id_witness :
  fst (convert_to_zulip_markdown MENTION_BOB NO_IDS_ENV) = Err KeyError
  /\ exists u, u ∈ users NO_IDS_ENV /\ added_users NO_IDS_ENV !! u_id u = None.
Proof.
  assert (H : fst (convert_to_zulip_markdown MENTION_BOB NO_IDS_ENV)
              = Err KeyError) by (vm_compute; reflexivity).
  split; [exact H|]. exact (key_error_needs_a_user_without_id _ _ H).
Defined.

(** ** Texts without angle brackets *)

Lemma prose_char_no_backslash c : prose_char c = true -> c <> BACKSLASH.
Proof.
  unfold prose_char. intros [H _]%andb_true_iff.
  by apply negb_true_iff, N.eqb_neq in H.
Qed.

Lemma prose_no_bracket s : prose s = true -> ~ In (chr "<") s.
Proof.
  unfold prose. rewrite forallb_forall. intros H Hin. apply H in Hin.
  unfold prose_char in Hin. apply andb_true_iff in Hin as [_ Hin].
  apply negb_true_iff, N.eqb_neq in Hin. congruence.
Qed.

Lemma prose_tokens s :
  prose s = true ->
  forallb (fun t => negb (matches SLACK_USERMENTION_REGEX t)) (split SPACE s) = true
  /\ forallb (fun t => negb (matches LINK_REGEX t)) (split SPACE s) = true.
Proof.
  intros Hs. apply prose_no_bracket in Hs.
  pose proof (split_tokens SPACE s) as Ht.
  assert (Hno : Forall (fun tok => ~ In (chr "<") tok) (split SPACE s)).
  { eapply Forall_impl; [exact Ht|]. cbn. intros tok [_ (a & b & ->)] Hin.
    apply Hs. apply in_app_iff. right. apply in_app_iff. by left. }
  clear Ht. split; apply forallb_forall; intros t Hin;
    apply list_elem_of_In in Hin; rewrite Forall_forall in Hno;
    specialize (Hno t Hin); apply negb_true_iff;
    [destruct (matches SLACK_USERMENTION_REGEX t) eqn:E; [|reflexivity];
     apply matches_mention_head in E as (t' & ->)
    |destruct (matches LINK_REGEX t) eqn:E; [|reflexivity];
     apply matches_link_head in E as (t' & ->)];
    exfalso; apply Hno; by left.
Qed.

Lemma prose_without_everyone s :
  prose s = true -> str_replace EVERYONE ALL s = s.
Proof.
  intros Hs. apply str_replace_absent; [discriminate|].
  apply occursb_false. intros (a & b & ->).
  apply prose_no_bracket in Hs. apply Hs.
  apply in_app_iff. right. apply in_app_iff. left. by left.
Qed.

Lemma convert_of_prose_passes text out e :
  formatting_passes text = Ok out -> prose out = true ->
  convert_to_zulip_markdown text e = (Ok (out, [], false), e).
Proof.
  intros Ho Hc. rewrite convert_after_passes, Ho. cbv zeta.
  rewrite (prose_without_everyone out Hc).
  destruct (prose_tokens out Hc) as [Hm Hl].
  pose proof (tokens_loop_without_mentions _ [] [] false e Hm) as Hloop.
  cbn [length app orb] in Hloop. rewrite Hloop.
  destruct (unlink_not_link _ Hl) as [-> ->]. by rewrite join_split.
Qed.

(** X21: a text without a backslash and without an opening angle
    bracket is converted, whatever the directory: the result is that of
    the three formatting passes, nobody is mentioned and there is no link. *)
Theorem prose_is_converted text e :
  prose text = true ->
  exists out,
    convert_to_zulip_markdown text e = (Ok (out, [], false), e)
    /\ formatting_passes text = Ok out
    /\ prose out = true.
Proof.
  intros Hp.
  destruct (formatting_passes_clean prose_char text prose_char_no_backslash
              eq_refl eq_refl Hp) as (out & Ho & Hc).
  exists out. split; [by apply convert_of_prose_passes|by split].
Qed.

Lemma prose_is_converted_witness :
  prose A_PROSE = true
  /\ exists out,
       convert_to_zulip_markdown A_PROSE TWO_USERS_ENV
       = (Ok (out, [], false), TWO_USERS_ENV)
       /\ formatting_passes A_PROSE = Ok out
       /\ prose out = true.
Proof.
  split; [reflexivity|]. exact (prose_is_converted A_PROSE TWO_USERS_ENV eq_refl).
Defined.

(** ** A match that takes the whole subject *)

Lemma scan_skip_all r rest :
  forall pos, attempt r (pos + length rest) [] = None ->
    scan r pos (length rest) rest = [].
Proof.
  induction rest as [|c rest IH]; intros pos H.
  - cbn in *. rewrite Nat.add_0_r in H. by rewrite H.
  - cbn [scan length]. apply IH. rewrite <- H. f_equal. cbn. lia.
Qed.

Lemma finditer_whole r s m :
  attempt r 0 s = Some m -> rm_end m = length s -> s <> [] ->
  attempt r (length s) [] = None ->
  re_finditer r s = [m].
Proof.
  intros Hm Hend Hs Hnone. unfold re_finditer.
  destruct s as [|c rest]; [done|]. cbn [scan]. rewrite Hm. f_equal.
  rewrite Hend. cbn [length]. replace (S (length rest) - 0 - 1)%nat
    with (length rest) by lia.
  apply scan_skip_all. exact Hnone.
Qed.

Lemma re_sub_whole r repl s m :
  no_backslash repl = true ->
  attempt r 0 s = Some m -> rm_end m = length s -> s <> [] ->
  attempt r (length s) [] = None ->
  re_sub r repl s = Ok repl.
Proof.
  intros Hr Hm Hend Hs Hnone. rewrite re_sub_plain by exact Hr.
  rewrite (finditer_whole _ _ _ Hm Hend Hs Hnone). cbn [splice].
  rewrite expand_plain, Hend, drop_all, app_nil_r.
  assert (rm_start m = 0%nat) as ->.
  { unfold attempt in Hm. destruct (exec _ _ _); [|discriminate].
    by injection Hm as <-. }
  reflexivity.
Qed.

(** ** A mention that resolves *)

Lemma mention_token_groups slack_id handle :
  let m := RMatch 0 (length (mention_token slack_id handle))
             ((5%nat, py ">")
                :: match handle with
                   | Some h => [(4%nat, h); (3%nat, py "|")]
                   | None => []
                   end ++ [(2%nat, slack_id); (1%nat, py "<@")]) in
  group (mention_token slack_id handle) m 4 = handle
  /\ group (mention_token slack_id handle) m 2 = Some slack_id.
Proof. destruct handle; split; reflexivity. Qed.

Lemma get_user_mentions_resolved slack_id handle e us1 u us2 user_id :
  alnum slack_id = true ->
  match handle with Some h => alnum h = true | None => True end ->
  users e = us1 ++ u :: us2 ->
  resolves slack_id handle u = true ->
  forallb (fun u' => negb (resolves slack_id handle u')) us2 = true ->
  added_users e !! slack_id = Some user_id ->
  no_backslash (get_user_full_name u) = true ->
  get_user_mentions (mention_token slack_id handle) e
  = (Ok (py "@**" ++ get_user_full_name u ++ py "** ", user_id), e).
Proof.
  intros Hid Hh Hus Hu Hus2 Hadded Hname.
  pose proof (mention_token_match slack_id handle Hid Hh) as Hm.
  unfold get_user_mentions, re_search.
  rewrite (search_from_hit _ _ _ _ Hm). cbv beta iota zeta.
  destruct (mention_token_groups slack_id handle) as [-> ->].
  unfold mbind, M_bind, read_users. rewrite Hus.
  rewrite (mentions_loop_last slack_id handle us1 u us2 user_id None e Hadded).
  - unfold lift. erewrite re_sub_whole; [reflexivity| |exact Hm|reflexivity| |].
    + rewrite !no_backslash_app, Hname. reflexivity.
    + unfold mention_token. discriminate.
    + apply (attempt_needs _ (chr "<")); [|by intros []].
      intros w Hw. apply mention_starts_with_bracket in Hw as (w' & ->). by left.
  - by rewrite mention_applies_resolves.
  - apply forallb_forall. intros v Hv. rewrite mention_applies_resolves by exact Hh.
    rewrite forallb_forall in Hus2. by apply Hus2.
Qed.

(** X22: for every token [<@ID>] or [<@ID|handle>] (ID and handle of
    letters and digits) that an entry of the directory resolves, the
    conversion gives [@**name** ] with the display name of the last such
    entry (a name without a backslash), and lists the Zulip id of ID. *)
Theorem resolved_mention_is_rewritten slack_id handle e us1 u us2 user_id :
  alnum slack_id = true ->
  match handle with Some h => alnum h = true | None => True end ->
  users e = us1 ++ u :: us2 ->
  resolves slack_id handle u = true ->
  forallb (fun u' => negb (resolves slack_id handle u')) us2 = true ->
  added_users e !! slack_id = Some user_id ->
  no_backslash (get_user_full_name u) = true ->
  convert_to_zulip_markdown (mention_token slack_id handle) e
  = (Ok (py "@**" ++ get_user_full_name u ++ py "** ", [user_id], false), e).
Proof.
  intros Hid Hh Hus Hu Hus2 Hadded Hname.
  pose proof (get_user_mentions_resolved _ _ _ _ _ _ _ Hid Hh Hus Hu Hus2 Hadded
                Hname) as Hg.
  destruct (mention_token_plain slack_id handle Hid Hh) as (Hd & He & Hsp).
  destruct (formatting_passes_without _ Hd) as (H1 & H2 & H3).
  rewrite convert_after_passes. unfold formatting_passes. rewrite H1, H2, H3.
  cbv zeta. rewrite str_replace_absent by (discriminate || exact He).
  rewrite (split_no_sep _ _ Hsp).
  set (mention := py "@**" ++ get_user_full_name u ++ py "** ") in *.
  assert (Hlink : matches LINK_REGEX mention = false).
  { destruct (matches LINK_REGEX mention) eqn:E; [|reflexivity].
    apply matches_link_head in E as (t & E). discriminate. }
  assert (Hturn : turn e (mention_token slack_id handle)
                  = Ok (mention, [user_id], false)).
  { unfold turn, re_match. rewrite (mention_token_match slack_id handle Hid Hh).
    rewrite Hg. cbn [fst]. unfold unlink. by rewrite Hlink. }
  assert (Hturns : Forall2 (fun t out => turn e t = Ok out)
                     [mention_token slack_id handle]
                     [(mention, [user_id], false)])
    by (constructor; [exact Hturn|constructor]).
  pose proof (tokens_loop_turns e _ _ Hturns [] [] false) as Hloop.
  cbn [app map concat existsb fst snd orb] in Hloop.
  change (length (@nil str)) with 0%nat in Hloop.
  match goal with
  | |- context [tokens_loop ?n ?i ?ts ?ids ?l ?env] =>
      replace (tokens_loop n i ts ids l env)
        with (Ok ([mention], [user_id], false), e) by (symmetry; exact Hloop)
  end.
  reflexivity.
Qed.

Lemma resolved_mention_is_rewritten_witness :
  alnum (py "U1") = true
  /\ alnum (py "bob") = true
  /\ users TWO_USERS_ENV = [su_entry ALICE_USER] ++ BOB :: []
  /\ resolves (py "U1") (Some (py "bob")) BOB = true
  /\ forallb (fun u' => negb (resolves (py "U1") (Some (py "bob")) u')) [] = true
  /\ added_users TWO_USERS_ENV !! py "U1" = Some 11%Z
  /\ no_backslash (get_user_full_name BOB) = true
  /\ convert_to_zulip_markdown (mention_token (py "U1") (Some (py "bob")))
       TWO_USERS_ENV
     = (Ok (py "@**" ++ get_user_full_name BOB ++ py "** ", [11%Z], false),
        TWO_USERS_ENV).
Proof.
  assert (H : added_users TWO_USERS_ENV !! py "U1" = Some 11%Z)
    by (vm_compute; reflexivity).
  do 5 (split; [reflexivity|]). split; [exact H|]. split; [reflexivity|].
  exact (resolved_mention_is_rewritten (py "U1") (Some (py "bob")) TWO_USERS_ENV
           [su_entry ALICE_USER] BOB [] 11 eq_refl eq_refl eq_refl eq_refl eq_refl
           H eq_refl).
Defined.

(** ** A link is not a mention *)

Lemma no_at_head_app a b : no_at_head a -> no_at_head b -> no_at_head (a ++ b).
Proof. destruct a; [done|]. by intros H _. Qed.

Lemma no_at_head_concat ws : Forall no_at_head ws -> no_at_head (concat ws).
Proof.
  induction 1 as [|w ws Hw _ IH]; [done|]. cbn. by apply no_at_head_app.
Qed.

Lemma no_at_head_class rs w :
  in_ranges rs (chr "@") = false -> lang (OneOf rs) w -> no_at_head w.
Proof.
  intros Hat (c & -> & Hc). unfold no_at_head. intros ->.
  rewrite Hat in Hc. discriminate.
Qed.

Lemma no_at_head_rep lo hi r w :
  (forall u, lang r u -> no_at_head u) -> lang (Rep lo hi r) w -> no_at_head w.
Proof.
  intros Hr (ws & -> & Hws). apply no_at_head_concat.
  eapply Forall_impl; [exact Hws|exact Hr].
Qed.

Lemma link_host_head w : lang LINK_HOST w -> w <> [] /\ no_at_head w.
Proof.
  unfold LINK_HOST. cbn [cat]. intros (u1 & v1 & -> & H1 & u2 & v2 & -> & H2
                                       & u3 & v3 & -> & H3 & ->).
  split; [by destruct u1, u2, u3|].
  repeat apply no_at_head_app; [| | |discriminate].
  - revert H1. apply no_at_head_rep. intros u Hu. cbn [lang alt word map
      list_ascii_of_string cat] in Hu.
    destruct Hu as [Hu|[Hu|[Hu|Hu]]];
      repeat (destruct Hu as (? & ? & -> & -> & Hu)); subst; discriminate.
  - revert H2. apply no_at_head_rep. intros u. by apply no_at_head_class.
  - revert H3. apply no_at_head_rep. intros u (a & b & -> & Ha & Hb).
    apply no_at_head_app.
    + revert Ha. apply no_at_head_rep. intros x. by apply no_at_head_class.
    + revert Hb. apply no_at_head_rep. intros x. by apply no_at_head_class.
Qed.

Lemma link_second_char w :
  lang LINK_REGEX w -> exists c t, w = chr "<" :: c :: t /\ c <> chr "@".
Proof.
  change LINK_REGEX
    with (Seq Bol (Seq (Lit (chr "<"))
            (Seq (Opt (Grp 1 (alt (word "http://www.")
                         [word "https://www."; word "http://"; word "https://"])))
            (Seq (Plus (OneOf [range "a" "z"; range "0" "9"]))
            (Seq (Star (Grp 2 (cat [ Rep 1 (Some 1%nat) (OneOf [single "-"; single "."]);
                           Plus (OneOf [range "a" "z"; range "0" "9"]) ])))
            (Seq (Lit (chr "."))
               (cat [ Rep 2 (Some 5%nat) (OneOf [range "a" "z"]);
                      Opt (Grp 3 (cat [ Lit (chr ":");
                                        Rep 1 (Some 5%nat) (OneOf [range "0" "9"]) ]));
                      Opt (Grp 4 (cat [ Lit (chr "/"); Star Any ]));
                      Opt (Grp 5 (Lit (chr "|")));
                      Opt (cat [ Lit (chr "|"); Grp 6 (Plus (NoneOf [single ">"])) ]);
                      Lit (chr ">"); Eol ]))))))).
  intros (u0 & v0 & -> & -> & ub & vb & -> & -> & u1 & v1 & -> & H1
          & u2 & v2 & -> & H2 & u3 & v3 & -> & H3 & u4 & v4 & -> & -> & _).
  assert (Hh : lang LINK_HOST (u1 ++ u2 ++ u3 ++ [chr "."])).
  { unfold LINK_HOST. cbn [cat]. exists u1, (u2 ++ u3 ++ [chr "."]).
    split; [reflexivity|]. split; [exact H1|].
    exists u2, (u3 ++ [chr "."]). split; [reflexivity|]. split; [exact H2|].
    exists u3, [chr "."]. done. }
  apply link_host_head in Hh as [Hne Hat].
  cbn [app]. replace (u1 ++ u2 ++ u3 ++ chr "." :: v4)
    with ((u1 ++ u2 ++ u3 ++ [chr "."]) ++ v4) by (by rewrite <- !app_assoc).
  destruct (u1 ++ u2 ++ u3 ++ [chr "."]) as [|c t]; [done|].
  exists c, (t ++ v4). done.
Qed.

Lemma mention_second_char w :
  lang SLACK_USERMENTION_REGEX w -> exists t, w = chr "<" :: chr "@" :: t.
Proof.
  unfold SLACK_USERMENTION_REGEX. cbn [cat lang word map list_ascii_of_string].
  intros (u & v & -> & (u1 & u2 & -> & -> & ->) & _). cbn. eauto.
Qed.

Lemma link_is_no_mention token :
  matches LINK_REGEX token = true -> matches SLACK_USERMENTION_REGEX token = false.
Proof.
  unfold matches, re_match. intros H.
  destruct (attempt LINK_REGEX 0 token) as [m|] eqn:E; [|discriminate].
  apply attempt_sound in E as (w & rest & -> & Hw & _).
  apply link_second_char in Hw as (c & t & -> & Hc).
  destruct (attempt SLACK_USERMENTION_REGEX 0 _) as [m'|] eqn:E'; [|reflexivity].
  apply attempt_sound in E' as (w' & rest' & Heq & Hw' & _).
  apply mention_second_char in Hw' as (t' & ->). cbn [app] in Heq.
  injection Heq as E _. exfalso. apply Hc. exact E.
Qed.

Lemma strip_brackets_clean token :
  ~ In (chr "<") (strip_brackets token) /\ ~ In (chr ">") (strip_brackets token).
Proof.
  unfold strip_brackets.
  change (py ">") with [chr ">"]. change (py "<") with [chr "<"].
  rewrite !str_replace_char_empty. split; intros H.
  - apply filter_In in H as [H _]. apply filter_In in H as [_ H].
    by rewrite N.eqb_refl in H.
  - apply filter_In in H as [_ H]. by rewrite N.eqb_refl in H.
Qed.

(** X23: a token that the link pattern matches (a text without a
    space, a formatting delimiter or [<!everyone>]) loses every angle
    bracket it holds, and the conversion reports a link and no mention,
    whatever the directory: a link is never taken for a mention. *)
Theorem link_token_loses_its_brackets token e :
  matches LINK_REGEX token = true ->
  no_delimiters token = true ->
  ~ In SPACE token ->
  occursb EVERYONE token = false ->
  convert_to_zulip_markdown token e = (Ok (strip_brackets token, [], true), e)
  /\ ~ In (chr "<") (strip_brackets token)
  /\ ~ In (chr ">") (strip_brackets token).
Proof.
  intros Hl Hd Hs He. split; [|apply strip_brackets_clean].
  rewrite convert_without_delimiters.
  - rewrite str_replace_absent by (discriminate || exact He).
    rewrite (split_no_sep _ _ Hs). cbn [map join existsb]. unfold unlink.
    by rewrite Hl.
  - exact Hd.
  - rewrite str_replace_absent by (discriminate || exact He).
    rewrite (split_no_sep _ _ Hs). cbn [forallb].
    by rewrite (link_is_no_mention _ Hl).
Qed.

Lemma link_token_loses_its_brackets_witness :
  matches LINK_REGEX A_LINK = true
  /\ no_delimiters A_LINK = true
  /\ ~ In SPACE A_LINK
  /\ occursb EVERYONE A_LINK = false
  /\ convert_to_zulip_markdown A_LINK TWO_USERS_ENV
     = (Ok (strip_brackets A_LINK, [], true), TWO_USERS_ENV)
  /\ ~ In (chr "<") (strip_brackets A_LINK)
  /\ ~ In (chr ">") (strip_brackets A_LINK).
Proof.
  assert (Hs : ~ In SPACE A_LINK).
  { intros H. vm_compute in H. intuition discriminate. }
  split; [reflexivity|]. split; [reflexivity|]. split; [exact Hs|].
  split; [reflexivity|].
  exact (link_token_loses_its_brackets A_LINK TWO_USERS_ENV eq_refl eq_refl Hs
           eq_refl).
Defined.

(** ** Greedy repetitions *)

Lemma iterate_backtrack p k w rest g :
  match rest with c :: _ => p c = false | [] => True end ->
  forallb p w = true ->
  forall fuel lo pos, (length w <= fuel)%nat ->
    iterate (eat p) k fuel lo None (MState pos (w ++ rest) g)
    = backtrack k lo pos w rest g.
Proof.
  intros Hstop. induction w as [|c w IH]; intros Hw fuel lo pos Hfuel.
  - cbn [app backtrack]. destruct fuel as [|fuel]; [reflexivity|].
    cbn [iterate may_iterate]. unfold eat at 1. cbn [m_rest].
    destruct rest as [|c rest]; [reflexivity|]. by rewrite Hstop.
  - cbn [forallb] in Hw. apply andb_true_iff in Hw as [Hc Hw].
    destruct fuel as [|fuel]; [cbn in Hfuel; lia|].
    cbn [iterate may_iterate fmap option_fmap option_map backtrack].
    unfold eat at 1. cbn [m_rest app]. rewrite Hc.
    unfold advance. cbn [m_pos m_rest m_groups tail].
    rewrite IH; [reflexivity|exact Hw|cbn in Hfuel; lia].
Qed.

(** The continuation refuses the whole run: the last character is given
    back. *)
Lemma backtrack_snoc k c rest g w :
  forall lo pos, (lo <= length w)%nat ->
    k (MState (pos + length w + 1) rest g) = None ->
    backtrack k lo pos (w ++ [c]) rest g = backtrack k lo pos w (c :: rest) g.
Proof.
  induction w as [|a w IH]; intros lo pos Hlo Hk.
  - cbn in Hlo. assert (lo = 0%nat) as -> by lia. cbn [app backtrack pred].
    cbn [length] in Hk. rewrite Nat.add_0_r, Nat.add_1_r in Hk. by rewrite Hk.
  - cbn [app backtrack]. rewrite IH.
    + by rewrite <- !app_assoc.
    + cbn in Hlo. lia.
    + rewrite <- Hk. do 2 f_equal. cbn. lia.
Qed.

(** The continuation accepts the whole run. *)
Lemma backtrack_accept k rest g res w :
  forall lo pos, (lo <= length w)%nat ->
    k (MState (pos + length w) rest g) = Some res ->
    backtrack k lo pos w rest g = Some res.
Proof.
  induction w as [|a w IH]; intros lo pos Hlo Hk.
  - cbn in Hlo. assert (lo = 0%nat) as -> by lia. cbn.
    cbn in Hk. by rewrite Nat.add_0_r in Hk.
  - cbn [backtrack]. rewrite (IH (pred lo) (S pos)); [reflexivity| |].
    + cbn in Hlo. lia.
    + rewrite <- Hk. do 2 f_equal. cbn. lia.
Qed.

Lemma exec_class_backtrack lo rs k pos w rest g :
  match rest with c :: _ => in_ranges rs c = false | [] => True end ->
  forallb (in_ranges rs) w = true ->
  exec (Rep lo None (OneOf rs)) k (MState pos (w ++ rest) g)
  = backtrack k lo pos w rest g.
Proof.
  intros Hstop Hw. cbn [exec m_rest].
  change (exec (OneOf rs)) with (eat (in_ranges rs)).
  apply iterate_backtrack; [exact Hstop|exact Hw|].
  rewrite length_app. lia.
Qed.

(** ** A formatting pattern on a word between delimiters *)

Lemma sub_succ_1 n : (S n - n = 1)%nat.
Proof. lia. Qed.

(** At the start of the subject, [OPENING] matches the empty string
    first. *)
Lemma exec_opening_start k rest g :
  exec (Grp 1 OPENING) k (MState 0 rest g)
  = match k (MState 0 rest ((1%nat, []) :: g)) with
    | Some res => Some res
    | None => exec OPENING_CHAR (fun st1 => k (capture 1 (MState 0 rest g) st1))
                   (MState 0 rest g)
    end.
Proof. reflexivity. Qed.

Section DelimitedWord.
Variable d : char.
Variable inner : list (char * char).

Lemma end_refuses_end pos g :
  exec (FORMATTING_END d) Some (MState pos [] g) = None.
Proof. reflexivity. Qed.

Lemma end_accepts pos g :
  exec (FORMATTING_END d) Some (MState pos [d] g)
  = Some (MState (S pos) [] ((6%nat, []) :: (5%nat, [d]) :: g)).
Proof.
  unfold FORMATTING_END. cbn [cat]. enter_seqs. enter_group.
  rewrite exec_lit. unfold capture at 1. cbn [m_pos m_rest m_groups].
  rewrite sub_succ_1. cbn [take]. enter_group.
  unfold CLOSING. cbn [alt exec m_rest]. unfold capture.
  cbn [m_pos m_rest m_groups]. by rewrite Nat.sub_diag.
Qed.

Lemma tail_refuses_end pos g :
  exec (FORMATTING_TAIL d) Some (MState pos [] g) = None.
Proof. reflexivity. Qed.

Lemma tail_refuses_delim pos g :
  exec (FORMATTING_TAIL d) Some (MState pos [d] g) = None.
Proof.
  unfold FORMATTING_TAIL. enter_seqs. enter_group.
  destruct (in_ranges VISIBLE d) eqn:Hd4.
  - rewrite (exec_class_backtrack 1 VISIBLE _ pos [d] [] g I)
      by (cbn [forallb]; by rewrite Hd4).
    cbn [backtrack pred app]. unfold capture. cbn [m_pos m_rest m_groups].
    by rewrite end_refuses_end.
  - by rewrite exec_plus_miss.
Qed.

Section Word.
Variable c : char.
Hypothesis Hc4 : in_ranges VISIBLE c = true.

Lemma tail_accepts pos g :
  exec (FORMATTING_TAIL d) Some (MState pos [c; d] g)
  = Some (MState (S (S pos)) []
            ((6%nat, []) :: (5%nat, [d]) :: (4%nat, [c]) :: g)).
Proof.
  unfold FORMATTING_TAIL. enter_seqs. enter_group.
  destruct (in_ranges VISIBLE d) eqn:Hd4.
  - rewrite (exec_class_backtrack 1 VISIBLE _ pos [c; d] [] g I)
      by (cbn [forallb]; by rewrite Hc4, Hd4).
    cbn [backtrack pred app]. unfold capture. cbn [m_pos m_rest m_groups].
    rewrite end_refuses_end, end_accepts, sub_succ_1. reflexivity.
  - rewrite (exec_class_backtrack 1 VISIBLE _ pos [c] [d] g Hd4)
      by (cbn [forallb]; by rewrite Hc4).
    cbn [backtrack pred app]. unfold capture. cbn [m_pos m_rest m_groups].
    rewrite end_accepts, sub_succ_1. reflexivity.
Qed.

Variable w : str.
Hypothesis Hw : forallb (in_ranges inner) w = true.
Hypothesis Hc : in_ranges inner c = true.
Hypothesis Hd : in_ranges inner d = in_ranges VISIBLE d.

(** The pattern from group 3 on, after the opening delimiter. *)
Lemma inner_accepts pos g :
  exec (Seq (Grp 3 (Star (OneOf inner))) (FORMATTING_TAIL d)) Some
       (MState pos (w ++ [c; d]) g)
  = Some (MState (pos + length w + 2) []
            ((6%nat, []) :: (5%nat, [d]) :: (4%nat, [c]) :: (3%nat, w) :: g)).
Proof.
  enter_seqs. enter_group. unfold Star.
  set (k := fun st1 => exec (FORMATTING_TAIL d) Some
                         (capture 3 (MState pos (w ++ [c; d]) g) st1)).
  assert (Hk1 : k (MState (pos + length w) [c; d] g)
                = Some (MState (pos + length w + 2) []
                          ((6%nat, []) :: (5%nat, [d]) :: (4%nat, [c])
                             :: (3%nat, w) :: g))).
  { unfold k, capture. cbn [m_pos m_rest m_groups]. rewrite take_run.
    rewrite tail_accepts. do 2 f_equal. lia. }
  assert (Hk2 : k (MState (pos + length w + 1) [d] g) = None).
  { unfold k, capture. cbn [m_pos m_rest m_groups]. apply tail_refuses_delim. }
  assert (Hk3 : k (MState (pos + length (w ++ [c]) + 1) [] g) = None).
  { unfold k, capture. cbn [m_pos m_rest m_groups]. apply tail_refuses_end. }
  destruct (in_ranges inner d) eqn:Hdi.
  - replace (w ++ [c; d]) with (((w ++ [c]) ++ [d]) ++ [])
      by (by rewrite app_nil_r, <- app_assoc).
    rewrite exec_class_backtrack;
      [|exact I|rewrite !forallb_app, Hw; cbn [forallb]; by rewrite Hc, Hdi].
    rewrite backtrack_snoc by (lia || exact Hk3).
    rewrite backtrack_snoc by (lia || exact Hk2).
    by apply backtrack_accept; [lia|].
  - replace (w ++ [c; d]) with ((w ++ [c]) ++ [d]) by (by rewrite <- app_assoc).
    rewrite exec_class_backtrack;
      [|exact Hdi|rewrite forallb_app, Hw; cbn [forallb]; by rewrite Hc].
    rewrite backtrack_snoc by (lia || exact Hk2).
    by apply backtrack_accept; [lia|].
Qed.

(** The match of a formatting pattern on a word between delimiters. *)
Lemma formatting_word_match :
  attempt (formatting d inner) 0 (d :: w ++ [c; d])
  = Some (RMatch 0 (length (d :: w ++ [c; d]))
            [(6%nat, []); (5%nat, [d]); (4%nat, [c]); (3%nat, w);
             (2%nat, [d]); (1%nat, [])]).
Proof.
  unfold attempt, formatting. cbn [cat]. enter_seq.
  rewrite exec_opening_start. enter_seq. enter_group. rewrite exec_lit.
  unfold capture at 1. cbn [m_pos m_rest m_groups Nat.sub take].
  change (Seq (Grp 3 (Star (OneOf inner)))
            (Seq (Grp 4 (Plus (OneOf [range "!" "}"])))
               (Seq (Grp 5 (Lit d)) (Grp 6 CLOSING))))
    with (Seq (Grp 3 (Star (OneOf inner))) (FORMATTING_TAIL d)).
  rewrite inner_accepts. cbn [m_pos m_groups]. do 2 f_equal.
  cbn [length]. rewrite length_app. cbn. lia.
Qed.

End Word.
End DelimitedWord.

(** ** Letters and digits *)

Lemma alnum_bounds c :
  in_ranges ALNUM_RANGES c = true -> 48 <= c <= 122 /\ c <> 92.
Proof.
  unfold in_ranges, ALNUM_RANGES, range. cbn [existsb fst snd]. unfold chr.
  change (N_of_ascii "a") with 97. change (N_of_ascii "z") with 122.
  change (N_of_ascii "A") with 65. change (N_of_ascii "Z") with 90.
  change (N_of_ascii "0") with 48. change (N_of_ascii "9") with 57.
  rewrite !orb_true_iff, !andb_true_iff, !N.leb_le.
  unfold char in *. intros [H|[H|[H|H]]]; [lia | lia | lia | discriminate].
Qed.

Lemma alnum_visible c : in_ranges ALNUM_RANGES c = true -> in_ranges VISIBLE c = true.
Proof.
  intros [H _]%alnum_bounds. unfold in_ranges, VISIBLE, range. cbn [existsb fst snd].
  unfold chr. change (N_of_ascii "!") with 33. change (N_of_ascii "}") with 125.
  rewrite orb_false_r. apply andb_true_iff. rewrite !N.leb_le.
  unfold char in *. lia.
Qed.

Lemma alnum_strikethrough_inner c :
  in_ranges ALNUM_RANGES c = true -> in_ranges STRIKETHROUGH_INNER c = true.
Proof.
  intros [H _]%alnum_bounds. unfold in_ranges, STRIKETHROUGH_INNER, range.
  cbn [existsb fst snd]. unfold chr.
  change (N_of_ascii "+") with 43. change (N_of_ascii "}") with 125.
  apply orb_true_iff. right. apply orb_true_iff. left.
  apply andb_true_iff. rewrite !N.leb_le. unfold char in *. lia.
Qed.

Lemma alnum_any_inner c :
  in_ranges ALNUM_RANGES c = true -> in_ranges ANY_INNER c = true.
Proof.
  intros [H _]%alnum_bounds. unfold in_ranges, ANY_INNER, range.
  cbn [existsb fst snd]. unfold chr.
  change (N_of_ascii " ") with 32. change (N_of_ascii "~") with 126.
  apply orb_true_iff. left.
  apply andb_true_iff. rewrite !N.leb_le. unfold char in *. lia.
Qed.

Lemma alnum_no_backslash w :
  forallb (in_ranges ALNUM_RANGES) w = true -> no_backslash w = true.
Proof.
  unfold no_backslash. rewrite !forallb_forall. intros H c Hc.
  apply H, alnum_bounds in Hc as [_ Hc]. apply negb_true_iff, N.eqb_neq.
  unfold BACKSLASH. exact Hc.
Qed.

Lemma forallb_impl {A} (P Q : A -> bool) l :
  (forall x, P x = true -> Q x = true) -> forallb P l = true -> forallb Q l = true.
Proof. rewrite !forallb_forall. auto. Qed.

(** ** A word between delimiters *)

Lemma delimited_word_is_converted d inner kw w :
  alnum w = true ->
  (forall c, in_ranges ALNUM_RANGES c = true -> in_ranges inner c = true) ->
  in_ranges inner d = in_ranges VISIBLE d ->
  no_backslash kw = true ->
  convert_markdown_syntax (d :: w ++ [d]) (formatting d inner) kw
  = Ok (kw ++ w ++ kw).
Proof.
  intros Hw Hinner Hd Hkw. apply alnum_run in Hw as [Hw Hne].
  destruct (exists_last Hne) as (w' & c & ->).
  rewrite forallb_app in Hw. apply andb_true_iff in Hw as [Hw' Hc].
  cbn [forallb] in Hc. rewrite andb_true_r in Hc.
  pose proof (formatting_word_match d inner c (alnum_visible c Hc) w'
                (forallb_impl _ _ _ Hinner Hw') (Hinner c Hc) Hd) as Hm.
  rewrite <- app_assoc. cbn [app].
  assert (Hend : attempt (formatting d inner) (length (d :: w' ++ [c; d])) [] = None).
  { apply (attempt_needs _ d); [apply formatting_needs_delimiter|by intros []]. }
  unfold convert_markdown_syntax.
  rewrite (finditer_whole _ _ _ Hm eq_refl ltac:(discriminate) Hend).
  cbn [markdown_loop]. unfold converted_token, group. cbn [rm_groups find fst snd
    Nat.eqb fmap option_fmap option_map].
  assert (Htok : no_backslash ([] ++ kw ++ w' ++ [c] ++ kw ++ []) = true).
  { rewrite !no_backslash_app, Hkw, (alnum_no_backslash w' Hw').
    cbn. rewrite !andb_true_r.
    destruct (alnum_bounds c Hc) as [_ Hb]. apply N.eqb_neq in Hb.
    unfold BACKSLASH. by rewrite Hb. }
  rewrite (re_sub_whole _ _ _ _ Htok Hm eq_refl ltac:(discriminate) Hend).
  by rewrite app_nil_r, <- app_assoc.
Qed.

(** ** The conversion of a word between delimiters *)

(** X24: on a word of letters and digits between two delimiters,
    each pass of [convert_markdown_syntax] does what its docstring tells:
    [~w~] gives [~~w~~], [_w_] gives [*w*] and [*w*] gives [**w**]. *)
Theorem formatting_pass_on_a_word w :
  alnum w = true ->
  convert_markdown_syntax (between (py "~") w) SLACK_STRIKETHROUGH_REGEX (py "~~")
  = Ok (between (py "~~") w)
  /\ convert_markdown_syntax (between (py "_") w) SLACK_ITALIC_REGEX (py "*")
     = Ok (between (py "*") w)
  /\ convert_markdown_syntax (between (py "*") w) SLACK_BOLD_REGEX (py "**")
     = Ok (between (py "**") w).
Proof.
  intros Hw. repeat split.
  - apply (delimited_word_is_converted (chr "~") STRIKETHROUGH_INNER (py "~~") w Hw);
      [apply alnum_strikethrough_inner|reflexivity|reflexivity].
  - apply (delimited_word_is_converted (chr "_") ANY_INNER (py "*") w Hw);
      [apply alnum_any_inner|reflexivity|reflexivity].
  - apply (delimited_word_is_converted (chr "*") ANY_INNER (py "**") w Hw);
      [apply alnum_any_inner|reflexivity|reflexivity].
Qed.

Lemma formatting_pass_on_a_word_witness :
  alnum (py "word") = true
  /\ convert_markdown_syntax (between (py "~") (py "word"))
       SLACK_STRIKETHROUGH_REGEX (py "~~")
     = Ok (between (py "~~") (py "word"))
  /\ convert_markdown_syntax (between (py "_") (py "word")) SLACK_ITALIC_REGEX
       (py "*")
     = Ok (between (py "*") (py "word"))
  /\ convert_markdown_syntax (between (py "*") (py "word")) SLACK_BOLD_REGEX
       (py "**")
     = Ok (between (py "**") (py "word")).
Proof.
  split; [reflexivity|]. exact (formatting_pass_on_a_word (py "word") eq_refl).
Defined.

Lemma alnum_prose_char c :
  in_ranges ALNUM_RANGES c = true -> prose_char c = true.
Proof.
  unfold in_ranges, ALNUM_RANGES, range, prose_char, BACKSLASH.
  cbn [existsb fst snd]. unfold chr.
  change (N_of_ascii "a") with 97. change (N_of_ascii "z") with 122.
  change (N_of_ascii "A") with 65. change (N_of_ascii "Z") with 90.
  change (N_of_ascii "0") with 48. change (N_of_ascii "9") with 57.
  change (N_of_ascii "<") with 60.
  rewrite !orb_true_iff, !andb_true_iff, !N.leb_le, !negb_true_iff, !N.eqb_neq.
  unfold char in *. intros [H|[H|[H|H]]]; [lia | lia | lia | discriminate].
Qed.

Lemma alnum_prose w : alnum w = true -> prose w = true.
Proof.
  intros [Hw _]%alnum_run. unfold prose.
  eapply forallb_impl; [|exact Hw]. apply alnum_prose_char.
Qed.

Lemma alnum_without_delimiters w c :
  alnum w = true -> is_delimiter c = true -> ~ In c w.
Proof.
  intros [Hw _]%alnum_run Hc Hin. rewrite forallb_forall in Hw.
  apply Hw, alnum_char_plain in Hin as [Hin _]. congruence.
Qed.

Lemma between_without delim s c :
  ~ In c delim -> ~ In c s -> ~ In c (between delim s).
Proof. unfold between. rewrite !in_app_iff. tauto. Qed.

Lemma between_prose delim s :
  prose delim = true -> prose s = true -> prose (between delim s) = true.
Proof.
  unfold between, prose. intros Hd Hs. by rewrite !forallb_app, Hd, Hs.
Qed.

(** X25: the conversion of a word of letters and digits between
    delimiters: [~w~] gives [~~w~~], and both [_w_] and [*w*] give
    [**w**], since the pass for bold runs on the result of the pass for
    italic. *)
Theorem italic_word_comes_out_bold w e :
  alnum w = true ->
  convert_to_zulip_markdown (between (py "~") w) e
  = (Ok (between (py "~~") w, [], false), e)
  /\ convert_to_zulip_markdown (between (py "_") w) e
     = (Ok (between (py "**") w, [], false), e)
  /\ convert_to_zulip_markdown (between (py "*") w) e
     = (Ok (between (py "**") w, [], false), e).
Proof.
  intros Hw.
  pose proof (delimited_word_is_converted (chr "~") STRIKETHROUGH_INNER (py "~~")
                w Hw alnum_strikethrough_inner eq_refl eq_refl) as H1.
  pose proof (delimited_word_is_converted (chr "_") ANY_INNER (py "*")
                w Hw alnum_any_inner eq_refl eq_refl) as H2.
  pose proof (delimited_word_is_converted (chr "*") ANY_INNER (py "**")
                w Hw alnum_any_inner eq_refl eq_refl) as H3.
  change (chr "~" :: w ++ [chr "~"]) with (between (py "~") w) in H1.
  change (py "~~" ++ w ++ py "~~") with (between (py "~~") w) in H1.
  change (chr "_" :: w ++ [chr "_"]) with (between (py "_") w) in H2.
  change (py "*" ++ w ++ py "*") with (between (py "*") w) in H2, H3.
  change (chr "*" :: w ++ [chr "*"]) with (between (py "*") w) in H3.
  change (py "**" ++ w ++ py "**") with (between (py "**") w) in H3.
  unfold STRIKETHROUGH_INNER, ANY_INNER in H1, H2, H3.
  pose proof (alnum_without_delimiters w (chr "~") Hw eq_refl) as Ht.
  pose proof (alnum_without_delimiters w (chr "_") Hw eq_refl) as Hu.
  pose proof (alnum_without_delimiters w (chr "*") Hw eq_refl) as Hs.
  pose proof (alnum_prose w Hw) as Hp.
  assert (Hneq : forall a b : char, a <> b -> ~ In a [b]).
  { intros a b Hab [->|[]]. congruence. }
  repeat split; apply convert_of_prose_passes;
    try (apply between_prose; [reflexivity|exact Hp]);
    unfold formatting_passes, SLACK_STRIKETHROUGH_REGEX, SLACK_ITALIC_REGEX,
      SLACK_BOLD_REGEX.
  - rewrite H1.
    rewrite convert_markdown_syntax_without
      by (apply between_without; [by intros [|[|[]]]|exact Hu]).
    apply convert_markdown_syntax_without.
    apply between_without; [by intros [|[|[]]]|exact Hs].
  - rewrite convert_markdown_syntax_without
      by (apply between_without; [by intros [|[]]|exact Ht]).
    rewrite H2. exact H3.
  - rewrite convert_markdown_syntax_without
      by (apply between_without; [by intros [|[]]|exact Ht]).
    rewrite convert_markdown_syntax_without
      by (apply between_without; [by intros [|[]]|exact Hu]).
    exact H3.
Qed.

Lemma italic_word_comes_out_bold_witness :
  alnum (py "word") = true
  /\ convert_to_zulip_markdown (between (py "~") (py "word")) TWO_USERS_ENV
     = (Ok (between (py "~~") (py "word"), [], false), TWO_USERS_ENV)
  /\ convert_to_zulip_markdown (between (py "_") (py "word")) TWO_USERS_ENV
     = (Ok (between (py "**") (py "word"), [], false), TWO_USERS_ENV)
  /\ convert_to_zulip_markdown (between (py "*") (py "word")) TWO_USERS_ENV
     = (Ok (between (py "**") (py "word"), [], false), TWO_USERS_ENV).
Proof.
  split; [reflexivity|].
  exact (italic_word_comes_out_bold (py "word") TWO_USERS_ENV eq_refl).
Defined.

(** ** More than one match *)

(** The turns of the loop on a text that the pattern does not match any
    more. *)
Lemma markdown_loop_no_match r kw s0 ms text :
  no_backslash kw = true -> no_backslash s0 = true ->
  Forall (convertible s0) ms ->
  Forall (fun m => Forall (fun g => no_backslash (snd g) = true) (rm_groups m)) ms ->
  re_finditer r text = [] ->
  markdown_loop r kw s0 ms text = Ok text.
Proof.
  intros Hkw Hs0 Hms Hcl Hnone. induction Hms as [|m ms Hm _ IH]; [reflexivity|].
  apply Forall_cons in Hcl as [Hcm Hcl]. cbn [markdown_loop].
  destruct (converted_token_convertible s0 kw m Hm)
    as (g1 & g3 & g4 & g6 & H1 & H3 & H4 & H6 & ->).
  rewrite re_sub_plain.
  - rewrite Hnone. cbn [splice drop]. by apply IH.
  - pose proof (group_clean _ s0 m _ _ Hs0 Hcm H1).
    pose proof (group_clean _ s0 m _ _ Hs0 Hcm H3).
    pose proof (group_clean _ s0 m _ _ Hs0 Hcm H4).
    pose proof (group_clean _ s0 m _ _ Hs0 Hcm H6).
    unfold no_backslash in *. repeat apply forallb_app_2; assumption.
Qed.

(** X26: when a formatting pattern has several matches in a text
    without a backslash, the first turn of the loop replaces every one of
    them by the conversion of the first match; when the pattern matches
    nothing in the text after that, this text is the result of
    [convert_markdown_syntax]. *)
Theorem first_match_replaces_all text delim inner kw m ms token :
  no_backslash text = true -> no_backslash kw = true ->
  re_finditer (formatting delim inner) text = m :: ms ->
  converted_token text kw m = Ok token ->
  re_finditer (formatting delim inner)
    (splice (TLit <$> token) text 0 (m :: ms)) = [] ->
  convert_markdown_syntax text (formatting delim inner) kw
  = Ok (splice (TLit <$> token) text 0 (m :: ms)).
Proof.
  intros Ht Hkw Hfind Htoken Hnone. unfold convert_markdown_syntax.
  pose proof (formatting_matches_convertible delim inner text text 0 0) as Hconv.
  pose proof (matches_clean _ (formatting delim inner) text 0 0 Ht) as Hclean.
  fold (re_finditer (formatting delim inner) text) in Hconv, Hclean.
  rewrite Hfind in *. apply Forall_cons in Hconv as [Hm Hconv].
  apply Forall_cons in Hclean as [Hcm Hclean].
  cbn [markdown_loop]. rewrite Htoken.
  destruct (converted_token_convertible text kw m Hm)
    as (g1 & g3 & g4 & g6 & H1 & H3 & H4 & H6 & Heq).
  rewrite Htoken in Heq. injection Heq as ->.
  rewrite re_sub_plain, Hfind.
  - by apply markdown_loop_no_match.
  - pose proof (group_clean _ text m _ _ Ht Hcm H1).
    pose proof (group_clean _ text m _ _ Ht Hcm H3).
    pose proof (group_clean _ text m _ _ Ht Hcm H4).
    pose proof (group_clean _ text m _ _ Ht Hcm H6).
    unfold no_backslash in *. repeat apply forallb_app_2; assumption.
Qed.

Lemma first_match_replaces_all_witness :
  no_backslash TWO_STRUCK = true
  /\ no_backslash (py "~~") = true
  /\ re_finditer SLACK_STRIKETHROUGH_REGEX TWO_STRUCK
     = FIRST_STRUCK :: [SECOND_STRUCK]
  /\ converted_token TWO_STRUCK (py "~~") FIRST_STRUCK = Ok (py " ~~a~~ ")
  /\ re_finditer SLACK_STRIKETHROUGH_REGEX
       (splice (TLit <$> py " ~~a~~ ") TWO_STRUCK 0
          (FIRST_STRUCK :: [SECOND_STRUCK])) = []
  /\ convert_markdown_syntax TWO_STRUCK SLACK_STRIKETHROUGH_REGEX (py "~~")
     = Ok (splice (TLit <$> py " ~~a~~ ") TWO_STRUCK 0
             (FIRST_STRUCK :: [SECOND_STRUCK])).
Proof.
  assert (H3 : re_finditer SLACK_STRIKETHROUGH_REGEX TWO_STRUCK
               = FIRST_STRUCK :: [SECOND_STRUCK]) by (vm_compute; reflexivity).
  assert (H5 : re_finditer SLACK_STRIKETHROUGH_REGEX
                 (splice (TLit <$> py " ~~a~~ ") TWO_STRUCK 0
                    (FIRST_STRUCK :: [SECOND_STRUCK])) = [])
    by (vm_compute; reflexivity).
  split; [reflexivity|]. split; [reflexivity|]. split; [exact H3|].
  split; [reflexivity|]. split; [exact H5|].
  exact (first_match_replaces_all TWO_STRUCK (chr "~") STRIKETHROUGH_INNER
           (py "~~") FIRST_STRUCK [SECOND_STRUCK] (py " ~~a~~ ") eq_refl eq_refl
           H3 eq_refl H5).
Defined.

(** The second struck word is lost. *)
Lemma two_struck_converted :
  splice (TLit <$> py " ~~a~~ ") TWO_STRUCK 0 (FIRST_STRUCK :: [SECOND_STRUCK])
  = py "x ~~a~~ y ~~a~~ z".
Proof. reflexivity. Qed.

(** ** What makes the import raise *)












(** ** The time stamp of a message *)

Lemma span_app_stop p x y :
  forallb p x = true ->
  match y with [] => True | c :: _ => p c = false end ->
  span p (x ++ y) = (x, y).
Proof.
  intros Hx Hy. induction x as [|c x IH].
  - destruct y as [|d y]; [reflexivity|]. cbn. by rewrite Hy.
  - cbn in Hx. apply andb_true_iff in Hx as [Hc Hx].
    cbn [app span]. by rewrite Hc, IH.
Qed.

Lemma span_all p x : forallb p x = true -> span p x = (x, []).
Proof.
  intros Hx. rewrite <- (app_nil_r x) at 1. by apply span_app_stop.
Qed.

Lemma digits_split a :
  forallb is_digit a = true ->
  exists z d,
    a = z ++ d /\ forallb (N.eqb (chr "0")) z = true
    /\ forallb is_digit d = true
    /\ match d with [] => True | c :: _ => (chr "0" =? c) = false end.
Proof.
  induction a as [|c a IH]; intros Ha.
  - by exists [], [].
  - cbn in Ha. apply andb_true_iff in Ha as [Hc Ha].
    destruct (chr "0" =? c) eqn:Hz.
    + destruct (IH Ha) as (z & d & -> & Hz' & Hd & Hh).
      exists (c :: z), d. split; [reflexivity|].
      split; [cbn [forallb]; by rewrite Hz, Hz'|]. by split.
    + exists [], (c :: a). split; [reflexivity|]. split; [reflexivity|].
      split; [cbn [forallb]; by rewrite Hc, Ha|exact Hz].
Qed.

Lemma is_digit_bounds c : is_digit c = true -> 48 <= c <= 57.
Proof.
  unfold is_digit. intros [H1 H2]%andb_true_iff.
  apply N.leb_le in H1, H2. change (chr "0") with 48 in H1.
  change (chr "9") with 57 in H2. lia.
Qed.

Lemma digit_no_space c : is_digit c = true -> is_space c = false.
Proof.
  intros H%is_digit_bounds. unfold is_space.
  apply orb_false_iff. split.
  - apply andb_false_iff. right. apply N.leb_gt. lia.
  - apply N.eqb_neq. lia.
Qed.

Lemma digit_no_sign c t : is_digit c = true -> sign_of (c :: t) = (false, c :: t).
Proof.
  intros H%is_digit_bounds. unfold sign_of.
  replace (c =? chr "-") with false
    by (symmetry; apply N.eqb_neq; change (chr "-") with 45; lia).
  replace (c =? chr "+") with false
    by (symmetry; apply N.eqb_neq; change (chr "+") with 43; lia).
  reflexivity.
Qed.

Lemma digit_no_point c : is_digit c = true -> (c =? chr ".") = false.
Proof.
  intros H%is_digit_bounds. apply N.eqb_neq. change (chr ".") with 46. lia.
Qed.

Lemma zeros_are_digits z :
  forallb (N.eqb (chr "0")) z = true -> forallb is_digit z = true.
Proof.
  intros H. apply forallb_forall. intros c Hc.
  rewrite forallb_forall in H. apply H, N.eqb_eq in Hc as <-. reflexivity.
Qed.

(** The number read from digits, a point and digits: there is one, and
    nothing is left. *)
Lemma dg_strtod_decimal a b :
  a <> [] -> forallb is_digit a = true -> forallb is_digit b = true ->
  (N.of_nat (length a + length b) <= MAX_DIGITS) ->
  exists x, dg_strtod (a ++ chr "." :: b) = Some (x, []).
Proof.
  intros Ha Hda Hdb Hlen.
  destruct (digits_split a Hda) as (z & d & -> & Hz & Hd & Hh).
  assert (Hsign : sign_of ((z ++ d) ++ chr "." :: b)
                  = (false, (z ++ d) ++ chr "." :: b)).
  { destruct (z ++ d) as [|c t] eqn:E; [done|]. cbn [app].
    apply digit_no_sign.
    assert (H : forallb is_digit (c :: t) = true).
    { rewrite <- E, forallb_app, (zeros_are_digits _ Hz), Hd. reflexivity. }
    cbn in H. by apply andb_true_iff in H as [H _]. }
  unfold dg_strtod. rewrite Hsign, <- app_assoc.
  rewrite (span_app_stop _ z (d ++ chr "." :: b) Hz)
    by (destruct d; [reflexivity|exact Hh]).
  rewrite (span_app_stop _ d (chr "." :: b) Hd) by reflexivity.
  rewrite N.eqb_refl. rewrite !length_app in Hlen.
  destruct d as [|c d].
  - destruct (digits_split b Hdb) as (z' & d' & -> & Hz' & Hd' & Hh').
    rewrite (span_app_stop _ z' d' Hz') by (destruct d'; [reflexivity|exact Hh']).
    rewrite (span_all _ d' Hd').
    replace (bool_decide (z ++ z' = [])) with false
      by (symmetry; apply bool_decide_eq_false; destruct z; [done|discriminate]).
    cbn [negb andb length Nat.add]. rewrite andb_false_r.
    rewrite length_app in Hlen.
    replace (MAX_DIGITS <? N.of_nat (length d')) with false
      by (symmetry; apply N.ltb_ge; lia).
    replace (MAX_DIGITS <? N.of_nat (length z' + length d')) with false
      by (symmetry; apply N.ltb_ge; lia).
    cbn [orb exponent_of]. eauto.
  - rewrite (span_all _ b Hdb).
    cbn [length Nat.add Nat.eqb andb].
    replace (MAX_DIGITS <? N.of_nat (S (length d + length b))) with false
      by (symmetry; apply N.ltb_ge; cbn [length] in Hlen; lia).
    replace (MAX_DIGITS <? N.of_nat (length b)) with false
      by (symmetry; apply N.ltb_ge; lia).
    cbn [orb exponent_of]. eauto.
Qed.

Lemma stamp_char_bounds c :
  is_digit c || (c =? chr ".") = true -> 46 <= c <= 57.
Proof.
  intros [H%is_digit_bounds|H%N.eqb_eq]%orb_true_iff; [lia|].
  subst c. change (chr ".") with 46. lia.
Qed.

Lemma c_string_all s :
  forallb (fun c => negb (c =? 0)) s = true -> c_string s = s.
Proof.
  induction s as [|c s IH]; [reflexivity|]. cbn [forallb c_string].
  intros [Hc Hs]%andb_true_iff. apply negb_true_iff in Hc. by rewrite Hc, IH.
Qed.

Lemma span_none p s :
  match s with [] => True | c :: _ => p c = false end -> span p s = ([], s).
Proof. destruct s as [|c s]; [reflexivity|]. cbn. by intros ->. Qed.

(** X28: [float] converts every time stamp made of decimal digits, a
    point and decimal digits (as [1512345679.000200]), with at least one
    digit before the point and no more than [10 ^ 9] digits in all: such a
    time stamp raises no [ValueError]. *)
Theorem float_converts_a_time_stamp a b :
  a <> [] -> forallb is_digit a = true -> forallb is_digit b = true ->
  (N.of_nat (length a + length b) <= 1000000000) ->
  exists x, float (a ++ py "." ++ b) = Ok x.
Proof.
  intros Ha Hda Hdb Hlen.
  destruct (dg_strtod_decimal a b Ha Hda Hdb Hlen) as (x & Hx). exists x.
  change (py "." ++ b) with (chr "." :: b).
  set (s := a ++ chr "." :: b) in *.
  assert (Hs : Forall (fun c => 46 <= c <= 57) s).
  { unfold s. apply Forall_app. split; [|constructor].
    - apply Forall_forall. intros c Hc%list_elem_of_In.
      rewrite forallb_forall in Hda. apply Hda, is_digit_bounds in Hc. lia.
    - change (chr ".") with 46. lia.
    - apply Forall_forall. intros c Hc%list_elem_of_In.
      rewrite forallb_forall in Hdb. apply Hdb, is_digit_bounds in Hc. lia. }
  assert (Hall : forall (p : N -> bool),
             (forall c, 46 <= c <= 57 -> p c = true) -> forallb p s = true).
  { intros p Hp. apply forallb_forall. intros c Hc%list_elem_of_In.
    rewrite Forall_forall in Hs. by apply Hp, Hs. }
  assert (Hnospace : forall c, 46 <= c <= 57 -> is_space c = false).
  { intros c Hc. unfold is_space. apply orb_false_iff. split.
    - apply andb_false_iff. right. apply N.leb_gt. lia.
    - apply N.eqb_neq. lia. }
  unfold float, decimal_and_space_to_ascii.
  rewrite (Hall (fun c => c <? 128)) by (intros c Hc; apply N.ltb_lt; lia).
  unfold string_to_number_with_underscores.
  rewrite c_string_all
    by (apply Hall; intros c Hc; apply negb_true_iff, N.eqb_neq; lia).
  replace (existsb (N.eqb (chr "_")) s) with false.
  2:{ symmetry. apply not_true_iff_false. intros (c & Hc & E)%existsb_exists.
      apply N.eqb_eq in E. subst c. apply list_elem_of_In in Hc.
      rewrite Forall_forall in Hs. apply Hs in Hc. change (chr "_") with 95 in Hc.
      lia. }
  cbn [negb]. unfold float_from_string_inner.
  assert (Hne : s <> []) by (unfold s; by destruct a).
  rewrite span_none.
  2:{ destruct s as [|c t]; [done|]. apply Hnospace.
      apply Forall_cons in Hs as [Hc _]. exact Hc. }
  cbn [snd]. destruct s as [|c t] eqn:Es; [done|]. rewrite <- Es in *.
  rewrite span_none.
  2:{ destruct (rev s) as [|c' t'] eqn:Er; [done|]. apply Hnospace.
      rewrite Forall_forall in Hs. apply Hs, list_elem_of_In, in_rev.
      exact (eq_rect_r (In c') (in_eq c' t') Er). }
  cbn [fst length]. unfold ascii_strtod. rewrite Hx. reflexivity.
Qed.

Lemma float_converts_a_time_stamp_witness :
  py "1512345679" <> []
  /\ forallb is_digit (py "1512345679") = true
  /\ forallb is_digit (py "000200") = true
  /\ (N.of_nat (length (py "1512345679") + length (py "000200")) <= 1000000000)
  /\ exists x, float (py "1512345679" ++ py "." ++ py "000200") = Ok x.
Proof.
  assert (H1 : py "1512345679" <> []) by discriminate.
  assert (H4 : N.of_nat (length (py "1512345679") + length (py "000200"))
               <= 1000000000) by (vm_compute; discriminate).
  split; [exact H1|]. split; [reflexivity|]. split; [reflexivity|].
  split; [exact H4|].
  exact (float_converts_a_time_stamp (py "1512345679") (py "000200") H1 eq_refl
           eq_refl H4).
Defined.
